(** * ur5e_sdg: the synthetic-data generation script, embedded in Rocq

    The script [ur5e_sdg_script.py] drives the Isaac Sim application and the
    Replicator library.  The first part of this file embeds the script itself:
    every library call it makes is an [api_call], answered by a backend that
    is a parameter of the development, and the script is a program in a small
    state-and-fault monad that records the calls it makes.  The second part
    is a reference backend written after the design document of the pipeline;
    it is used to state what the registered randomization graph does frame by
    frame. *)

From Stdlib Require Import QArith Qround Qabs Lqa ZArith Ascii String List Lia.
From stdpp Require Import strings list pretty.
Import ListNotations.

Local Open Scope string_scope.
Local Open Scope Z_scope.

(** ** Python values and faults *)

(** Numbers of the script (ints and float literals) are rationals. *)
Inductive shape :=
| Scalar (x : Q)
| Tuple (xs : list Q).

(** What a library call hands back: nothing, a boolean, or a library object
    known by its handle. *)
Inductive pyval :=
| VNone
| VBool (b : bool)
| VObj (h : N).

(** Python truth value, as used by [while] and [not]. *)
Definition truthy (v : pyval) : bool :=
  match v with
  | VNone => false
  | VBool b => b
  | VObj _ => true
  end.

(** The argument of [SystemExit]: none ([sys.exit()]), an integer, or any
    other object, known by its text. *)
Inductive exit_arg :=
| ExitNone
| ExitInt (n : Z)
| ExitOther (text : string).

(** Exceptions.  [Exc] stands for every class deriving from [Exception];
    the two others derive from [BaseException] only. *)
Inductive fault :=
| Exc (msg : string)
| SystemExit (code : exit_arg)
| KeyboardInterrupt.

(** [isinstance(e, Exception)] *)
Definition is_Exception (f : fault) : bool :=
  match f with
  | Exc _ => true
  | _ => false
  end.

(** [str(e)] *)
Definition str_of_fault (f : fault) : string :=
  match f with
  | Exc msg => msg
  | SystemExit ExitNone => ""
  | SystemExit (ExitInt n) => pretty n
  | SystemExit (ExitOther text) => text
  | KeyboardInterrupt => ""
  end.

(** How the process ends: it exits with a status between 0 and 255, or it
    is killed by a signal. *)
Inductive ending :=
| Exits (status : Z)
| Killed (signal : Z).

Definition SIGINT : Z := 2.

(** The end of the interpreter (CPython on Linux) when [f] reaches the top
    level.  An exception is printed with its traceback, status 1.  For
    [SystemExit] without a code the status is 0; an integer code is read as
    a C [long] and the parent sees its low eight bits, a code that does not
    fit reads as -1, that is 255; any other object is printed, status 1.
    After [KeyboardInterrupt] the interpreter kills itself with [SIGINT]. *)
Definition uncaught_status (f : fault) : ending :=
  match f with
  | Exc _ => Exits 1
  | SystemExit ExitNone => Exits 0
  | SystemExit (ExitInt n) =>
    if (- 2 ^ 63 <=? n) && (n <? 2 ^ 63) then Exits (n mod 256) else Exits 255
  | SystemExit (ExitOther _) => Exits 1
  | KeyboardInterrupt => Killed SIGINT
  end.

(** ** Command line and launch configuration *)

Record cli_args := {
  headless : bool;
  height : Z;
  width : Z;
  num_frames : Z;
  data_dir : string;
}.

(** The [CONFIG] dictionary; its keys are fixed, so it is a record. *)
Record config := {
  cfg_renderer : string;
  cfg_headless : bool;
  cfg_width : Z;
  cfg_height : Z;
  cfg_num_frames : Z;
}.

Definition CONFIG (args : cli_args) : config :=
  {| cfg_renderer := "RayTracedLighting";
     cfg_headless := headless args;
     cfg_width := width args;
     cfg_height := height args;
     cfg_num_frames := num_frames args |}.

(** [os.path.join] on two components. *)
Definition path_join (a b : string) : string :=
  match b with
  | String "/"%char _ => b
  | _ =>
    if decide (a = "") then b
    else match String.get (Nat.pred (String.length a)) a with
         | Some "/"%char => a +:+ b
         | _ => a +:+ "/" +:+ b
         end
  end.

(** [script_dir] is [os.path.dirname(__file__)]. *)
Definition ENV_URL (script_dir : string) : string :=
  path_join script_dir "models/table_setup.usd".
Definition TRAY_URL (script_dir : string) : string :=
  path_join script_dir "models/tray.usd".

Definition CUBES : list string :=
  ["https://omniverse-content-production.s3-us-west-2.amazonaws.com/Assets/Isaac/4.5/Isaac/Props/Shapes/cube.usd"].

Definition CYLINDERS : list string :=
  ["https://omniverse-content-production.s3-us-west-2.amazonaws.com/Assets/Isaac/4.5/Isaac/Props/Shapes/cylinder.usd"].

(** ** The library calls of the script *)

Inductive api_call :=
| SimulationApp_new (launch_config : config)
| app_update
| app_close
| carb_settings (key : string) (value : Z)
| carb_log_error (msg : string)
| traceback_print_exc
| print (args : list string)
| open_stage (url : string)
| get_current_stage
| create_camera (focal_length focus_distance horizontal_aperture : Q)
                (clipping_range : Q * Q)
| create_from_usd (url : string)
| create_plane (scale : Q * Q * Q) (visible : bool) (position : Q * Q * Q)
| create_render_product (camera : pyval) (resolution : Z * Z)
| trigger_on_frame (frames : Z)
| get_prims (path_pattern : string)
| distribution_uniform (lower upper : shape)
| randomizer_color (colors : pyval)
| randomizer_instantiate (paths : list string) (size : pyval)
                         (semantics : list (string * string))
| randomizer_scatter_2d (surface_prims : pyval) (check_for_collisions : bool)
| modify_attribute (name : string) (value : pyval)
| modify_pose (position rotation scale : option pyval)
| ctx_enter (obj : pyval)
| ctx_exit (obj : pyval) (exc : option fault)
| WriterRegistry_get (name : string)
| writer_initialize (writer : pyval) (output_dir : string)
                    (omit_semantic_type : bool)
| writer_attach (writer : pyval) (render_product : pyval)
| orchestrator_run
| orchestrator_get_is_started
| orchestrator_stop
| BackendDispatch_wait_until_done.

Inductive reply :=
| Ret (v : pyval)
| Raise (f : fault).

Definition event : Type := api_call * reply.

Definition is_close (e : event) : bool :=
  match fst e with app_close => true | _ => false end.

Definition is_update (e : event) : bool :=
  match fst e with app_update => true | _ => false end.

Definition is_poll (e : event) : bool :=
  match fst e with orchestrator_get_is_started => true | _ => false end.

(** ** The program monad *)

Inductive outcome (A : Type) :=
| Normal (a : A)
| Raised (f : fault)
| Diverged.
Arguments Normal {A} a.
Arguments Raised {A} f.
Arguments Diverged {A}.

Declare Scope py_scope.
Delimit Scope py_scope with py.

Section Script.

(** The backend: the Isaac Sim application together with Replicator.  Each
    call is answered with a value or a fault and moves the backend on. *)
Context {St : Type} (respond : api_call -> St -> reply * St).

Record world := World { backend : St; trace : list event }.

Definition M (A : Type) : Type := world -> outcome A * world.

Definition ret {A} (a : A) : M A := fun w => (Normal a, w).

Definition bind {A B} (m : M A) (k : A -> M B) : M B :=
  fun w =>
    match m w with
    | (Normal a, w1) => k a w1
    | (Raised f, w1) => (Raised f, w1)
    | (Diverged, w1) => (Diverged, w1)
    end.

Notation "x <- c ;; k" := (bind c (fun x => k))
  (at level 100, c at next level, k at level 200, right associativity) : py_scope.
Notation "c ;; k" := (bind c (fun _ => k))
  (at level 100, k at level 200, right associativity) : py_scope.
Local Open Scope py_scope.

Definition call (c : api_call) : M pyval :=
  fun w =>
    let '(r, s1) := respond c (backend w) in
    let w1 := World s1 (trace w ++ [(c, r)]) in
    match r with
    | Ret v => (Normal v, w1)
    | Raise f => (Raised f, w1)
    end.

(** [while cond: body], cut off after [fuel] tests of the condition. *)
Fixpoint while (fuel : nat) (cond : M bool) (body : M unit) : M unit :=
  match fuel with
  | O => fun w => (Diverged, w)
  | S fuel' =>
    b <- cond ;;
    if b then body ;; while fuel' cond body else ret tt
  end.

(** [for i in range(n): body i] *)
Fixpoint for_in {A} (l : list A) (body : A -> M unit) : M unit :=
  match l with
  | [] => ret tt
  | i :: l' => body i ;; for_in l' body
  end.

Definition for_range (n : nat) (body : nat -> M unit) : M unit :=
  for_in (seq 0 n) body.

(** [raise f], by the interpreter itself: no library call is made. *)
Definition raise {A} (f : fault) : M A := fun w => (Raised f, w).

(** [type(v).__name__] *)
Definition type_name (v : pyval) : string :=
  match v with
  | VNone => "NoneType"
  | VBool _ => "bool"
  | VObj _ => "object"
  end.

(** What the interpreter raises for [with v:] and for [v.name] when [v] is
    [None] or a boolean: a [TypeError] and an [AttributeError], both of class
    [Exception] (texts of CPython 3.11; earlier versions raise
    [AttributeError] in both places). *)
Definition no_context_manager (v : pyval) : fault :=
  Exc ("'" +:+ type_name v
       +:+ "' object does not support the context manager protocol").

Definition no_attribute (v : pyval) (name : string) : fault :=
  Exc ("'" +:+ type_name v +:+ "' object has no attribute '" +:+ name +:+ "'").

(** [with ctx: body] on a library object: [__exit__] runs on every path
    out of the body, and a true result of [__exit__] swallows the fault of
    the body. *)
Definition with_object (ctx : pyval) (body : M unit) : M unit :=
  call (ctx_enter ctx) ;;
  fun w =>
    match body w with
    | (Normal _, w1) => (call (ctx_exit ctx None) ;; ret tt) w1
    | (Raised f, w1) =>
      match call (ctx_exit ctx (Some f)) w1 with
      | (Normal v, w2) => if truthy v then (Normal tt, w2) else (Raised f, w2)
      | (Raised g, w2) => (Raised g, w2)
      | (Diverged, w2) => (Diverged, w2)
      end
    | (Diverged, w1) => (Diverged, w1)
    end.

(** [with ctx: body].  Whether a library object is a context manager is for
    the library to say, when it is entered; [None] and booleans are not, and
    the interpreter raises before anything is called. *)
Definition with_ (ctx : pyval) (body : M unit) : M unit :=
  match ctx with
  | VObj _ => with_object ctx body
  | _ => raise (no_context_manager ctx)
  end.

(** [obj.name(...)], the call itself being [c]: on [None] and on booleans
    the attribute is missing and the interpreter raises before anything is
    called. *)
Definition method (obj : pyval) (name : string) (c : api_call) : M pyval :=
  match obj with
  | VObj _ => call c
  | _ => raise (no_attribute obj name)
  end.

(** [try: body / except Exception as e: handler e / finally: final] *)
Definition try_except_finally (body : M unit) (handler : fault -> M unit)
    (final : M unit) : M unit :=
  fun w =>
    match body w with
    | (Normal _, w1) => final w1
    | (Raised f, w1) =>
      if is_Exception f then
        match handler f w1 with
        | (Normal _, w2) => final w2
        | (Raised g, w2) =>
          match final w2 with
          | (Normal _, w3) => (Raised g, w3)
          | r => r
          end
        | (Diverged, w2) => (Diverged, w2)
        end
      else
        match final w1 with
        | (Normal _, w2) => (Raised f, w2)
        | r => r
        end
    | (Diverged, w1) => (Diverged, w1)
    end.

(** *** [run_orchestrator] *)

Definition run_orchestrator (fuel : nat) : M unit :=
  call orchestrator_run ;;
  (* Wait until started *)
  while fuel (v <- call orchestrator_get_is_started ;; ret (negb (truthy v)))
             (call app_update ;; ret tt) ;;
  (* Wait until stopped *)
  while fuel (v <- call orchestrator_get_is_started ;; ret (truthy v))
             (call app_update ;; ret tt) ;;
  call BackendDispatch_wait_until_done ;;
  call orchestrator_stop ;;
  ret tt.

(** *** [main] *)

Variable args : cli_args.
Variable script_dir : string.

(** The rules registered under the frame trigger. *)
Definition randomization_graph (cam tray plane : pyval) : M unit :=
  (* Randomize ground color *)
  ground <- call (get_prims "GroundPlane") ;;
  with_ ground (
    d <- call (distribution_uniform (Scalar 0.15) (Scalar 0.5)) ;;
    call (randomizer_color d) ;; ret tt) ;;
  (* Randomize lighting *)
  light <- call (get_prims "DomeLight") ;;
  with_ light (
    d <- call (distribution_uniform (Tuple [0.9; 0.9; 0.9]%Q) (Tuple [1; 1; 1]%Q)) ;;
    call (modify_attribute "color" d) ;;
    d <- call (distribution_uniform (Scalar 600) (Scalar 1200)) ;;
    call (modify_attribute "intensity" d) ;; ret tt) ;;
  (* Randomize camera properties *)
  with_ cam (
    p <- call (distribution_uniform (Tuple [1; 0; 1.77]%Q) (Tuple [1; 0; 1.83]%Q)) ;;
    r <- call (distribution_uniform (Tuple [0; -52; 0]%Q) (Tuple [0; -48; 0]%Q)) ;;
    call (modify_pose (Some p) (Some r) None) ;; ret tt) ;;
  (* Randomize tray and plane pose *)
  random_position <-
    call (distribution_uniform (Tuple [0.57; -0.03; 1.095]%Q)
                               (Tuple [0.63; 0.03; 1.095]%Q)) ;;
  random_rotation <-
    call (distribution_uniform (Tuple [0; 0; -2]%Q) (Tuple [0; 0; 2]%Q)) ;;
  with_ tray (
    call (modify_pose (Some random_position) (Some random_rotation) None) ;;
    ret tt) ;;
  with_ plane (
    call (modify_pose (Some random_position) (Some random_rotation) None) ;;
    ret tt) ;;
  (* Randomize object properties *)
  size <- call (distribution_uniform (Scalar 0) (Scalar 5)) ;;
  cubes <- call (randomizer_instantiate [nth 0 CUBES ""] size [("class", "cube")]) ;;
  with_ cubes (
    r <- call (distribution_uniform (Tuple [0; 0; 0]%Q) (Tuple [45; 45; 180]%Q)) ;;
    s <- call (distribution_uniform (Tuple [0.03; 0.03; 0.03]%Q)
                                    (Tuple [0.06; 0.06; 0.06]%Q)) ;;
    call (modify_pose None (Some r) (Some s)) ;;
    call (randomizer_scatter_2d plane false) ;;
    c <- call (distribution_uniform (Tuple [0.6; 0.0; 0.6]%Q)
                                    (Tuple [1.0; 0.3; 1.0]%Q)) ;;
    call (randomizer_color c) ;; ret tt) ;;
  size <- call (distribution_uniform (Scalar 0) (Scalar 5)) ;;
  cylinders <-
    call (randomizer_instantiate [nth 0 CYLINDERS ""] size [("class", "cylinder")]) ;;
  with_ cylinders (
    r <- call (distribution_uniform (Tuple [0; 0; 0]%Q) (Tuple [45; 45; 180]%Q)) ;;
    s <- call (distribution_uniform (Tuple [0.04; 0.04; 0.03]%Q)
                                    (Tuple [0.06; 0.06; 0.06]%Q)) ;;
    call (modify_pose None (Some r) (Some s)) ;;
    call (randomizer_scatter_2d plane false) ;;
    c <- call (distribution_uniform (Tuple [0.0; 0.0; 0.0]%Q)
                                    (Tuple [0.3; 0.3; 0.3]%Q)) ;;
    call (randomizer_color c) ;; ret tt).

Definition main (fuel : nat) : M unit :=
  (* Open the environment in a new stage *)
  call (print ["Loading Stage " +:+ ENV_URL script_dir]) ;;
  call (open_stage (ENV_URL script_dir)) ;;
  stage <- call get_current_stage ;;
  (* Run some app updates to make sure things are properly loaded *)
  for_range 100 (fun i =>
    (if (i mod 10 =? 0)%nat
     then call (print ["App update " +:+ pretty i +:+ ".."]) ;; ret tt
     else ret tt) ;;
    call app_update ;; ret tt) ;;
  (* Create camera with Replicator API for gathering data *)
  cam <- call (create_camera 1.93 0.8 3.896 (0.1, 1000000)%Q) ;;
  (* Create a tray *)
  tray <- call (create_from_usd (TRAY_URL script_dir)) ;;
  (* Plane for scattering objects *)
  plane <- call (create_plane (0.35, 0.5, 1)%Q false (0.6, 0, 1.12)%Q) ;;
  (* trigger replicator pipeline *)
  trigger <- call (trigger_on_frame (cfg_num_frames (CONFIG args))) ;;
  with_ trigger (randomization_graph cam tray plane) ;;
  (* Set up the writer *)
  writer <- call (WriterRegistry_get "KittiWriter") ;;
  (* output directory of writer *)
  let output_directory := data_dir args in
  call (print ["Outputting data to "; output_directory]) ;;
  (* use writer for bounding boxes, rgb and segmentation *)
  method writer "initialize" (writer_initialize writer output_directory true) ;;
  (* attach camera render products to writer so that data is outputted *)
  let RESOLUTION := (cfg_width (CONFIG args), cfg_height (CONFIG args)) in
  render_product <- call (create_render_product cam RESOLUTION) ;;
  method writer "attach" (writer_attach writer render_product) ;;
  (* run rep pipeline *)
  run_orchestrator fuel ;;
  call app_update ;;
  ret tt.

(** *** The [__main__] block and the whole script *)

Definition main_block (fuel : nat) : M unit :=
  try_except_finally
    (main fuel)
    (fun e =>
       call (carb_log_error ("Exception: " +:+ str_of_fault e)) ;;
       call traceback_print_exc ;;
       ret tt)
    (call app_close ;; ret tt).

(** Module level: launch the application, set the subframe count, then the
    [__main__] block. *)
Definition script (fuel : nat) : M unit :=
  call (SimulationApp_new (CONFIG args)) ;;
  call (carb_settings "/omni/replicator/RTSubframes" 25) ;;
  main_block fuel.

(** How the process ends for an outcome of the script; a script that is
    cut off in a poll loop does not end. *)
Definition exit_code (o : outcome unit) : option ending :=
  match o with
  | Normal _ => Some (Exits 0)
  | Raised f => Some (uncaught_status f)
  | Diverged => None
  end.

End Script.

(** ** A reference backend

    The application and Replicator are not part of the repository.  The
    module below is a backend written after the design document of the
    pipeline: scene entities, distributions, randomization rules bound to a
    frame trigger, scatter placement, the frame run and the dataset records.
    It answers every call of the script, so the script can be run against
    it. *)

Module Ref.

(** *** Data model *)

(** Where a scene entity comes from: the loaded stage, a [rep.create] call
    (by the handle handed to the script), or an instantiation node (with the
    rank of the instance in its population). *)
Inductive origin :=
| FromStage
| Created (h : N)
| Instance (node : N) (index : nat).

Record entity := Entity {
  e_path : string;
  e_origin : origin;
  e_label : list (string * string);
  e_attrs : list (string * shape);
}.

Record dist := Dist { d_handle : N; d_lower : shape; d_upper : shape }.

Inductive selector :=
| ByPattern (path_pattern : string)
| ByHandle (h : N)
| Instances (node : N).

Inductive action :=
| SetColor (colors : dist)
| SetAttribute (name : string) (value : dist)
| SetPose (position rotation scale : option dist)
| Scatter2D (surface : N) (check_for_collisions : bool)
| Instantiate (paths : list string) (size : dist)
              (semantics : list (string * string)).

Record rule := Rule { r_id : N; r_target : selector; r_action : action }.

Inductive object :=
| OStage
| OPrim
| OSelector (path_pattern : string)
| ODist (lower upper : shape)
| OTrigger (frames : Z)
| ONode
| ORule
| OWriter (name : string) (output_dir : option string)
| ORenderProduct (camera : N) (resolution : Z * Z).

(** Lifecycle of the frame run.  [Started d]: run requested, [d] more ticks
    until the backend reports that it has started.  [Running i]: frame [i]
    is the next one to execute. *)
Inductive lifecycle :=
| Idle
| Started (wait : nat)
| Running (next_frame : nat)
| Stopped.

Record record := Rec {
  rec_frame : nat;
  rec_product : N;
  rec_scene : list entity;
}.

(** What the backend did, in order. *)
Inductive jentry :=
| RuleRun (frame : nat) (rule : N)
| WriteIssued (frame : nat) (product : N)
| Drained
| StopIssued.

Record state := State {
  objects : list object;
  scopes : list N;
  registry : list rule;
  frames : Z;
  scene : list entity;
  attached : list N;
  run : lifecycle;
  pending : list record;
  written : list record;
  journal : list jentry;
  app_open : bool;
}.

Definition init : state :=
  {| objects := []; scopes := []; registry := [];
     frames := 0; scene := []; attached := []; run := Idle;
     pending := []; written := []; journal := []; app_open := false |}.

(** *** Distribution sampler *)

(** [low <= high] componentwise, on values of the same shape. *)
Definition bounds_ok (lo hi : shape) : bool :=
  match lo, hi with
  | Scalar a, Scalar b => Qle_bool a b
  | Tuple la, Tuple lb =>
    (length la =? length lb)%nat
    && forallb (fun ab => Qle_bool (fst ab) (snd ab)) (combine la lb)
  | _, _ => false
  end.

Definition lerp (lo hi u : Q) : Q := (lo + u * (hi - lo))%Q.

(** One draw per component: component [i] uses [u i] and nothing else. *)
Fixpoint lerp_all (i : nat) (los his : list Q) (u : nat -> Q) : list Q :=
  match los, his with
  | lo :: los', hi :: his' => lerp lo hi (u i) :: lerp_all (S i) los' his' u
  | _, _ => []
  end.

(** [sample d u]: a value of the shape of [d], from unit-interval draws. *)
Definition sample (d : dist) (u : nat -> Q) : shape :=
  match d_lower d, d_upper d with
  | Scalar lo, Scalar hi => Scalar (lerp lo hi (u 0%nat))
  | Tuple los, Tuple his => Tuple (lerp_all 0 los his u)
  | lo, _ => lo
  end.

(** [lo <= v <= hi] componentwise. *)
Definition within (lo hi v : shape) : Prop :=
  match lo, hi, v with
  | Scalar a, Scalar b, Scalar x => (a <= x <= b)%Q
  | Tuple la, Tuple lb, Tuple lx =>
    length lx = length la /\
    Forall2 (fun ab x => (fst ab <= x <= snd ab)%Q) (combine la lb) lx
  | _, _, _ => False
  end.

(** *** Randomization rules *)

Fixpoint is_substring (p s : string) : bool :=
  String.prefix p s
  || match s with
     | EmptyString => false
     | String _ s' => is_substring p s'
     end.

Definition selects (sel : selector) (e : entity) : bool :=
  match sel, e_origin e with
  | ByPattern p, _ => is_substring p (e_path e)
  | ByHandle h, Created h' => N.eqb h h'
  | Instances n, Instance n' _ => N.eqb n n'
  | _, _ => false
  end.

(** Attributes are kept as a list of named values, one per name. *)
Definition get_attr (name : string) (e : entity) : option shape :=
  option_map snd (List.find (fun a => String.eqb (fst a) name) (e_attrs e)).

Definition set_attr (name : string) (v : shape) (e : entity) : entity :=
  Entity (e_path e) (e_origin e) (e_label e)
         ((name, v) :: List.filter (fun a => negb (String.eqb (fst a) name))
                                   (e_attrs e)).

(** Apply [f k] to the [k]-th entity selected by [sel], [k] counted from
    [k0]; a selector that matches nothing leaves the scene as it is. *)
Fixpoint update_targets (sel : selector) (f : nat -> entity -> entity)
    (k0 : nat) (sc : list entity) : list entity :=
  match sc with
  | [] => []
  | e :: sc' =>
    if selects sel e
    then f k0 e :: update_targets sel f (S k0) sc'
    else e :: update_targets sel f k0 sc'
  end.

Definition tuple3 (v : option shape) : option (Q * Q * Q) :=
  match v with
  | Some (Tuple [x; y; z]) => Some (x, y, z)
  | _ => None
  end.

(** Footprint of an instance on the surface: centre and size. *)
Record footprint := Footprint { f_x : Q; f_y : Q; f_w : Q; f_h : Q }.

Definition Qlt_bool (a b : Q) : bool := negb (Qle_bool b a).

Definition overlaps (a b : footprint) : bool :=
  Qlt_bool (Qabs (f_x a - f_x b)) ((f_w a + f_w b) / 2)
  && Qlt_bool (Qabs (f_y a - f_y b)) ((f_h a + f_h b) / 2).

(** Try candidates [attempt], [attempt + 1], ...; with collision checking
    a colliding candidate is drawn again, at most [retries] times, after
    which the overlap is accepted. *)
Fixpoint choose_place (retries attempt : nat) (check : bool)
    (placed : list footprint) (candidate : nat -> footprint)
    : footprint * nat :=
  let c := candidate attempt in
  match retries with
  | O => (c, attempt)
  | S retries' =>
    if check && existsb (overlaps c) placed
    then choose_place retries' (S attempt) check placed candidate
    else (c, attempt)
  end.

Fixpoint scatter_targets (sel : selector)
    (place : nat -> list footprint -> entity -> entity * footprint)
    (k0 : nat) (placed : list footprint) (sc : list entity) : list entity :=
  match sc with
  | [] => []
  | e :: sc' =>
    if selects sel e
    then let '(e', fp) := place k0 placed e in
         e' :: scatter_targets sel place (S k0) (fp :: placed) sc'
    else e :: scatter_targets sel place k0 placed sc'
  end.

Definition instance_count (v : shape) : nat :=
  match v with
  | Scalar q => Z.to_nat (Qfloor q)
  | Tuple _ => 0%nat
  end.

Definition new_instance (node : N) (semantics : list (string * string))
    (k : nat) : entity :=
  Entity ("/Replicator/SampledAssets/Population_" +:+ pretty node
          +:+ "/Ref_Xform_" +:+ pretty k)
         (Instance node k) semantics [].

Section Backend.

(** Parameters of the reference backend: the prims of the stage file, the
    number of ticks the orchestrator needs to start, the retry bound of
    scatter placement, and the unit-interval draws, indexed by frame, by the
    node that draws, by the rank of the target and by the component. *)
Variable stage_prims : list string.
Variable latency : nat.
Variable retry_bound : nat.
Variable entropy : nat -> N -> nat -> nat -> Q.

Definition draw (frame : nat) (d : dist) (k : nat) : shape :=
  sample d (entropy frame (d_handle d) k).

Definition set_opt (name : string) (od : option dist) (frame k : nat)
    (e : entity) : entity :=
  match od with
  | Some d => set_attr name (draw frame d k) e
  | None => e
  end.

(** Scatter placement of one instance on the surface with centre [c] and
    extent [sx] by [sy]: a position drawn uniformly over the extent, in the
    axes of the surface, resting on the surface. *)
Definition place_on (frame : nat) (id : N) (check : bool)
    (c : Q * Q * Q) (sx sy : Q)
    (k : nat) (placed : list footprint) (e : entity) : entity * footprint :=
  let '(cx, cy, cz) := c in
  let '(w, h) := match tuple3 (get_attr "scale" e) with
                 | Some (w, h, _) => (w, h)
                 | None => (0, 0)%Q
                 end in
  let candidate a :=
    Footprint (cx + (entropy frame id k (2 * a) - 1 / 2) * sx)
              (cy + (entropy frame id k (2 * a + 1) - 1 / 2) * sy) w h in
  let fp := fst (choose_place retry_bound 0 check placed candidate) in
  (set_attr "position" (Tuple [f_x fp; f_y fp; cz]) e, fp).

Definition apply_rule (frame : nat) (r : rule) (sc : list entity)
    : list entity :=
  match r_action r with
  | SetColor d =>
    update_targets (r_target r) (fun k => set_attr "color" (draw frame d k)) 0 sc
  | SetAttribute name d =>
    update_targets (r_target r) (fun k => set_attr name (draw frame d k)) 0 sc
  | SetPose p r' s =>
    update_targets (r_target r)
      (fun k e => set_opt "scale" s frame k
                    (set_opt "rotation" r' frame k
                       (set_opt "position" p frame k e))) 0 sc
  | Scatter2D surface check =>
    match List.find (selects (ByHandle surface)) sc with
    | Some sf =>
      match tuple3 (get_attr "position" sf), tuple3 (get_attr "scale" sf) with
      | Some c, Some (sx, sy, _) =>
        scatter_targets (r_target r) (place_on frame (r_id r) check c sx sy)
                        0 [] sc
      | _, _ => sc
      end
    | None => sc
    end
  | Instantiate _ size semantics =>
    List.filter (fun e => negb (selects (r_target r) e)) sc
    ++ map (new_instance (r_id r) semantics)
           (seq 0 (instance_count (draw frame size 0)))
  end.

(** The rules of the frame trigger, once each, in registration order. *)
Definition execute_frame (frame : nat) (rules : list rule)
    (sc : list entity) : list entity :=
  fold_left (fun sc r => apply_rule frame r sc) rules sc.

(** *** The frame run *)

Definition render_frame (i : nat) (s : state) : state :=
  let sc := execute_frame i (registry s) (scene s) in
  {| objects := objects s; scopes := scopes s;
     registry := registry s; frames := frames s;
     scene := sc;
     attached := attached s;
     run := Running (S i);
     pending := pending s ++ map (fun p => Rec i p sc) (attached s);
     written := written s;
     journal := journal s ++ map (fun r => RuleRun i (r_id r)) (registry s)
                          ++ map (WriteIssued i) (attached s);
     app_open := app_open s |}.

Definition set_run (l : lifecycle) (s : state) : state :=
  {| objects := objects s; scopes := scopes s;
     registry := registry s; frames := frames s; scene := scene s;
     attached := attached s; run := l; pending := pending s;
     written := written s; journal := journal s; app_open := app_open s |}.

(** One tick of the simulator clock. *)
Definition tick (s : state) : state :=
  match run s with
  | Started (S d) => set_run (Started d) s
  | Started O => set_run (Running 0) s
  | Running i =>
    if Z.of_nat i <? frames s then render_frame i s else set_run Stopped s
  | _ => s
  end.

(** The drain barrier: every pending write becomes durable. *)
Definition drain (s : state) : state :=
  {| objects := objects s; scopes := scopes s;
     registry := registry s; frames := frames s; scene := scene s;
     attached := attached s; run := run s; pending := [];
     written := written s ++ pending s;
     journal := journal s ++ [Drained]; app_open := app_open s |}.

Definition stop (s : state) : state :=
  {| objects := objects s; scopes := scopes s;
     registry := registry s; frames := frames s; scene := scene s;
     attached := attached s; run := Idle; pending := pending s;
     written := written s;
     journal := journal s ++ [StopIssued]; app_open := app_open s |}.

(** *** Scene composition and rule registration *)

Definition alloc (o : object) (s : state) : N * state :=
  (N.of_nat (length (objects s)),
   {| objects := objects s ++ [o];
      scopes := scopes s; registry := registry s; frames := frames s;
      scene := scene s; attached := attached s; run := run s;
      pending := pending s; written := written s; journal := journal s;
      app_open := app_open s |}).

Definition set_object (h : N) (o : object) (s : state) : state :=
  {| objects := <[N.to_nat h := o]> (objects s);
     scopes := scopes s; registry := registry s; frames := frames s;
     scene := scene s; attached := attached s; run := run s;
     pending := pending s; written := written s; journal := journal s;
     app_open := app_open s |}.

Definition set_scene (sc : list entity) (s : state) : state :=
  {| objects := objects s; scopes := scopes s;
     registry := registry s; frames := frames s; scene := sc;
     attached := attached s; run := run s; pending := pending s;
     written := written s; journal := journal s; app_open := app_open s |}.

Definition set_scopes (sts : list N) (n : Z) (s : state) : state :=
  {| objects := objects s; scopes := sts;
     registry := registry s; frames := n; scene := scene s;
     attached := attached s; run := run s; pending := pending s;
     written := written s; journal := journal s; app_open := app_open s |}.

Definition add_rule (r : rule) (s : state) : state :=
  {| objects := objects s; scopes := scopes s;
     registry := registry s ++ [r]; frames := frames s; scene := scene s;
     attached := attached s; run := run s; pending := pending s;
     written := written s; journal := journal s; app_open := app_open s |}.

Definition set_attached (l : list N) (s : state) : state :=
  {| objects := objects s; scopes := scopes s;
     registry := registry s; frames := frames s; scene := scene s;
     attached := l; run := run s; pending := pending s;
     written := written s; journal := journal s; app_open := app_open s |}.

Definition set_open (b : bool) (s : state) : state :=
  {| objects := objects s; scopes := scopes s;
     registry := registry s; frames := frames s; scene := scene s;
     attached := attached s; run := run s; pending := pending s;
     written := written s; journal := journal s; app_open := b |}.

Definition create_prim (name : string) (attrs : list (string * shape))
    (s : state) : reply * state :=
  let '(h, s1) := alloc OPrim s in
  (Ret (VObj h),
   set_scene (scene s1 ++ [Entity ("/Replicator/" +:+ name +:+ "_" +:+ pretty h)
                                  (Created h) [] attrs]) s1).

(** The distribution behind a value handed to a rule. *)
Definition resolve (v : pyval) (s : state) : option dist :=
  match v with
  | VObj h =>
    match objects s !! N.to_nat h with
    | Some (ODist lo hi) => Some (Dist h lo hi)
    | _ => None
    end
  | _ => None
  end.

Definition resolve_opt (ov : option pyval) (s : state) : option (option dist) :=
  match ov with
  | None => Some None
  | Some v => option_map Some (resolve v s)
  end.

(** The target of a rule: what the innermost open scope selects. *)
Definition current_target (s : state) : option selector :=
  match scopes s with
  | h :: _ =>
    match objects s !! N.to_nat h with
    | Some (OSelector p) => Some (ByPattern p)
    | Some OPrim => Some (ByHandle h)
    | Some ONode => Some (Instances h)
    | _ => None
    end
  | [] => None
  end.

Definition in_trigger (s : state) : bool :=
  existsb (fun h => match objects s !! N.to_nat h with
                    | Some (OTrigger _) => true
                    | _ => false
                    end) (scopes s).

Definition type_error : reply := Raise (Exc "TypeError").
Definition config_error (msg : string) : reply := Raise (Exc msg).

(** Register the rule with action [a] on the current target. *)
Definition register (oa : option action) (s : state) : reply * state :=
  match oa, current_target s, in_trigger s with
  | Some a, Some sel, true =>
    let '(h, s1) := alloc ORule s in
    (Ret (VObj h), add_rule (Rule h sel a) s1)
  | None, _, _ => (type_error, s)
  | _, _, _ => (config_error "no target under a frame trigger", s)
  end.

Definition respond (c : api_call) (s : state) : reply * state :=
  match c with
  | SimulationApp_new _ => (Ret VNone, set_open true s)
  | app_update => (Ret VNone, tick s)
  | app_close => (Ret VNone, set_open false s)
  | carb_settings _ _ => (Ret VNone, s)
  | carb_log_error _ => (Ret VNone, s)
  | traceback_print_exc => (Ret VNone, s)
  | print _ => (Ret VNone, s)
  | open_stage _ =>
    (Ret (VBool true),
     set_scene (map (fun p => Entity p FromStage [] []) stage_prims) s)
  | get_current_stage =>
    let '(h, s1) := alloc OStage s in (Ret (VObj h), s1)
  | create_camera fl fd ha (near, far) =>
    create_prim "Camera_Xform"
      [("focal_length", Scalar fl); ("focus_distance", Scalar fd);
       ("horizontal_aperture", Scalar ha);
       ("clipping_range", Tuple [near; far])] s
  | create_from_usd _ => create_prim "Ref_Xform" [] s
  | create_plane (sx, sy, sz) visible (px, py, pz) =>
    create_prim "Plane_Xform"
      [("scale", Tuple [sx; sy; sz]); ("position", Tuple [px; py; pz]);
       ("visible", Scalar (if visible then 1 else 0))] s
  | create_render_product (VObj cam) res =>
    match objects s !! N.to_nat cam with
    | Some OPrim =>
      let '(h, s1) := alloc (ORenderProduct cam res) s in (Ret (VObj h), s1)
    | _ => (type_error, s)
    end
  | create_render_product _ _ => (type_error, s)
  | trigger_on_frame n =>
    let '(h, s1) := alloc (OTrigger n) s in (Ret (VObj h), s1)
  | get_prims p =>
    let '(h, s1) := alloc (OSelector p) s in (Ret (VObj h), s1)
  | distribution_uniform lo hi =>
    if bounds_ok lo hi
    then let '(h, s1) := alloc (ODist lo hi) s in (Ret (VObj h), s1)
    else (config_error "invalid distribution bounds", s)
  | randomizer_color d =>
    register (option_map SetColor (resolve d s)) s
  | modify_attribute name d =>
    register (option_map (SetAttribute name) (resolve d s)) s
  | modify_pose p r sc =>
    register (match resolve_opt p s, resolve_opt r s, resolve_opt sc s with
              | Some p', Some r', Some sc' => Some (SetPose p' r' sc')
              | _, _, _ => None
              end) s
  | randomizer_scatter_2d (VObj surface) check =>
    match objects s !! N.to_nat surface with
    | Some OPrim => register (Some (Scatter2D surface check)) s
    | _ => (type_error, s)
    end
  | randomizer_scatter_2d _ _ => (type_error, s)
  | randomizer_instantiate paths size semantics =>
    match resolve size s, in_trigger s with
    | Some d, true =>
      let '(h, s1) := alloc ONode s in
      (Ret (VObj h),
       add_rule (Rule h (Instances h) (Instantiate paths d semantics)) s1)
    | None, _ => (type_error, s)
    | _, false => (config_error "no frame trigger", s)
    end
  | ctx_enter (VObj h) =>
    match objects s !! N.to_nat h with
    | Some (OTrigger n) => (Ret (VObj h), set_scopes (h :: scopes s) n s)
    | Some (OSelector _) | Some OPrim | Some ONode =>
      (Ret (VObj h), set_scopes (h :: scopes s) (frames s) s)
    | _ => (type_error, s)
    end
  | ctx_enter _ => (type_error, s)
  | ctx_exit _ _ => (Ret (VBool false), set_scopes (tail (scopes s)) (frames s) s)
  | WriterRegistry_get name =>
    let '(h, s1) := alloc (OWriter name None) s in (Ret (VObj h), s1)
  | writer_initialize (VObj w) dir _ =>
    match objects s !! N.to_nat w with
    | Some (OWriter name _) => (Ret VNone, set_object w (OWriter name (Some dir)) s)
    | _ => (type_error, s)
    end
  | writer_initialize _ _ _ => (type_error, s)
  | writer_attach (VObj w) (VObj rp) =>
    match objects s !! N.to_nat w, objects s !! N.to_nat rp with
    | Some (OWriter _ (Some _)), Some (ORenderProduct _ _) =>
      (Ret VNone, set_attached (attached s ++ [rp]) s)
    | _, _ => (type_error, s)
    end
  | writer_attach _ _ => (type_error, s)
  | orchestrator_run =>
    (Ret VNone, match run s with Idle => set_run (Started latency) s | _ => s end)
  | orchestrator_get_is_started =>
    (Ret (VBool match run s with Running _ => true | _ => false end), s)
  | orchestrator_stop => (Ret VNone, stop s)
  | BackendDispatch_wait_until_done => (Ret VNone, drain s)
  end.

End Backend.

End Ref.

Local Open Scope list_scope.

(** ** Vocabulary for traces *)

Definition is_ret (e : event) : bool :=
  match snd e with Ret _ => true | Raise _ => false end.

(** No call of the trace raised. *)
Definition faultless (t : list event) : bool := forallb is_ret t.

Definition is_drain (e : event) : bool :=
  match fst e with BackendDispatch_wait_until_done => true | _ => false end.

Definition is_stop (e : event) : bool :=
  match fst e with orchestrator_stop => true | _ => false end.

(** Neither the drain barrier nor the stop command. *)
Definition before_stopped (e : event) : bool := negb (is_drain e || is_stop e).

Definition outcome_of_reply (r : reply) : outcome pyval :=
  match r with Ret v => Normal v | Raise f => Raised f end.

Definition is_normal {A} (o : outcome A) : bool :=
  match o with Normal _ => true | _ => false end.

(** The Started phase as seen on the trace: polls answered "not started",
    each followed by one tick, then one poll answered "started". *)
Inductive started_phase : list event -> Prop :=
| started_now v :
    truthy v = true ->
    started_phase [(orchestrator_get_is_started, Ret v)]
| started_later v u t :
    truthy v = false ->
    started_phase t ->
    started_phase ((orchestrator_get_is_started, Ret v) :: (app_update, Ret u) :: t).

(** The Running phase: polls answered "started", each followed by one tick,
    then one poll answered "not started". *)
Inductive running_phase : list event -> Prop :=
| running_done v :
    truthy v = false ->
    running_phase [(orchestrator_get_is_started, Ret v)]
| running_more v u t :
    truthy v = true ->
    running_phase t ->
    running_phase ((orchestrator_get_is_started, Ret v) :: (app_update, Ret u) :: t).

Section Vocabulary.
Context {St : Type}.
Abbreviation M := (@M St).

(** [emits P m]: [m] only extends the trace, with events satisfying [P]. *)
Definition emits {A} (P : event -> bool) (m : M A) : Prop :=
  forall w, exists t, trace (snd (m w)) = trace w ++ t /\ forallb P t = true.

(** [faultless_run m w Q]: every faultless run of [m] from [w] satisfies [Q]. *)
Definition faultless_run {A} (m : M A) (w : world)
    (Q : outcome A -> list event -> Prop) : Prop :=
  exists t, trace (snd (m w)) = trace w ++ t
            /\ (faultless t = true -> Q (fst (m w)) t).

(** [ends_in m P Q]: the events of a normal run of [m] split into a
    part satisfying [P] followed by a part satisfying [Q]. *)
Definition ends_in (m : M unit) (P : event -> bool)
    (Q : list event -> Prop) : Prop :=
  forall w w', m w = (Normal tt, w') ->
    exists t s, trace w' = trace w ++ t ++ s /\ forallb P t = true /\ Q s.

End Vocabulary.

(** The calls of the frame-trigger block of [main], in source order, with
    [r i] the answer to the [i]-th call. *)
Definition registration_events (cam tray plane : pyval) (r : nat -> pyval)
    : list event :=
  let a (i : nat) := Ret (r i) in
  [ (get_prims "GroundPlane", a 0%nat);
    (ctx_enter (r 0%nat), a 1%nat);
    (distribution_uniform (Scalar 0.15) (Scalar 0.5), a 2%nat);
    (randomizer_color (r 2%nat), a 3%nat);
    (ctx_exit (r 0%nat) None, a 4%nat);
    (get_prims "DomeLight", a 5%nat);
    (ctx_enter (r 5%nat), a 6%nat);
    (distribution_uniform (Tuple [0.9; 0.9; 0.9]%Q) (Tuple [1; 1; 1]%Q), a 7%nat);
    (modify_attribute "color" (r 7%nat), a 8%nat);
    (distribution_uniform (Scalar 600) (Scalar 1200), a 9%nat);
    (modify_attribute "intensity" (r 9%nat), a 10%nat);
    (ctx_exit (r 5%nat) None, a 11%nat);
    (ctx_enter cam, a 12%nat);
    (distribution_uniform (Tuple [1; 0; 1.77]%Q) (Tuple [1; 0; 1.83]%Q), a 13%nat);
    (distribution_uniform (Tuple [0; -52; 0]%Q) (Tuple [0; -48; 0]%Q), a 14%nat);
    (modify_pose (Some (r 13%nat)) (Some (r 14%nat)) None, a 15%nat);
    (ctx_exit cam None, a 16%nat);
    (distribution_uniform (Tuple [0.57; -0.03; 1.095]%Q)
                          (Tuple [0.63; 0.03; 1.095]%Q), a 17%nat);
    (distribution_uniform (Tuple [0; 0; -2]%Q) (Tuple [0; 0; 2]%Q), a 18%nat);
    (ctx_enter tray, a 19%nat);
    (modify_pose (Some (r 17%nat)) (Some (r 18%nat)) None, a 20%nat);
    (ctx_exit tray None, a 21%nat);
    (ctx_enter plane, a 22%nat);
    (modify_pose (Some (r 17%nat)) (Some (r 18%nat)) None, a 23%nat);
    (ctx_exit plane None, a 24%nat);
    (distribution_uniform (Scalar 0) (Scalar 5), a 25%nat);
    (randomizer_instantiate [nth 0 CUBES ""] (r 25%nat) [("class", "cube")],
     a 26%nat);
    (ctx_enter (r 26%nat), a 27%nat);
    (distribution_uniform (Tuple [0; 0; 0]%Q) (Tuple [45; 45; 180]%Q), a 28%nat);
    (distribution_uniform (Tuple [0.03; 0.03; 0.03]%Q)
                          (Tuple [0.06; 0.06; 0.06]%Q), a 29%nat);
    (modify_pose None (Some (r 28%nat)) (Some (r 29%nat)), a 30%nat);
    (randomizer_scatter_2d plane false, a 31%nat);
    (distribution_uniform (Tuple [0.6; 0.0; 0.6]%Q)
                          (Tuple [1.0; 0.3; 1.0]%Q), a 32%nat);
    (randomizer_color (r 32%nat), a 33%nat);
    (ctx_exit (r 26%nat) None, a 34%nat);
    (distribution_uniform (Scalar 0) (Scalar 5), a 35%nat);
    (randomizer_instantiate [nth 0 CYLINDERS ""] (r 35%nat)
                            [("class", "cylinder")], a 36%nat);
    (ctx_enter (r 36%nat), a 37%nat);
    (distribution_uniform (Tuple [0; 0; 0]%Q) (Tuple [45; 45; 180]%Q), a 38%nat);
    (distribution_uniform (Tuple [0.04; 0.04; 0.03]%Q)
                          (Tuple [0.06; 0.06; 0.06]%Q), a 39%nat);
    (modify_pose None (Some (r 38%nat)) (Some (r 39%nat)), a 40%nat);
    (randomizer_scatter_2d plane false, a 41%nat);
    (distribution_uniform (Tuple [0.0; 0.0; 0.0]%Q)
                          (Tuple [0.3; 0.3; 0.3]%Q), a 42%nat);
    (randomizer_color (r 42%nat), a 43%nat);
    (ctx_exit (r 36%nat) None, a 44%nat) ].

Section ScriptFacts.
Context {St : Type} (respond : api_call -> St -> reply * St).
Abbreviation world := (@world St).
Abbreviation M := (@M St).
Implicit Types (w : world) (t : list event) (c : api_call).

Lemma call_eq c w :
  call respond c w = (outcome_of_reply (fst (respond c (backend w))),
              World (snd (respond c (backend w)))
                    (trace w ++ [(c, fst (respond c (backend w)))])).
Proof.
  unfold call. destruct (respond c (backend w)) as [[v|f] s]; reflexivity.
Qed.

Lemma call_normal c w v w' :
  call respond c w = (Normal v, w') ->
  respond c (backend w) = (Ret v, backend w') /\ trace w' = trace w ++ [(c, Ret v)].
Proof.
  rewrite call_eq. destruct (respond c (backend w)) as [[v'|f] s]; simpl; intros H;
    inversion H; subst; auto.
Qed.

Lemma bind_normal {A B} (m : M A) (k : A -> M B) w b w' :
  bind m k w = (Normal b, w') ->
  exists a w1, m w = (Normal a, w1) /\ k a w1 = (Normal b, w').
Proof.
  unfold bind. destruct (m w) as [[a|f|] w1]; intros H; try discriminate; eauto.
Qed.

(** *** [emits] *)

Lemma emits_ret {A} P (a : A) : emits P (ret (St:=St) a).
Proof. intros w. exists []. simpl. rewrite app_nil_r. auto. Qed.

Lemma emits_call P c : (forall r, P (c, r) = true) -> emits P (call respond c).
Proof.
  intros H w. rewrite call_eq. simpl. eexists; split; [reflexivity|].
  simpl. rewrite H. reflexivity.
Qed.

Lemma emits_bind {A B} P (m : M A) (k : A -> M B) :
  emits P m -> (forall a, emits P (k a)) -> emits P (bind m k).
Proof.
  intros Hm Hk w. unfold bind. destruct (Hm w) as (t1 & E1 & F1).
  destruct (m w) as [[a|f|] w1]; simpl in *; eauto.
  destruct (Hk a w1) as (t2 & E2 & F2). exists (t1 ++ t2).
  rewrite E2, E1, app_assoc, forallb_app, F1, F2. auto.
Qed.

Lemma emits_if {A} P (b : bool) (m1 m2 : M A) :
  emits P m1 -> emits P m2 -> emits P (if b then m1 else m2).
Proof. destruct b; auto. Qed.

Lemma emits_for_in {A} P (l : list A) (body : A -> M unit) :
  (forall i, emits P (body i)) -> emits P (for_in l body).
Proof.
  intros H. induction l; simpl; [apply emits_ret | apply emits_bind; auto].
Qed.

Lemma emits_while P fuel (cond : M bool) (body : M unit) :
  emits P cond -> emits P body -> emits P (while fuel cond body).
Proof.
  intros Hc Hb. induction fuel; simpl.
  - intros w. exists []. simpl. rewrite app_nil_r. auto.
  - apply emits_bind; [assumption|]. intros b. apply emits_if.
    + apply emits_bind; auto.
    + apply emits_ret.
Qed.

Lemma emits_raise {A} P (f : fault) : emits P (raise (St:=St) (A:=A) f).
Proof. intros w. exists []. simpl. rewrite app_nil_r. auto. Qed.

Lemma emits_method P obj name c :
  (forall r, P (c, r) = true) -> emits P (method respond obj name c).
Proof.
  intros Hc. destruct obj; simpl; [apply emits_raise ..|apply emits_call, Hc].
Qed.

Lemma emits_with_object P ctx (body : M unit) :
  (forall r, P (ctx_enter ctx, r) = true) ->
  (forall e r, P (ctx_exit ctx e, r) = true) ->
  emits P body -> emits P (with_object respond ctx body).
Proof.
  intros He Hx Hb w. unfold with_object, bind. rewrite call_eq.
  destruct (respond (ctx_enter ctx) (backend w)) as [[v|f] s] eqn:E; simpl.
  2:{ eexists; split; [reflexivity|]. simpl. rewrite He. reflexivity. }
  match goal with |- context [body ?w1] => destruct (Hb w1) as (t1 & E1 & F1);
    destruct (body w1) as [[[]|f|] w2] end; simpl in *.
  - rewrite call_eq.
    destruct (respond (ctx_exit ctx None) (backend w2)) as [[v'|f'] s']; simpl;
      rewrite E1, <- !app_assoc; (eexists; split; [reflexivity|]);
      simpl; rewrite forallb_app, F1; simpl; rewrite He, Hx; reflexivity.
  - rewrite call_eq.
    destruct (respond (ctx_exit ctx (Some f)) (backend w2)) as [[v'|f'] s']; simpl;
      [destruct (truthy v')|]; simpl;
      rewrite E1, <- !app_assoc; (eexists; split; [reflexivity|]);
      simpl; rewrite forallb_app, F1; simpl; rewrite He, Hx; reflexivity.
  - rewrite E1, <- !app_assoc. eexists; split; [reflexivity|].
    simpl. rewrite F1, He. reflexivity.
Qed.

Lemma emits_with P ctx (body : M unit) :
  (forall r, P (ctx_enter ctx, r) = true) ->
  (forall e r, P (ctx_exit ctx e, r) = true) ->
  emits P body -> emits P (with_ respond ctx body).
Proof.
  intros He Hx Hb. destruct ctx; simpl;
    [apply emits_raise ..|apply emits_with_object; assumption].
Qed.

Lemma emits_try P (body : M unit) handler (final : M unit) :
  emits P body -> (forall f, emits P (handler f)) -> emits P final ->
  emits P (try_except_finally body handler final).
Proof.
  intros Hb Hh Hf w. unfold try_except_finally.
  destruct (Hb w) as (t1 & E1 & F1). destruct (body w) as [[[]|f|] w1]; simpl in *.
  - destruct (Hf w1) as (t2 & E2 & F2). exists (t1 ++ t2).
    rewrite E2, E1, app_assoc, forallb_app, F1, F2. auto.
  - destruct (is_Exception f).
    + destruct (Hh f w1) as (t2 & E2 & F2).
      destruct (handler f w1) as [[[]|g|] w2]; simpl in *.
      * destruct (Hf w2) as (t3 & E3 & F3). exists (t1 ++ t2 ++ t3).
        rewrite E3, E2, E1, !forallb_app, F1, F2, F3, <- !app_assoc. auto.
      * destruct (Hf w2) as (t3 & E3 & F3). exists (t1 ++ t2 ++ t3).
        destruct (final w2) as [[[]|h|] w3]; simpl in *;
          rewrite E3, E2, E1, !forallb_app, F1, F2, F3, <- !app_assoc; auto.
      * exists (t1 ++ t2). rewrite E2, E1, forallb_app, F1, F2, app_assoc. auto.
    + destruct (Hf w1) as (t3 & E3 & F3). exists (t1 ++ t3).
      destruct (final w1) as [[[]|h|] w3]; simpl in *;
        rewrite E3, E1, !forallb_app, F1, F3, <- !app_assoc; auto.
  - eauto.
Qed.


(** *** Faultless runs, call by call *)

Lemma faultless_run_ret {A} (a : A) w (Q : outcome A -> list event -> Prop) :
  Q (Normal a) [] -> faultless_run (ret a) w Q.
Proof. intros H. exists []. simpl. rewrite app_nil_r. auto. Qed.

Lemma faultless_run_pair {A} (a : A) w (Q : outcome A -> list event -> Prop) :
  Q (Normal a) [] -> faultless_run (pair (Normal a)) w Q.
Proof. apply faultless_run_ret. Qed.

Lemma faultless_run_call {A} c (k : pyval -> M A) w Q :
  (forall v s, respond c (backend w) = (Ret v, s) ->
     faultless_run (k v) (World s (trace w ++ [(c, Ret v)]))
                   (fun o t => Q o ((c, Ret v) :: t))) ->
  faultless_run (bind (call respond c) k) w Q.
Proof.
  intros H. unfold faultless_run, bind. rewrite call_eq.
  destruct (respond c (backend w)) as [[v|f] s] eqn:Er; simpl.
  - destruct (H v s eq_refl) as (t & Et & Ht). exists ((c, Ret v) :: t).
    rewrite Et. simpl. rewrite <- app_assoc. auto.
  - eexists; split; [reflexivity|]. discriminate.
Qed.

Lemma faultless_run_assoc {A B C} (m : M A) (k : A -> M B) (h : B -> M C) w Q :
  faultless_run (bind m (fun a => bind (k a) h)) w Q ->
  faultless_run (bind (bind m k) h) w Q.
Proof.
  unfold faultless_run, bind. destruct (m w) as [[a|f|] w1]; auto.
Qed.

Lemma faultless_run_ret_bind {A B} (a : A) (k : A -> M B) w Q :
  faultless_run (k a) w Q -> faultless_run (bind (ret a) k) w Q.
Proof. auto. Qed.

Lemma faultless_run_last {A} (m : M A) w Q :
  faultless_run (bind m (fun a => ret a)) w Q -> faultless_run m w Q.
Proof.
  unfold faultless_run, bind. destruct (m w) as [[a|f|] w1]; auto.
Qed.

(** *** The poll loops *)

Lemma while_started fuel w w' :
  while fuel (bind (call respond orchestrator_get_is_started)
                   (fun v => ret (negb (truthy v))))
             (bind (call respond app_update) (fun _ => ret tt)) w = (Normal tt, w') ->
  exists t, trace w' = trace w ++ t /\ started_phase t.
Proof.
  revert w. induction fuel as [|fuel IH]; intros w H; simpl in H; [discriminate|].
  apply bind_normal in H as (b & w1 & H1 & H).
  apply bind_normal in H1 as (v & w0 & Hc & Hr). inversion Hr; subst; clear Hr.
  apply call_normal in Hc as [_ E1].
  destruct (truthy v) eqn:Tv; simpl in H.
  - inversion H; subst. eexists; split; [eassumption|]. constructor; assumption.
  - apply bind_normal in H as ([] & w2 & H2 & H).
    apply bind_normal in H2 as (u & w3 & Hu & Hr). inversion Hr; subst; clear Hr.
    apply call_normal in Hu as [_ E2].
    apply IH in H as (t & Et & Ht).
    exists ((orchestrator_get_is_started, Ret v) :: (app_update, Ret u) :: t).
    split; [|constructor; assumption].
    rewrite Et, E2, E1, <- !app_assoc. reflexivity.
Qed.

Lemma while_running fuel w w' :
  while fuel (bind (call respond orchestrator_get_is_started)
                   (fun v => ret (truthy v)))
             (bind (call respond app_update) (fun _ => ret tt)) w = (Normal tt, w') ->
  exists t, trace w' = trace w ++ t /\ running_phase t.
Proof.
  revert w. induction fuel as [|fuel IH]; intros w H; simpl in H; [discriminate|].
  apply bind_normal in H as (b & w1 & H1 & H).
  apply bind_normal in H1 as (v & w0 & Hc & Hr). inversion Hr; subst; clear Hr.
  apply call_normal in Hc as [_ E1].
  destruct (truthy v) eqn:Tv; simpl in H.
  - apply bind_normal in H as ([] & w2 & H2 & H).
    apply bind_normal in H2 as (u & w3 & Hu & Hr). inversion Hr; subst; clear Hr.
    apply call_normal in Hu as [_ E2].
    apply IH in H as (t & Et & Ht).
    exists ((orchestrator_get_is_started, Ret v) :: (app_update, Ret u) :: t).
    split; [|constructor; assumption].
    rewrite Et, E2, E1, <- !app_assoc. reflexivity.
  - inversion H; subst. eexists; split; [eassumption|]. constructor; assumption.
Qed.

Lemma run_orchestrator_trace fuel w w' :
  run_orchestrator respond fuel w = (Normal tt, w') ->
  exists r0 t1 t2 r1 r2,
    trace w' = trace w ++ (orchestrator_run, Ret r0) :: t1 ++ t2
                 ++ [(BackendDispatch_wait_until_done, Ret r1);
                     (orchestrator_stop, Ret r2)]
    /\ started_phase t1 /\ running_phase t2.
Proof.
  unfold run_orchestrator. intros H.
  apply bind_normal in H as (r0 & w1 & H0 & H). apply call_normal in H0 as [_ E0].
  apply bind_normal in H as ([] & w2 & H1 & H). apply while_started in H1 as (t1 & E1 & P1).
  apply bind_normal in H as ([] & w3 & H2 & H). apply while_running in H2 as (t2 & E2 & P2).
  apply bind_normal in H as (r1 & w4 & H3 & H). apply call_normal in H3 as [_ E3].
  apply bind_normal in H as (r2 & w5 & H4 & H). apply call_normal in H4 as [_ E4].
  inversion H; subst. exists r0, t1, t2, r1, r2. split; [|auto].
  rewrite E4, E3, E2, E1, E0, <- !app_assoc. reflexivity.
Qed.

Lemma started_phase_quiet t : started_phase t -> forallb before_stopped t = true.
Proof. induction 1; simpl; auto. Qed.

Lemma running_phase_last t :
  running_phase t ->
  exists t0 v, t = t0 ++ [(orchestrator_get_is_started, Ret v)]
               /\ truthy v = false /\ forallb before_stopped t0 = true.
Proof.
  induction 1 as [v Hv|v u t Hv _ (t0 & v' & -> & Hv' & Hq)].
  - exists [], v. auto.
  - exists ((orchestrator_get_is_started, Ret v) :: (app_update, Ret u) :: t0), v'. auto.
Qed.

(** One tick per poll that does not leave the loop. *)
Lemma started_phase_ticks t :
  started_phase t ->
  length (List.filter is_poll t) = S (length (List.filter is_update t)).
Proof. induction 1; simpl; auto. Qed.

Lemma running_phase_ticks t :
  running_phase t ->
  length (List.filter is_poll t) = S (length (List.filter is_update t)).
Proof. induction 1; simpl; auto. Qed.

End ScriptFacts.

Ltac emits_tac :=
  cbv zeta;
  repeat first
    [ apply emits_ret
    | apply emits_call; intros; reflexivity
    | apply emits_method; intros; reflexivity
    | apply emits_with; [intros; reflexivity | intros; reflexivity | ]
    | apply emits_try; [ | intros | ]
    | apply emits_for_in; intros
    | apply emits_while
    | apply emits_if
    | apply emits_bind; [|intros] ].


Section ScriptTheorems.
Context {St : Type} (respond : api_call -> St -> reply * St).
Variable args : cli_args.
Variable script_dir : string.
Abbreviation world := (@world St).
Implicit Types (w : world) (t : list event) (c : api_call).

Lemma ends_in_bind {A} P Q (m : @M St A) (k : A -> @M St unit) :
  emits P m -> (forall a, ends_in (k a) P Q) -> ends_in (bind m k) P Q.
Proof.
  intros Hm Hk w w' H. apply bind_normal in H as (a & w1 & H1 & H).
  destruct (Hm w) as (t1 & E1 & F1). rewrite H1 in E1. simpl in E1.
  apply Hk in H as (t & s & E & F & HQ). exists (t1 ++ t), s.
  rewrite E, E1, forallb_app, F1, F, <- !app_assoc. auto.
Qed.

End ScriptTheorems.

Section MainFacts.
Context {St : Type} (respond : api_call -> St -> reply * St).
Variable args : cli_args.
Variable script_dir : string.
Implicit Types (w : @world St) (t : list event) (c : api_call).

Lemma main_never_closes fuel :
  emits (fun e => negb (is_close e)) (main respond args script_dir fuel).
Proof. unfold main, run_orchestrator, randomization_graph, for_range. emits_tac. Qed.

Lemma handler_never_closes (e : fault) :
  emits (fun e => negb (is_close e))
    (bind (call respond (carb_log_error ("Exception: " +:+ str_of_fault e)))
       (fun _ => bind (call respond traceback_print_exc) (fun _ => ret tt))).
Proof. emits_tac. Qed.

(** [try ... finally: c]: on every path that ends, [c] is the last call. *)
Lemma try_finally_call P (body : @M St unit) handler c w o w' :
  emits P body -> (forall f, emits P (handler f)) ->
  try_except_finally body handler (bind (call respond c) (fun _ => ret tt)) w
    = (o, w') ->
  o <> Diverged ->
  exists t r, trace w' = trace w ++ t ++ [(c, r)] /\ forallb P t = true.
Proof.
  intros Hb Hh. unfold try_except_finally, bind.
  destruct (Hb w) as (t1 & E1 & F1). destruct (body w) as [[[]|f|] w1]; simpl in *.
  - rewrite call_eq. intros H _.
    exists t1, (fst (respond c (backend w1))). split; [|assumption].
    destruct (fst (respond c (backend w1))); inversion H; subst; simpl;
      rewrite E1, <- app_assoc; reflexivity.
  - destruct (is_Exception f).
    + destruct (Hh f w1) as (t2 & E2 & F2).
      destruct (handler f w1) as [[[]|g|] w2]; simpl in *.
      * rewrite call_eq. intros H _.
        exists (t1 ++ t2), (fst (respond c (backend w2))).
        rewrite forallb_app, F1, F2. split; [|reflexivity].
        destruct (fst (respond c (backend w2))); inversion H; subst; simpl;
          rewrite E2, E1, <- !app_assoc; reflexivity.
      * rewrite call_eq. intros H _.
        exists (t1 ++ t2), (fst (respond c (backend w2))).
        rewrite forallb_app, F1, F2. split; [|reflexivity].
        destruct (fst (respond c (backend w2))); inversion H; subst; simpl;
          rewrite E2, E1, <- !app_assoc; reflexivity.
      * intros H Hd. inversion H; subst. congruence.
    + rewrite call_eq. intros H _.
      exists t1, (fst (respond c (backend w1))). split; [|assumption].
      destruct (fst (respond c (backend w1))); inversion H; subst; simpl;
        rewrite E1, <- app_assoc; reflexivity.
  - intros H Hd. inversion H; subst. congruence.
Qed.

(** The end of [main]: the last poll, the drain barrier, the stop command
    and one tick. *)
Definition stopped_phase (s : list event) : Prop :=
  exists v r1 r2 r3,
    s = [(orchestrator_get_is_started, Ret v);
         (BackendDispatch_wait_until_done, Ret r1);
         (orchestrator_stop, Ret r2);
         (app_update, Ret r3)]
    /\ truthy v = false.

Lemma orchestrator_tail fuel :
  ends_in (bind (run_orchestrator respond fuel)
             (fun _ => bind (call respond app_update) (fun _ => ret tt)))
          before_stopped stopped_phase.
Proof.
  intros w w' H.
  apply bind_normal in H as ([] & w1 & H1 & H).
  apply run_orchestrator_trace in H1 as (r0 & t1 & t2 & r1 & r2 & E1 & P1 & P2).
  apply bind_normal in H as (r3 & w2 & H2 & H). apply call_normal in H2 as [_ E2].
  inversion H; subst; clear H.
  apply running_phase_last in P2 as (t0 & v & -> & Hv & Hq).
  exists ((orchestrator_run, Ret r0) :: t1 ++ t0),
         [(orchestrator_get_is_started, Ret v);
          (BackendDispatch_wait_until_done, Ret r1);
          (orchestrator_stop, Ret r2); (app_update, Ret r3)].
  split; [|split].
  - rewrite E2, E1, <- !app_assoc. simpl. rewrite <- !app_assoc. reflexivity.
  - simpl. rewrite forallb_app, (started_phase_quiet _ P1), Hq. reflexivity.
  - exists v, r1, r2, r3. auto.
Qed.

Lemma main_tail fuel :
  ends_in (main respond args script_dir fuel) before_stopped stopped_phase.
Proof.
  unfold main, for_range. cbv zeta.
  repeat (apply ends_in_bind; [solve [unfold randomization_graph; emits_tac]|intros]).
  apply orchestrator_tail.
Qed.

End MainFacts.

(** ** The frame run of the reference backend, as functions of the frame count *)

Section RefRun.
Variable stage_prims : list string.
Variable latency : nat.
Variable retry_bound : nat.
Variable entropy : nat -> N -> nat -> nat -> Q.

Abbreviation R := (Ref.respond stage_prims latency retry_bound entropy).
Abbreviation tick := (Ref.tick retry_bound entropy).

(** [k] ticks of the clock. *)
Fixpoint ticks (k : nat) (s : Ref.state) : Ref.state :=
  match k with
  | O => s
  | S k' => ticks k' (tick s)
  end.

(** The scene after the first [k] frames. *)
Fixpoint scene_after (rules : list Ref.rule) (sc : list Ref.entity) (k : nat)
    : list Ref.entity :=
  match k with
  | O => sc
  | S k' => Ref.execute_frame retry_bound entropy k' rules (scene_after rules sc k')
  end.

(** What the journal gains in frame [i]. *)
Definition frame_journal (rules : list Ref.rule) (products : list N) (i : nat)
    : list Ref.jentry :=
  map (fun r => Ref.RuleRun i (Ref.r_id r)) rules ++ map (Ref.WriteIssued i) products.

(** The records issued in frame [i]. *)
Definition frame_records (rules : list Ref.rule) (sc : list Ref.entity)
    (products : list N) (i : nat) : list Ref.record :=
  map (fun p => Ref.Rec i p (scene_after rules sc (S i))) products.

(** The state [k] frames after [s]. *)
Definition after_frames (k : nat) (s : Ref.state) : Ref.state :=
  {| Ref.objects := Ref.objects s;
     Ref.scopes := Ref.scopes s; Ref.registry := Ref.registry s;
     Ref.frames := Ref.frames s;
     Ref.scene := scene_after (Ref.registry s) (Ref.scene s) k;
     Ref.attached := Ref.attached s;
     Ref.run := Ref.Running k;
     Ref.pending :=
       Ref.pending s
       ++ flat_map (frame_records (Ref.registry s) (Ref.scene s) (Ref.attached s))
                   (seq 0 k);
     Ref.written := Ref.written s;
     Ref.journal :=
       Ref.journal s
       ++ flat_map (frame_journal (Ref.registry s) (Ref.attached s)) (seq 0 k);
     Ref.app_open := Ref.app_open s |}.

Ltac proj_simpl :=
  cbn [Ref.run Ref.frames Ref.registry Ref.scene Ref.attached Ref.pending
       Ref.written Ref.journal Ref.objects Ref.scopes
       Ref.app_open] in *.

Lemma ticks_succ k s : ticks (S k) s = tick (ticks k s).
Proof. revert s. induction k; intros s; simpl in *; auto. Qed.

Lemma ticks_add j k s : ticks (j + k) s = ticks k (ticks j s).
Proof. revert s. induction j; intros s; simpl; auto. Qed.

Lemma state_eta (s : Ref.state) :
  s = {| Ref.objects := Ref.objects s;
         Ref.scopes := Ref.scopes s; Ref.registry := Ref.registry s;
         Ref.frames := Ref.frames s; Ref.scene := Ref.scene s;
         Ref.attached := Ref.attached s; Ref.run := Ref.run s;
         Ref.pending := Ref.pending s; Ref.written := Ref.written s;
         Ref.journal := Ref.journal s; Ref.app_open := Ref.app_open s |}.
Proof. destruct s; reflexivity. Qed.

(** While frames remain, [k] ticks execute [k] frames. *)
Lemma ticks_frames k s :
  Ref.run s = Ref.Running 0 -> (k <= Z.to_nat (Ref.frames s))%nat ->
  ticks k s = after_frames k s.
Proof.
  intros Hr. induction k as [|k IH]; intros Hk.
  - simpl. unfold after_frames. simpl. rewrite !app_nil_r, <- Hr. apply state_eta.
  - rewrite ticks_succ, IH by lia. unfold Ref.tick, after_frames. proj_simpl.
    destruct (Z.ltb_spec (Z.of_nat k) (Ref.frames s)); [|lia].
    unfold Ref.render_frame. proj_simpl.
    rewrite !seq_S, !flat_map_app. cbn [flat_map Nat.add].
    unfold frame_records at 2. unfold frame_journal at 2. cbn [scene_after].
    rewrite !app_nil_r, <- !app_assoc. reflexivity.
Qed.

(** The first poll loop: [d + 1] ticks after the run request. *)
Lemma started_loop d : forall fuel s t,
  Ref.run s = Ref.Started d -> (d + 2 <= fuel)%nat ->
  exists t',
    while fuel
      (bind (call R orchestrator_get_is_started)
            (fun v => ret (negb (truthy v))))
      (bind (call R app_update) (fun _ => ret tt)) (World s t)
    = (Normal tt, World (ticks (S d) s) t')
    /\ Ref.run (ticks (S d) s) = Ref.Running 0.
Proof.
  induction d as [|d IH]; intros fuel s t Hr Hf.
  - destruct fuel as [|[|fuel]]; try lia. simpl.
    unfold bind, call, ret. simpl. rewrite Hr. simpl.
    unfold Ref.tick. rewrite Hr. simpl. eexists; split; reflexivity.
  - destruct fuel as [|fuel]; try lia.
    destruct (IH fuel (tick s) (t ++ [(orchestrator_get_is_started, Ret (VBool false))]
                                 ++ [(app_update, Ret VNone)])) as (t' & E & Hr').
    + unfold Ref.tick. rewrite Hr. reflexivity.
    + lia.
    + exists t'. split; [|exact Hr'].
      change (ticks (S (S d)) s) with (ticks (S d) (tick s)). rewrite <- E.
      cbn [while]. unfold bind at 1 2. unfold call at 1.
      cbn [backend trace Ref.respond]. rewrite Hr.
      cbn [truthy negb ret]. unfold bind at 1 2. unfold call at 1.
      cbn [backend trace Ref.respond]. rewrite <- app_assoc. reflexivity.
Qed.

(** The second poll loop: one frame per tick while frames remain, then one
    more tick to leave the Running state. *)
Lemma running_loop m : forall fuel s t i,
  Ref.run s = Ref.Running i ->
  m = Z.to_nat (Ref.frames s - Z.of_nat i) ->
  (m + 2 <= fuel)%nat ->
  exists t',
    while fuel
      (bind (call R orchestrator_get_is_started) (fun v => ret (truthy v)))
      (bind (call R app_update) (fun _ => ret tt)) (World s t)
    = (Normal tt, World (ticks (S m) s) t')
    /\ Ref.run (ticks (S m) s) = Ref.Stopped.
Proof.
  induction m as [|m IH]; intros fuel s t i Hr Hm Hf.
  - destruct fuel as [|[|fuel]]; try lia.
    cbn [while ticks]. unfold bind at 1 2. unfold call at 1.
    cbn [backend trace Ref.respond]. rewrite Hr.
    cbn [truthy ret]. unfold bind at 1 2. unfold call at 1.
    cbn [backend trace Ref.respond]. unfold bind at 1 2. unfold call at 1.
    cbn [backend trace Ref.respond]. unfold Ref.tick. rewrite Hr.
    destruct (Z.ltb_spec (Z.of_nat i) (Ref.frames s)); [lia|].
    cbn. eexists; split; reflexivity.
  - destruct fuel as [|fuel]; try lia.
    assert (Ht : tick s = Ref.render_frame retry_bound entropy i s).
    { unfold Ref.tick. rewrite Hr.
      destruct (Z.ltb_spec (Z.of_nat i) (Ref.frames s)); [reflexivity|lia]. }
    destruct (IH fuel (tick s)
                 (t ++ [(orchestrator_get_is_started, Ret (VBool true))]
                    ++ [(app_update, Ret VNone)]) (S i)) as (t' & E & Hr').
    + rewrite Ht. reflexivity.
    + rewrite Ht. cbn [Ref.render_frame Ref.frames]. lia.
    + lia.
    + exists t'. split; [|exact Hr'].
      change (ticks (S (S m)) s) with (ticks (S m) (tick s)). rewrite <- E.
      cbn [while]. unfold bind at 1 2. unfold call at 1.
      cbn [backend trace Ref.respond]. rewrite Hr.
      cbn [truthy ret]. unfold bind at 1 2. unfold call at 1.
      cbn [backend trace Ref.respond]. rewrite <- app_assoc. reflexivity.
Qed.

Lemma ticks_started d s :
  Ref.run s = Ref.Started d ->
  ticks (S d) s = Ref.set_run (Ref.Running 0) s.
Proof.
  revert s. induction d as [|d IH]; intros s Hr.
  - cbn [ticks]. unfold Ref.tick. rewrite Hr. reflexivity.
  - change (ticks (S (S d)) s) with (ticks (S d) (tick s)).
    unfold Ref.tick at 1. rewrite Hr. rewrite IH by reflexivity. reflexivity.
Qed.

Lemma tick_after_frames s :
  tick (after_frames (Z.to_nat (Ref.frames s)) s)
  = Ref.set_run Ref.Stopped (after_frames (Z.to_nat (Ref.frames s)) s).
Proof.
  unfold Ref.tick. cbn [Ref.run Ref.frames after_frames].
  destruct (Z.ltb_spec (Z.of_nat (Z.to_nat (Ref.frames s))) (Ref.frames s));
    [lia|reflexivity].
Qed.

(** The state in which [run_orchestrator] leaves the backend. *)
Definition orchestrated (s : Ref.state) : Ref.state :=
  Ref.stop (Ref.drain (Ref.set_run Ref.Stopped
    (after_frames (Z.to_nat (Ref.frames s)) (Ref.set_run (Ref.Running 0) s)))).

(** With enough fuel, [run_orchestrator] returns, after all frames. *)
Lemma run_orchestrator_ref fuel s t :
  Ref.run s = Ref.Idle ->
  (Nat.max latency (Z.to_nat (Ref.frames s)) + 2 <= fuel)%nat ->
  exists t',
    run_orchestrator R fuel (World s t) = (Normal tt, World (orchestrated s) t').
Proof.
  intros Hr Hf. unfold run_orchestrator.
  unfold bind at 1. unfold call at 1. cbn [backend trace Ref.respond]. rewrite Hr.
  set (s0 := Ref.set_run (Ref.Started latency) s).
  destruct (started_loop latency fuel s0
              (t ++ [(orchestrator_run, Ret VNone)])) as (t1 & E1 & R1);
    [reflexivity|lia|].
  unfold bind at 1. rewrite E1.
  rewrite ticks_started in * by reflexivity.
  set (s1 := Ref.set_run (Ref.Running 0) s0) in *.
  destruct (running_loop (Z.to_nat (Ref.frames s)) fuel s1 t1 0)
    as (t2 & E2 & R2); [reflexivity|cbn; f_equal; lia|lia|].
  unfold bind at 1. rewrite E2.
  rewrite ticks_succ in *. rewrite ticks_frames in * by (cbn; try lia; reflexivity).
  change (Z.to_nat (Ref.frames s)) with (Z.to_nat (Ref.frames s1)) in *.
  rewrite tick_after_frames in *.
  unfold bind at 1. unfold call at 1. cbn [backend trace Ref.respond].
  unfold bind at 1. unfold call at 1. cbn [backend trace Ref.respond ret].
  eexists. reflexivity.
Qed.

End RefRun.

(** ** The scene and the rules that [main] sets up on the reference backend *)

(** The rules under the frame trigger, as the reference backend holds them
    after [main] has registered them. *)
Definition main_registry : list Ref.rule :=
  [ Ref.Rule 7 (Ref.ByPattern "GroundPlane")
      (Ref.SetColor (Ref.Dist 6 (Scalar 0.15) (Scalar 0.5)));
    Ref.Rule 10 (Ref.ByPattern "DomeLight")
      (Ref.SetAttribute "color" (Ref.Dist 9 (Tuple [0.9; 0.9; 0.9]%Q) (Tuple [1; 1; 1]%Q)));
    Ref.Rule 12 (Ref.ByPattern "DomeLight")
      (Ref.SetAttribute "intensity" (Ref.Dist 11 (Scalar 600) (Scalar 1200)));
    Ref.Rule 15 (Ref.ByHandle 1)
      (Ref.SetPose (Some (Ref.Dist 13 (Tuple [1; 0; 1.77]%Q) (Tuple [1; 0; 1.83]%Q)))
                   (Some (Ref.Dist 14 (Tuple [0; -52; 0]%Q) (Tuple [0; -48; 0]%Q)))
                   None);
    Ref.Rule 18 (Ref.ByHandle 2)
      (Ref.SetPose (Some (Ref.Dist 16 (Tuple [0.57; -0.03; 1.095]%Q)
                               (Tuple [0.63; 0.03; 1.095]%Q)))
                   (Some (Ref.Dist 17 (Tuple [0; 0; -2]%Q) (Tuple [0; 0; 2]%Q)))
                   None);
    Ref.Rule 19 (Ref.ByHandle 3)
      (Ref.SetPose (Some (Ref.Dist 16 (Tuple [0.57; -0.03; 1.095]%Q)
                               (Tuple [0.63; 0.03; 1.095]%Q)))
                   (Some (Ref.Dist 17 (Tuple [0; 0; -2]%Q) (Tuple [0; 0; 2]%Q)))
                   None);
    Ref.Rule 21 (Ref.Instances 21)
      (Ref.Instantiate [nth 0 CUBES ""] (Ref.Dist 20 (Scalar 0) (Scalar 5))
                       [("class", "cube")]);
    Ref.Rule 24 (Ref.Instances 21)
      (Ref.SetPose None
                   (Some (Ref.Dist 22 (Tuple [0; 0; 0]%Q) (Tuple [45; 45; 180]%Q)))
                   (Some (Ref.Dist 23 (Tuple [0.03; 0.03; 0.03]%Q)
                               (Tuple [0.06; 0.06; 0.06]%Q))));
    Ref.Rule 25 (Ref.Instances 21) (Ref.Scatter2D 3 false);
    Ref.Rule 27 (Ref.Instances 21)
      (Ref.SetColor (Ref.Dist 26 (Tuple [0.6; 0.0; 0.6]%Q) (Tuple [1.0; 0.3; 1.0]%Q)));
    Ref.Rule 29 (Ref.Instances 29)
      (Ref.Instantiate [nth 0 CYLINDERS ""] (Ref.Dist 28 (Scalar 0) (Scalar 5))
                       [("class", "cylinder")]);
    Ref.Rule 32 (Ref.Instances 29)
      (Ref.SetPose None
                   (Some (Ref.Dist 30 (Tuple [0; 0; 0]%Q) (Tuple [45; 45; 180]%Q)))
                   (Some (Ref.Dist 31 (Tuple [0.04; 0.04; 0.03]%Q)
                               (Tuple [0.06; 0.06; 0.06]%Q))));
    Ref.Rule 33 (Ref.Instances 29) (Ref.Scatter2D 3 false);
    Ref.Rule 35 (Ref.Instances 29)
      (Ref.SetColor (Ref.Dist 34 (Tuple [0.0; 0.0; 0.0]%Q) (Tuple [0.3; 0.3; 0.3]%Q))) ].

(** Handles of the camera, the tray, the scatter surface, the two
    instantiation nodes and the render product. *)
Definition cam_h : N := 1.
Definition tray_h : N := 2.
Definition plane_h : N := 3.
Definition cubes_h : N := 21.
Definition cylinders_h : N := 29.
Definition product_h : N := 37.

Definition camera0 : Ref.entity :=
  Ref.Entity "/Replicator/Camera_Xform_1" (Ref.Created cam_h) []
    [("focal_length", Scalar 1.93); ("focus_distance", Scalar 0.8);
     ("horizontal_aperture", Scalar 3.896);
     ("clipping_range", Tuple [0.1; 1000000]%Q)].

Definition tray0 : Ref.entity :=
  Ref.Entity "/Replicator/Ref_Xform_2" (Ref.Created tray_h) [] [].

Definition plane0 : Ref.entity :=
  Ref.Entity "/Replicator/Plane_Xform_3" (Ref.Created plane_h) []
    [("scale", Tuple [0.35; 0.5; 1]%Q); ("position", Tuple [0.6; 0; 1.12]%Q);
     ("visible", Scalar 0)].

(** The composed scene: the prims of the stage, then camera, tray, plane. *)
Definition scene0 (stage_prims : list string) : list Ref.entity :=
  map (fun p => Ref.Entity p Ref.FromStage [] []) stage_prims
  ++ [camera0; tray0; plane0].

Lemma scene0_snoc stage_prims :
  scene0 stage_prims
  = ((map (fun p => Ref.Entity p Ref.FromStage [] []) stage_prims ++ [camera0])
       ++ [tray0]) ++ [plane0].
Proof. unfold scene0. rewrite <- !app_assoc. reflexivity. Qed.

(** The backend once the application is launched. *)
Definition booted : Ref.state := Ref.set_open true Ref.init.

Section RunLemmas.
Context {St : Type} (respond : api_call -> St -> reply * St).

Lemma run_call {A} c (k : pyval -> @M St A) s t v s' rhs :
  respond c s = (Ret v, s') ->
  k v (World s' (t ++ [(c, Ret v)])) = rhs ->
  bind (call respond c) k (World s t) = rhs.
Proof. unfold bind, call. simpl. intros -> H. exact H. Qed.

Lemma run_assoc {A B C} (m : @M St A) (k : A -> M B) (h : B -> M C) w rhs :
  bind m (fun a => bind (k a) h) w = rhs -> bind (bind m k) h w = rhs.
Proof. unfold bind. destruct (m w) as [[a|f|] w1]; auto. Qed.

Lemma run_ret_bind {A B} (a : A) (k : A -> @M St B) w rhs :
  k a w = rhs -> bind (ret a) k w = rhs.
Proof. auto. Qed.

Lemma run_with {A} h (body : @M St unit) (k : unit -> M A) w w2 rhs :
  bind (call respond (ctx_enter (VObj h))) (fun _ => body) w = (Normal tt, w2) ->
  bind (call respond (ctx_exit (VObj h) None)) (fun _ => k tt) w2 = rhs ->
  bind (with_ respond (VObj h) body) k w = rhs.
Proof.
  unfold with_, with_object, bind.
  destruct (call respond (ctx_enter (VObj h)) w) as [[v|f|] w1]; try discriminate.
  intros ->. destruct (call respond (ctx_exit (VObj h) None) w2) as [[v'|f|] w3]; auto.
Qed.

Lemma run_last {A} (m : @M St A) w rhs :
  bind m (fun a => ret a) w = rhs -> m w = rhs.
Proof. unfold bind, ret. destruct (m w) as [[a|f|] w1]; auto. Qed.

Lemma run_bind_normal {A B} (m : @M St A) (k : A -> M B) w a w1 rhs :
  m w = (Normal a, w1) -> k a w1 = rhs -> bind m k w = rhs.
Proof. unfold bind. intros ->. auto. Qed.

End RunLemmas.

(** Run the script against a backend by computation, one call at a time. *)
Ltac run_step :=
  lazymatch goal with
  | |- bind (with_ _ _ _) _ _ = _ => eapply run_with
  | |- bind (method ?R (VObj ?h) ?name ?c) _ _ = _ =>
    change (method R (VObj h) name c) with (call R c)
  | |- bind (call ?R ?c) ?k (World ?s ?t) = _ =>
    let x := eval vm_compute in (R c s) in
    lazymatch x with
    | (Ret ?v, ?s') =>
      refine (run_call R c k s t v s' _ (@eq_refl _ x <: R c s = x) _)
    end
  | |- bind (bind _ _) _ _ = _ => apply run_assoc
  | |- bind (ret _) _ _ = _ => apply run_ret_bind
  | |- bind (if ?b then _ else _) _ _ = _ =>
    let b' := eval vm_compute in b in change b with b'; cbv iota
  | |- ret _ _ = _ => reflexivity
  | |- with_ _ _ _ _ = _ => apply run_last
  end;
  cbv beta.

Section Setup.
Variable stage_prims : list string.
Variable latency : nat.
Variable retry_bound : nat.
Variable entropy : nat -> N -> nat -> nat -> Q.
Variable args : cli_args.
Variable script_dir : string.

(** What the warm-up loop of [main] adds to the trace. *)
Definition warmup_events (l : list nat) : list event :=
  flat_map (fun i =>
    (if (i mod 10 =? 0)%nat
     then [(print ["App update " +:+ pretty i +:+ ".."], Ret VNone)]
     else [])
    ++ [(app_update, Ret VNone)]) l.

(** Ticks before any run request leave the backend as it is. *)
Lemma warmup_idle l : forall s t,
  Ref.run s = Ref.Idle ->
  for_in l (fun i =>
    bind (if (i mod 10 =? 0)%nat
          then bind (call (Ref.respond stage_prims latency retry_bound entropy)
                          (print ["App update " +:+ pretty i +:+ ".."]))
                    (fun _ => ret tt)
          else ret tt)
         (fun _ => bind (call (Ref.respond stage_prims latency retry_bound entropy)
                              app_update)
                        (fun _ => ret tt))) (World s t)
  = (Normal tt, World s (t ++ warmup_events l)).
Proof.
  induction l as [|i l IH]; intros s t Hr; cbn [for_in warmup_events flat_map].
  - rewrite app_nil_r. reflexivity.
  - unfold bind at 1. unfold bind at 1.
    destruct (i mod 10 =? 0)%nat.
    + unfold bind at 1. unfold call at 1. cbn [backend trace Ref.respond ret].
      unfold bind at 1. unfold call at 1. cbn [backend trace Ref.respond ret].
      unfold Ref.tick. rewrite Hr. rewrite IH by assumption.
      rewrite <- !app_assoc. reflexivity.
    + cbn [ret]. unfold bind at 1. unfold call at 1.
      cbn [backend trace Ref.respond ret].
      unfold Ref.tick. rewrite Hr. rewrite IH by assumption.
      rewrite <- !app_assoc. reflexivity.
Qed.

Lemma main_setup_ref t0 :
  exists s1 t1,
    (forall fuel,
       main (Ref.respond stage_prims latency retry_bound entropy)
            args script_dir fuel (World booted t0)
       = bind (run_orchestrator (Ref.respond stage_prims latency retry_bound entropy) fuel)
              (fun _ => bind (call (Ref.respond stage_prims latency retry_bound entropy) app_update)
                             (fun _ => ret tt))
              (World s1 t1))
    /\ Ref.registry s1 = main_registry
    /\ Ref.scene s1 = scene0 stage_prims
    /\ Ref.run s1 = Ref.Idle
    /\ Ref.frames s1 = num_frames args
    /\ Ref.attached s1 = [product_h]
    /\ Ref.pending s1 = [] /\ Ref.written s1 = [] /\ Ref.journal s1 = [].
Proof.
  eexists; eexists. split.
  - intros fuel.
    lazy beta zeta delta [main for_range randomization_graph].
    do 3 run_step.
    eapply run_bind_normal; [apply warmup_idle; reflexivity|].
    repeat run_step.
    reflexivity.
  - rewrite scene0_snoc. repeat split; vm_compute; reflexivity.
Qed.

End Setup.

(** ** The whole of [main] on the reference backend *)

(** The process ended (it did not hang in a poll loop). *)
Definition terminated {A} (o : outcome A) : bool :=
  match o with Diverged => false | _ => true end.

(** A backend with injected faults: [bad c] is raised instead of serving [c]. *)
Definition failing {St} (bad : api_call -> option fault)
    (respond : api_call -> St -> reply * St) (c : api_call) (s : St)
    : reply * St :=
  match bad c with
  | Some f => (Raise f, s)
  | None => respond c s
  end.

(** The stage file cannot be opened. *)
Definition missing_stage (c : api_call) : option fault :=
  match c with
  | open_stage _ => Some (Exc "stage not found")
  | _ => None
  end.

(** The user interrupts the run while the stage is loading. *)
Definition interrupted (c : api_call) : option fault :=
  match c with
  | open_stage _ => Some KeyboardInterrupt
  | _ => None
  end.

(** Concrete inputs for examples: two frames, a stage with a ground plane
    and a dome light, every draw at one third. *)
Definition example_args : cli_args :=
  {| headless := true; height := 544; width := 960; num_frames := 2;
     data_dir := "/out" |}.

Definition example_backend : api_call -> Ref.state -> reply * Ref.state :=
  Ref.respond ["/World/GroundPlane"; "/World/DomeLight"] 1 3
              (fun _ _ _ _ => (1 # 3)%Q).

Section MainOnRef.
Variable stage_prims : list string.
Variable latency : nat.
Variable retry_bound : nat.
Variable entropy : nat -> N -> nat -> nat -> Q.
Variable args : cli_args.
Variable script_dir : string.

Lemma main_on_ref t0 fuel :
  (Nat.max latency (Z.to_nat (num_frames args)) + 2 <= fuel)%nat ->
  exists s t,
    main (Ref.respond stage_prims latency retry_bound entropy)
         args script_dir fuel (World booted t0) = (Normal tt, World s t)
    /\ Ref.journal s
       = flat_map (frame_journal main_registry [product_h])
                  (seq 0 (Z.to_nat (num_frames args)))
         ++ [Ref.Drained; Ref.StopIssued]
    /\ Ref.written s
       = flat_map (frame_records retry_bound entropy main_registry
                                 (scene0 stage_prims) [product_h])
                  (seq 0 (Z.to_nat (num_frames args)))
    /\ Ref.pending s = []
    /\ Ref.scene s
       = scene_after retry_bound entropy main_registry (scene0 stage_prims)
                     (Z.to_nat (num_frames args))
    /\ Ref.run s = Ref.Idle.
Proof.
  intros Hf.
  destruct (main_setup_ref stage_prims latency retry_bound entropy args
              script_dir t0)
    as (s1 & t1 & E & Hreg & Hsc & Hrun & Hfr & Hatt & Hp & Hw & Hj).
  destruct (run_orchestrator_ref stage_prims latency retry_bound entropy
              fuel s1 t1 Hrun) as [t2 E2]; [rewrite Hfr; exact Hf|].
  exists (orchestrated retry_bound entropy s1),
         (t2 ++ [(app_update, Ret VNone)]).
  split.
  - rewrite E. unfold bind at 1. rewrite E2. reflexivity.
  - unfold orchestrated, after_frames. cbn.
    rewrite Hreg, Hsc, Hfr, Hatt, Hp, Hw, Hj. cbn.
    rewrite <- !app_assoc. repeat split; reflexivity.
Qed.

End MainOnRef.

(** The last fault raised in a trace, if any. *)
Definition last_fault (t : list event) : option fault :=
  fold_left (fun acc e => match snd e with
                          | Raise f => Some f
                          | Ret _ => acc
                          end) t None.

Lemma bind_call_eq {St A} (respond : api_call -> St -> reply * St) c
    (k : pyval -> @M St A) (w : world) :
  bind (call respond c) k w
  = match fst (respond c (backend w)) with
    | Ret v => k v (World (snd (respond c (backend w))) (trace w ++ [(c, Ret v)]))
    | Raise f => (Raised f, World (snd (respond c (backend w)))
                                  (trace w ++ [(c, Raise f)]))
    end.
Proof.
  unfold bind. rewrite call_eq.
  destruct (respond c (backend w)) as [[v|f] s]; reflexivity.
Qed.

(** * The claims about the orchestrator and the [__main__] block *)

(** C1.  Whatever the backend, a run of [main] that returns ends with the
    last poll (answered "not started"), the drain barrier, the stop command
    and exactly one tick, in this order, and neither the barrier nor the stop
    command is called before; on the reference backend [main] does return
    when the poll loops are given enough fuel, and the journal of the
    backend shows the writes of all frames [0 .. N-1] before the barrier
    returns. *)
Theorem drain_stop_tick_after_all_frames :
  (forall St (respond : api_call -> St -> reply * St) args script_dir fuel
          (w w' : world),
      main respond args script_dir fuel w = (Normal tt, w') ->
      exists t v r1 r2 r3,
        trace w' = trace w ++ t
                     ++ [(orchestrator_get_is_started, Ret v);
                         (BackendDispatch_wait_until_done, Ret r1);
                         (orchestrator_stop, Ret r2);
                         (app_update, Ret r3)]
        /\ truthy v = false
        /\ forallb before_stopped t = true)
  /\ (forall stage_prims latency retry_bound entropy args script_dir t0 fuel,
      (Nat.max latency (Z.to_nat (num_frames args)) + 2 <= fuel)%nat ->
      exists s t,
        main (Ref.respond stage_prims latency retry_bound entropy)
             args script_dir fuel (World booted t0) = (Normal tt, World s t)
        /\ Ref.journal s
           = flat_map (fun i => map (fun r => Ref.RuleRun i (Ref.r_id r))
                                    main_registry
                                ++ [Ref.WriteIssued i product_h])
                      (seq 0 (Z.to_nat (num_frames args)))
             ++ [Ref.Drained; Ref.StopIssued]
        /\ length (Ref.written s) = Z.to_nat (num_frames args)
        /\ Ref.pending s = []).
Proof.
  split.
  - intros St respond args script_dir fuel w w' H.
    apply main_tail in H as (t & s & E & Hq & (v & r1 & r2 & r3 & -> & Hv)).
    exists t, v, r1, r2, r3. auto.
  - intros stage_prims latency retry_bound entropy args script_dir t0 fuel Hf.
    destruct (main_on_ref stage_prims latency retry_bound entropy args
                script_dir t0 fuel Hf) as (s & t & E & Hj & Hw & Hp & _).
    exists s, t. repeat split; try assumption.
    rewrite Hw. generalize (Z.to_nat (num_frames args)) as n. intros n.
    generalize 0%nat as k. induction n as [|n IH]; intros k; simpl; auto.
Qed.

(** A run of two frames on the reference backend. *)
Lemma drain_stop_tick_witness :
  exists t v r1 r2 r3,
    trace (snd (main example_backend example_args "/home/u" 5 (World booted [])))
    = [] ++ t ++ [(orchestrator_get_is_started, Ret v);
                  (BackendDispatch_wait_until_done, Ret r1);
                  (orchestrator_stop, Ret r2);
                  (app_update, Ret r3)]
    /\ truthy v = false
    /\ forallb before_stopped t = true.
Proof.
  apply (proj1 drain_stop_tick_after_all_frames _ example_backend example_args
               "/home/u" 5%nat (World booted [])).
  vm_compute. reflexivity.
Defined.

(** C2.  Whatever the backend, a call of [run_orchestrator] that returns
    has issued the run request, then polled [get_is_started] with one tick
    after every poll answered "not started" until a poll is answered
    "started", then polled the same signal with one tick after every poll
    answered "started" until a poll is answered "not started", and only then
    called the drain barrier and the stop command; on the reference backend
    the call returns, given enough fuel, after all frames of the run. *)
Theorem orchestrator_polls_started_then_running :
  (forall St (respond : api_call -> St -> reply * St) fuel (w w' : world),
      run_orchestrator respond fuel w = (Normal tt, w') ->
      exists r0 t1 t2 r1 r2,
        trace w' = trace w ++ (orchestrator_run, Ret r0) :: t1 ++ t2
                     ++ [(BackendDispatch_wait_until_done, Ret r1);
                         (orchestrator_stop, Ret r2)]
        /\ started_phase t1 /\ running_phase t2
        /\ length (List.filter is_poll t1) = S (length (List.filter is_update t1))
        /\ length (List.filter is_poll t2) = S (length (List.filter is_update t2)))
  /\ (forall stage_prims latency retry_bound entropy fuel s t,
      Ref.run s = Ref.Idle ->
      (Nat.max latency (Z.to_nat (Ref.frames s)) + 2 <= fuel)%nat ->
      exists t',
        run_orchestrator (Ref.respond stage_prims latency retry_bound entropy)
                         fuel (World s t)
        = (Normal tt,
           World (Ref.stop (Ref.drain (Ref.set_run Ref.Stopped
                    (after_frames retry_bound entropy (Z.to_nat (Ref.frames s))
                       (Ref.set_run (Ref.Running 0) s))))) t')).
Proof.
  split.
  - intros St respond fuel w w' H.
    apply run_orchestrator_trace in H as (r0 & t1 & t2 & r1 & r2 & E & P1 & P2).
    exists r0, t1, t2, r1, r2. repeat split; auto.
    + apply started_phase_ticks; assumption.
    + apply running_phase_ticks; assumption.
  - intros stage_prims latency retry_bound entropy fuel s t Hr Hf.
    apply run_orchestrator_ref; assumption.
Qed.

Lemma orchestrator_polls_witness :
  exists r0 t1 t2 r1 r2,
    trace (snd (run_orchestrator example_backend 5 (World booted [])))
    = [] ++ (orchestrator_run, Ret r0) :: t1 ++ t2
         ++ [(BackendDispatch_wait_until_done, Ret r1);
             (orchestrator_stop, Ret r2)]
    /\ started_phase t1 /\ running_phase t2
    /\ length (List.filter is_poll t1) = S (length (List.filter is_update t1))
    /\ length (List.filter is_poll t2) = S (length (List.filter is_update t2)).
Proof.
  apply (proj1 orchestrator_polls_started_then_running _ example_backend
               5%nat (World booted [])).
  vm_compute. reflexivity.
Defined.

(** C3 does not hold as stated: a fault of class [Exception] raised in
    [main] is caught by the [__main__] block, which logs it and ends
    normally.  Here the stage file is missing, and the exit code is 0. *)
Lemma exit_code_zero_after_fault :
  let r := script (failing missing_stage example_backend) example_args
                  "/home/u" 5 (World Ref.init []) in
  existsb (fun e => match e with
                    | (open_stage _, Raise (Exc _)) => true
                    | _ => false
                    end) (trace (snd r)) = true
  /\ exit_code (fst r) = Some (Exits 0).
Proof. vm_compute. split; reflexivity. Qed.

(** C3, amended.  How the process ends after the [__main__] block, on
    every path.  If one of the calls the block makes after [main] (logging,
    traceback, close) raises, the last fault raised goes to the top level and
    the process ends as the interpreter ends for it.  Otherwise the exit code
    is 0 if [main] returns, 0 as well if [main] raises a fault of class
    [Exception] (it is caught and logged, not raised again), and the end of
    the interpreter for the fault if [main] raises a fault of another class,
    which goes on after the close: for [SystemExit] the low eight bits of its
    code, which may be 0, for [KeyboardInterrupt] death by [SIGINT]. *)
Theorem exit_code_of_main_block St (respond : api_call -> St -> reply * St)
    args script_dir fuel (w w' : world) o t2 :
  main_block respond args script_dir fuel w = (o, w') ->
  trace w' = trace (snd (main respond args script_dir fuel w)) ++ t2 ->
  exit_code o
  = match last_fault t2 with
    | Some g => Some (uncaught_status g)
    | None =>
      match fst (main respond args script_dir fuel w) with
      | Normal _ => Some (Exits 0)
      | Raised f => Some (if is_Exception f then Exits 0 else uncaught_status f)
      | Diverged => None
      end
    end.
Proof.
  unfold main_block, try_except_finally.
  destruct (main respond args script_dir fuel w) as [[[]|f|] w1]; cbn [fst snd].
  - rewrite bind_call_eq.
    destruct (respond app_close (backend w1)) as [[v|g] s]; cbn [fst snd];
      intros H E; inversion H; subst; cbn [trace] in E;
      apply app_inv_head in E; subst t2; reflexivity.
  - destruct (is_Exception f) eqn:Ef.
    + rewrite bind_call_eq.
      destruct (respond (carb_log_error ("Exception: " +:+ str_of_fault f))
                        (backend w1)) as [[v|g] s1]; cbn [fst snd].
      * rewrite bind_call_eq. cbn [backend trace].
        destruct (respond traceback_print_exc s1) as [[v'|g] s2];
          cbn [fst snd ret]; rewrite bind_call_eq; cbn [backend trace];
          destruct (respond app_close s2) as [[v''|h] s3]; cbn [fst snd];
          intros H E; inversion H; subst; cbn [trace] in E;
          rewrite <- !app_assoc in E; apply app_inv_head in E; subst t2;
          reflexivity.
      * rewrite bind_call_eq. cbn [backend trace].
        destruct (respond app_close s1) as [[v''|h] s3]; cbn [fst snd];
          intros H E; inversion H; subst; cbn [trace] in E;
          rewrite <- !app_assoc in E; apply app_inv_head in E; subst t2;
          reflexivity.
    + rewrite bind_call_eq.
      destruct (respond app_close (backend w1)) as [[v|g] s]; cbn [fst snd];
        intros H E; inversion H; subst; cbn [trace] in E;
        apply app_inv_head in E; subst t2; reflexivity.
  - intros H E. inversion H; subst.
    rewrite <- (app_nil_r (trace w')) in E at 1. apply app_inv_head in E.
    subst t2. reflexivity.
Qed.

(** The missing stage, seen from the [__main__] block. *)
Lemma exit_code_of_main_block_witness :
  exit_code (fst (main_block (failing missing_stage example_backend)
                             example_args "/home/u" 5 (World booted [])))
  = Some (Exits 0).
Proof.
  exact (exit_code_of_main_block _ (failing missing_stage example_backend)
           example_args "/home/u" 5%nat (World booted []) _ _
           [(carb_log_error "Exception: stage not found", Ret VNone);
            (traceback_print_exc, Ret VNone); (app_close, Ret VNone)]
           ltac:(vm_compute; reflexivity) ltac:(vm_compute; reflexivity)).
Defined.

(** C4.  Whatever the backend and whatever [main] does (return, raise a
    fault of any class, with logging that may fail too), when the [__main__]
    block ends, [simulation_app.close()] has been called exactly once by the
    block, as its last call. *)
Theorem close_exactly_once St (respond : api_call -> St -> reply * St)
    args script_dir fuel (w w' : world) o :
  main_block respond args script_dir fuel w = (o, w') ->
  terminated o = true ->
  exists t r,
    trace w' = trace w ++ t ++ [(app_close, r)]
    /\ forallb (fun e => negb (is_close e)) t = true.
Proof.
  intros H Ht. unfold main_block in H.
  eapply try_finally_call in H.
  - exact H.
  - apply main_never_closes.
  - intros f. apply handler_never_closes.
  - intros ->. discriminate.
Qed.

(** The run with the missing stage closes the application once. *)
Lemma close_exactly_once_witness :
  exists t r,
    trace (snd (main_block (failing missing_stage example_backend)
                           example_args "/home/u" 5 (World booted [])))
    = [] ++ t ++ [(app_close, r)]
    /\ forallb (fun e => negb (is_close e)) t = true.
Proof.
  apply (close_exactly_once _ (failing missing_stage example_backend)
           example_args "/home/u" 5%nat (World booted []) _
           (fst (main_block (failing missing_stage example_backend)
                            example_args "/home/u" 5 (World booted [])))).
  - vm_compute. reflexivity.
  - vm_compute. reflexivity.
Defined.

(** ** Rules applied to a scene, part by part *)

(** The entity is an instance of one of the instantiation nodes in [nodes]. *)
Definition instance_of (nodes : list N) (e : Ref.entity) : Prop :=
  match Ref.e_origin e with
  | Ref.Instance n _ => In n nodes
  | _ => False
  end.

Definition from_stage (e : Ref.entity) : Prop := Ref.e_origin e = Ref.FromStage.

Section RuleLemmas.
Implicit Types (sel : Ref.selector) (e : Ref.entity) (l : list Ref.entity).

Lemma get_set_attr_eq name v e : Ref.get_attr name (Ref.set_attr name v e) = Some v.
Proof. unfold Ref.get_attr, Ref.set_attr. simpl. rewrite String.eqb_refl. reflexivity. Qed.

Lemma get_set_attr_ne name name' v e :
  name <> name' ->
  Ref.get_attr name' (Ref.set_attr name v e) = Ref.get_attr name' e.
Proof.
  intros Hne. unfold Ref.get_attr, Ref.set_attr. simpl.
  destruct (String.eqb_spec name name') as [->|_]; [contradiction|].
  f_equal. induction (Ref.e_attrs e) as [|[n x] l IH]; simpl; [reflexivity|].
  destruct (String.eqb_spec n name) as [->|Hn]; simpl.
  - destruct (String.eqb_spec name name'); [contradiction|]. exact IH.
  - destruct (String.eqb_spec n name'); [reflexivity|]. exact IH.
Qed.

Lemma update_targets_app sel g k l1 l2 :
  Ref.update_targets sel g k (l1 ++ l2)
  = Ref.update_targets sel g k l1
    ++ Ref.update_targets sel g (k + length (List.filter (Ref.selects sel) l1)) l2.
Proof.
  revert k. induction l1 as [|e l1 IH]; intros k; simpl.
  - rewrite Nat.add_0_r. reflexivity.
  - destruct (Ref.selects sel e); simpl; rewrite IH; [|reflexivity].
    rewrite Nat.add_succ_r. reflexivity.
Qed.

Lemma update_targets_none sel g k l :
  Forall (fun e => Ref.selects sel e = false) l ->
  Ref.update_targets sel g k l = l.
Proof.
  induction 1 as [|e l He _ IH]; simpl; [reflexivity|]. rewrite He, IH. reflexivity.
Qed.

Lemma update_targets_skip sel g k l1 l2 :
  Forall (fun e => Ref.selects sel e = false) l1 ->
  Ref.update_targets sel g k (l1 ++ l2) = l1 ++ Ref.update_targets sel g k l2.
Proof.
  induction 1 as [|e l He _ IH]; simpl; [reflexivity|]. rewrite He, IH. reflexivity.
Qed.

(** Ranks: the [j]-th selected entity gets [g j]. *)
Lemma update_targets_all sel g (f : nat -> Ref.entity) n : forall a,
  (forall j, Ref.selects sel (f j) = true) ->
  Ref.update_targets sel g a (map f (seq a n))
  = map (fun j => g j (f j)) (seq a n).
Proof.
  induction n as [|n IH]; intros a Hs; simpl; [reflexivity|].
  rewrite Hs, IH by assumption. reflexivity.
Qed.

Lemma update_targets_origin sel g k l :
  (forall j e, Ref.e_origin (g j e) = Ref.e_origin e) ->
  map Ref.e_origin (Ref.update_targets sel g k l) = map Ref.e_origin l.
Proof.
  intros Hg. revert k. induction l as [|e l IH]; intros k; simpl; [reflexivity|].
  destruct (Ref.selects sel e); simpl; rewrite ?Hg, IH; reflexivity.
Qed.

Lemma scatter_targets_skip sel place k placed l1 l2 :
  Forall (fun e => Ref.selects sel e = false) l1 ->
  Ref.scatter_targets sel place k placed (l1 ++ l2)
  = l1 ++ Ref.scatter_targets sel place k placed l2.
Proof.
  induction 1 as [|e l He _ IH]; simpl; [reflexivity|]. rewrite He, IH. reflexivity.
Qed.

Lemma scatter_targets_all sel place (h : nat -> Ref.entity -> Ref.entity)
    (f : nat -> Ref.entity) n : forall a placed,
  (forall j, Ref.selects sel (f j) = true) ->
  (forall j pl e, fst (place j pl e) = h j e) ->
  Ref.scatter_targets sel place a placed (map f (seq a n))
  = map (fun j => h j (f j)) (seq a n).
Proof.
  induction n as [|n IH]; intros a placed Hs Hp; simpl; [reflexivity|].
  rewrite Hs. pose proof (Hp a placed (f a)) as Hpa.
  destruct (place a placed (f a)) as [e' fp]. simpl in Hpa. subst e'.
  rewrite IH by assumption. reflexivity.
Qed.

Lemma find_skip (p : Ref.entity -> bool) l1 l2 :
  Forall (fun e => p e = false) l1 ->
  List.find p (l1 ++ l2) = List.find p l2.
Proof. induction 1 as [|e l He _ IH]; simpl; [reflexivity|]. rewrite He. exact IH. Qed.

Lemma filter_all (p : Ref.entity -> bool) l :
  Forall (fun e => p e = true) l -> List.filter p l = l.
Proof. induction 1 as [|e l He _ IH]; simpl; [reflexivity|]. rewrite He, IH. reflexivity. Qed.

Lemma filter_none (p : Ref.entity -> bool) l :
  Forall (fun e => p e = false) l -> List.filter p l = [].
Proof. induction 1 as [|e l He _ IH]; simpl; [reflexivity|]. rewrite He. exact IH. Qed.

(** Who selects whom. *)
Lemma stage_not_handle h e : from_stage e -> Ref.selects (Ref.ByHandle h) e = false.
Proof. unfold from_stage, Ref.selects. intros ->. reflexivity. Qed.

Lemma stage_not_instance n e : from_stage e -> Ref.selects (Ref.Instances n) e = false.
Proof. unfold from_stage, Ref.selects. intros ->. reflexivity. Qed.

Lemma instance_not_handle nodes h e :
  instance_of nodes e -> Ref.selects (Ref.ByHandle h) e = false.
Proof. unfold instance_of, Ref.selects. destruct (Ref.e_origin e); tauto. Qed.

Lemma instance_other_node nodes n e :
  instance_of nodes e -> ~ In n nodes -> Ref.selects (Ref.Instances n) e = false.
Proof.
  unfold instance_of, Ref.selects. destruct (Ref.e_origin e) as [| |n' k]; try tauto.
  intros Hin Hn. destruct (N.eqb_spec n n'); [subst; contradiction|reflexivity].
Qed.

Lemma instance_same_node n e :
  instance_of [n] e -> Ref.selects (Ref.Instances n) e = true.
Proof.
  unfold instance_of, Ref.selects. destruct (Ref.e_origin e) as [| |n' k]; try tauto.
  intros [->|[]]. apply N.eqb_refl.
Qed.

End RuleLemmas.

(** ** One object-class block of the frame trigger *)

Section Block.
Variable retry_bound : nat.
Variable entropy : nat -> N -> nat -> nat -> Q.

(** Where scatter placement puts the instance of rank [k]: a point of the
    surface with centre [c] and extent [sx] by [sy], from the two draws of
    the first attempt. *)
Definition scatter_position (frame : nat) (id : N) (c : Q * Q * Q) (sx sy : Q)
    (k : nat) : shape :=
  let '(cx, cy, cz) := c in
  Tuple [(cx + (entropy frame id k 0 - 1 / 2) * sx)%Q;
         (cy + (entropy frame id k 1 - 1 / 2) * sy)%Q; cz].

(** The instance of rank [k] of an object class at the end of frame [frame]:
    created with its label, then given rotation and scale, scattered on the
    surface, and coloured. *)
Definition instance_at (frame : nat) (node : N) (label : list (string * string))
    (dr ds : Ref.dist) (scatter_id : N) (dc : Ref.dist)
    (c : Q * Q * Q) (sx sy : Q) (k : nat) : Ref.entity :=
  Ref.set_attr "color" (Ref.draw entropy frame dc k)
    (Ref.set_attr "position" (scatter_position frame scatter_id c sx sy k)
       (Ref.set_attr "scale" (Ref.draw entropy frame ds k)
          (Ref.set_attr "rotation" (Ref.draw entropy frame dr k)
             (Ref.new_instance node label k)))).

Definition instances_at (frame : nat) (node : N) (label : list (string * string))
    (dsize dr ds : Ref.dist) (scatter_id : N) (dc : Ref.dist)
    (c : Q * Q * Q) (sx sy : Q) : list Ref.entity :=
  map (instance_at frame node label dr ds scatter_id dc c sx sy)
      (seq 0 (Ref.instance_count (Ref.draw entropy frame dsize 0))).

(** Without collision checking the first candidate is taken: no retry. *)
Lemma choose_place_unchecked retries attempt placed candidate :
  Ref.choose_place retries attempt false placed candidate
  = (candidate attempt, attempt).
Proof. destruct retries; reflexivity. Qed.

Lemma place_on_unchecked frame id c sx sy k placed e :
  fst (Ref.place_on retry_bound entropy frame id false c sx sy k placed e)
  = Ref.set_attr "position" (scatter_position frame id c sx sy k) e.
Proof.
  unfold Ref.place_on, scatter_position. destruct c as [[cx cy] cz].
  destruct (Ref.tuple3 (Ref.get_attr "scale" e)) as [[[w h] z]|];
    rewrite choose_place_unchecked; reflexivity.
Qed.

Lemma selects_set_attr sel name v e :
  Ref.selects sel (Ref.set_attr name v e) = Ref.selects sel e.
Proof. reflexivity. Qed.

Lemma filter_not_selected sel (l : list Ref.entity) :
  Forall (fun e => Ref.selects sel e = false)
         (List.filter (fun e => negb (Ref.selects sel e)) l).
Proof.
  induction l as [|e l IH]; simpl; [constructor|].
  destruct (Ref.selects sel e) eqn:E; simpl; [exact IH|].
  constructor; [exact E|exact IH].
Qed.

Lemma block_result frame node paths label dsize id1 dr ds id2 id3 dc
    (S : list Ref.entity) c t p (I : list Ref.entity) cpos sx sy sz :
  Forall from_stage S ->
  Ref.e_origin c = Ref.Created cam_h ->
  Ref.e_origin t = Ref.Created tray_h ->
  Ref.e_origin p = Ref.Created plane_h ->
  Ref.tuple3 (Ref.get_attr "position" p) = Some cpos ->
  Ref.tuple3 (Ref.get_attr "scale" p) = Some (sx, sy, sz) ->
  Ref.execute_frame retry_bound entropy frame
    [ Ref.Rule node (Ref.Instances node) (Ref.Instantiate paths dsize label);
      Ref.Rule id1 (Ref.Instances node) (Ref.SetPose None (Some dr) (Some ds));
      Ref.Rule id2 (Ref.Instances node) (Ref.Scatter2D plane_h false);
      Ref.Rule id3 (Ref.Instances node) (Ref.SetColor dc) ]
    (S ++ c :: t :: p :: I)
  = S ++ c :: t :: p
      :: List.filter (fun e => negb (Ref.selects (Ref.Instances node) e)) I
      ++ instances_at frame node label dsize dr ds id2 dc cpos sx sy.
Proof.
  intros HS Hc Ht Hp Hpos Hscale.
  assert (HSn : Forall (fun e => Ref.selects (Ref.Instances node) e = false) S).
  { eapply List.Forall_impl; [|exact HS]. intros e. apply stage_not_instance. }
  assert (HSh : Forall (fun e => Ref.selects (Ref.ByHandle plane_h) e = false) S).
  { eapply List.Forall_impl; [|exact HS]. intros e. apply stage_not_handle. }
  assert (Hcn : Ref.selects (Ref.Instances node) c = false)
    by (unfold Ref.selects; rewrite Hc; reflexivity).
  assert (Htn : Ref.selects (Ref.Instances node) t = false)
    by (unfold Ref.selects; rewrite Ht; reflexivity).
  assert (Hpn : Ref.selects (Ref.Instances node) p = false)
    by (unfold Ref.selects; rewrite Hp; reflexivity).
  assert (Hch : Ref.selects (Ref.ByHandle plane_h) c = false)
    by (unfold Ref.selects; rewrite Hc; reflexivity).
  assert (Hth : Ref.selects (Ref.ByHandle plane_h) t = false)
    by (unfold Ref.selects; rewrite Ht; reflexivity).
  assert (Hph : Ref.selects (Ref.ByHandle plane_h) p = true)
    by (unfold Ref.selects; rewrite Hp; reflexivity).
  pose proof (filter_not_selected (Ref.Instances node) I) as HI.
  set (I' := List.filter (fun e => negb (Ref.selects (Ref.Instances node) e)) I) in *.
  assert (Hnew : forall j, Ref.selects (Ref.Instances node)
                             (Ref.new_instance node label j) = true)
    by (intros j; unfold Ref.selects; simpl; apply N.eqb_refl).
  unfold Ref.execute_frame. cbn [fold_left].
  (* instantiation *)
  unfold Ref.apply_rule at 4. cbn [Ref.r_action Ref.r_target Ref.r_id].
  rewrite List.filter_app. cbn [List.filter]. rewrite Hcn, Htn, Hpn. cbn [negb].
  rewrite (filter_all _ S)
    by (eapply List.Forall_impl; [|exact HSn]; intros e ->; reflexivity).
  fold I'. rewrite <- app_assoc. cbn [app].
  (* rotation and scale *)
  unfold Ref.apply_rule at 3. cbn [Ref.r_action Ref.r_target Ref.r_id].
  rewrite update_targets_skip by exact HSn.
  cbn [Ref.update_targets]. rewrite Hcn, Htn, Hpn.
  rewrite update_targets_skip by exact HI.
  rewrite update_targets_all by exact Hnew.
  (* scatter placement *)
  unfold Ref.apply_rule at 2. cbn [Ref.r_action Ref.r_target Ref.r_id].
  rewrite find_skip by exact HSh. cbn [List.find]. rewrite Hch, Hth, Hph.
  rewrite Hpos, Hscale.
  rewrite scatter_targets_skip by exact HSn.
  cbn [Ref.scatter_targets]. rewrite Hcn, Htn, Hpn.
  rewrite scatter_targets_skip by exact HI.
  rewrite (scatter_targets_all _ _
             (fun j => Ref.set_attr "position"
                         (scatter_position frame id2 cpos sx sy j)))
    by (first [intros j; exact (Hnew j) | intros; apply place_on_unchecked]).
  (* colour *)
  unfold Ref.apply_rule. cbn [Ref.r_action Ref.r_target Ref.r_id].
  rewrite update_targets_skip by exact HSn.
  cbn [Ref.update_targets]. rewrite Hcn, Htn, Hpn.
  rewrite update_targets_skip by exact HI.
  rewrite update_targets_all by (intros j; exact (Hnew j)).
  reflexivity.
Qed.

End Block.

(** ** One frame of the rules of main *)

(** The distributions of main, by the place where the script creates them. *)
Definition ground_color : Ref.dist := Ref.Dist 6 (Scalar 0.15) (Scalar 0.5).
Definition light_color : Ref.dist :=
  Ref.Dist 9 (Tuple [0.9; 0.9; 0.9]%Q) (Tuple [1; 1; 1]%Q).
Definition light_intensity : Ref.dist := Ref.Dist 11 (Scalar 600) (Scalar 1200).
Definition camera_position : Ref.dist :=
  Ref.Dist 13 (Tuple [1; 0; 1.77]%Q) (Tuple [1; 0; 1.83]%Q).
Definition camera_rotation : Ref.dist :=
  Ref.Dist 14 (Tuple [0; -52; 0]%Q) (Tuple [0; -48; 0]%Q).
Definition random_position : Ref.dist :=
  Ref.Dist 16 (Tuple [0.57; -0.03; 1.095]%Q) (Tuple [0.63; 0.03; 1.095]%Q).
Definition random_rotation : Ref.dist :=
  Ref.Dist 17 (Tuple [0; 0; -2]%Q) (Tuple [0; 0; 2]%Q).
Definition cube_size : Ref.dist := Ref.Dist 20 (Scalar 0) (Scalar 5).
Definition cube_rotation : Ref.dist :=
  Ref.Dist 22 (Tuple [0; 0; 0]%Q) (Tuple [45; 45; 180]%Q).
Definition cube_scale : Ref.dist :=
  Ref.Dist 23 (Tuple [0.03; 0.03; 0.03]%Q) (Tuple [0.06; 0.06; 0.06]%Q).
Definition cube_color : Ref.dist :=
  Ref.Dist 26 (Tuple [0.6; 0.0; 0.6]%Q) (Tuple [1.0; 0.3; 1.0]%Q).
Definition cylinder_size : Ref.dist := Ref.Dist 28 (Scalar 0) (Scalar 5).
Definition cylinder_rotation : Ref.dist :=
  Ref.Dist 30 (Tuple [0; 0; 0]%Q) (Tuple [45; 45; 180]%Q).
Definition cylinder_scale : Ref.dist :=
  Ref.Dist 31 (Tuple [0.04; 0.04; 0.03]%Q) (Tuple [0.06; 0.06; 0.06]%Q).
Definition cylinder_color : Ref.dist :=
  Ref.Dist 34 (Tuple [0.0; 0.0; 0.0]%Q) (Tuple [0.3; 0.3; 0.3]%Q).

(** The rules of main in their four groups. *)
Definition env_rules : list Ref.rule :=
  [ Ref.Rule 7 (Ref.ByPattern "GroundPlane") (Ref.SetColor ground_color);
    Ref.Rule 10 (Ref.ByPattern "DomeLight") (Ref.SetAttribute "color" light_color);
    Ref.Rule 12 (Ref.ByPattern "DomeLight")
      (Ref.SetAttribute "intensity" light_intensity) ].

Definition pose_rules : list Ref.rule :=
  [ Ref.Rule 15 (Ref.ByHandle cam_h)
      (Ref.SetPose (Some camera_position) (Some camera_rotation) None);
    Ref.Rule 18 (Ref.ByHandle tray_h)
      (Ref.SetPose (Some random_position) (Some random_rotation) None);
    Ref.Rule 19 (Ref.ByHandle plane_h)
      (Ref.SetPose (Some random_position) (Some random_rotation) None) ].

Definition cube_rules : list Ref.rule :=
  [ Ref.Rule cubes_h (Ref.Instances cubes_h)
      (Ref.Instantiate [nth 0 CUBES ""] cube_size [("class", "cube")]);
    Ref.Rule 24 (Ref.Instances cubes_h)
      (Ref.SetPose None (Some cube_rotation) (Some cube_scale));
    Ref.Rule 25 (Ref.Instances cubes_h) (Ref.Scatter2D plane_h false);
    Ref.Rule 27 (Ref.Instances cubes_h) (Ref.SetColor cube_color) ].

Definition cylinder_rules : list Ref.rule :=
  [ Ref.Rule cylinders_h (Ref.Instances cylinders_h)
      (Ref.Instantiate [nth 0 CYLINDERS ""] cylinder_size [("class", "cylinder")]);
    Ref.Rule 32 (Ref.Instances cylinders_h)
      (Ref.SetPose None (Some cylinder_rotation) (Some cylinder_scale));
    Ref.Rule 33 (Ref.Instances cylinders_h) (Ref.Scatter2D plane_h false);
    Ref.Rule 35 (Ref.Instances cylinders_h) (Ref.SetColor cylinder_color) ].

Lemma main_registry_groups :
  main_registry = env_rules ++ pose_rules ++ cube_rules ++ cylinder_rules.
Proof. reflexivity. Qed.

(** Extent of the scatter surface, as the script creates it. *)
Definition plane_scale : shape := Tuple [0.35; 0.5; 1]%Q.

(** Same prim: same path and same origin. *)
Definition same_prim (e0 e : Ref.entity) : Prop :=
  Ref.e_path e = Ref.e_path e0 /\ Ref.e_origin e = Ref.e_origin e0.

Section Frame.
Variable retry_bound : nat.
Variable entropy : nat -> N -> nat -> nat -> Q.

Abbreviation draw := (Ref.draw entropy).

(** The prims of the stage after the environment rules of a frame. *)
Definition stage_after (frame : nat) (S : list Ref.entity) : list Ref.entity :=
  Ref.execute_frame retry_bound entropy frame env_rules S.

(** A prim after a pose rule with position and rotation. *)
Definition posed (frame : nat) (dp dr : Ref.dist) (e : Ref.entity) : Ref.entity :=
  Ref.set_attr "rotation" (draw frame dr 0) (Ref.set_attr "position" (draw frame dp 0) e).

(** Centre of the scatter surface in a frame. *)
Definition plane_center (frame : nat) : Q * Q * Q :=
  (Ref.lerp 0.57 0.63 (entropy frame 16 0 0),
   Ref.lerp (-0.03) 0.03 (entropy frame 16 0 1),
   Ref.lerp 1.095 1.095 (entropy frame 16 0 2))%nat.

Definition cubes_at (frame : nat) : list Ref.entity :=
  instances_at entropy frame cubes_h [("class", "cube")]
    cube_size cube_rotation cube_scale 25 cube_color
    (plane_center frame) 0.35 0.5.

Definition cylinders_at (frame : nat) : list Ref.entity :=
  instances_at entropy frame cylinders_h [("class", "cylinder")]
    cylinder_size cylinder_rotation cylinder_scale 33 cylinder_color
    (plane_center frame) 0.35 0.5.

Lemma execute_frame_app frame r1 r2 sc :
  Ref.execute_frame retry_bound entropy frame (r1 ++ r2) sc
  = Ref.execute_frame retry_bound entropy frame r2
      (Ref.execute_frame retry_bound entropy frame r1 sc).
Proof. unfold Ref.execute_frame. apply fold_left_app. Qed.

Lemma update_targets_Forall (P : Ref.entity -> Prop) sel g l :
  (forall j e, P e -> P (g j e)) ->
  Forall P l -> forall k, Forall P (Ref.update_targets sel g k l).
Proof.
  intros Hg. induction 1 as [|e l He _ IH]; intros k; simpl; [constructor|].
  destruct (Ref.selects sel e); constructor; auto.
Qed.

Lemma from_stage_set_attr name v e : from_stage e -> from_stage (Ref.set_attr name v e).
Proof. intros H; exact H. Qed.

Lemma instance_of_set_attr nodes name v e :
  instance_of nodes e -> instance_of nodes (Ref.set_attr name v e).
Proof. intros H; exact H. Qed.

Lemma pattern_rule pat g (S : list Ref.entity) c t p I :
  Ref.selects (Ref.ByPattern pat) c = false ->
  Ref.selects (Ref.ByPattern pat) t = false ->
  Ref.selects (Ref.ByPattern pat) p = false ->
  exists k,
    Ref.update_targets (Ref.ByPattern pat) g 0 (S ++ c :: t :: p :: I)
    = Ref.update_targets (Ref.ByPattern pat) g 0 S
      ++ c :: t :: p :: Ref.update_targets (Ref.ByPattern pat) g k I.
Proof.
  intros Hc Ht Hp. eexists. rewrite update_targets_app. f_equal.
  cbn [Ref.update_targets]. rewrite Hc, Ht, Hp. reflexivity.
Qed.

Lemma pattern_misses pat e0 e :
  same_prim e0 e ->
  Ref.is_substring pat (Ref.e_path e0) = false ->
  Ref.selects (Ref.ByPattern pat) e = false.
Proof. intros [Hp _] H. unfold Ref.selects. rewrite Hp. exact H. Qed.

Lemma env_stage frame (S : list Ref.entity) c t p I :
  same_prim camera0 c -> same_prim tray0 t -> same_prim plane0 p ->
  Forall (instance_of [cubes_h; cylinders_h]) I ->
  exists I',
    Ref.execute_frame retry_bound entropy frame env_rules (S ++ c :: t :: p :: I)
    = stage_after frame S ++ c :: t :: p :: I'
    /\ Forall (instance_of [cubes_h; cylinders_h]) I'.
Proof.
  intros Hc Ht Hp HI.
  unfold stage_after, Ref.execute_frame, env_rules. cbn [fold_left].
  unfold Ref.apply_rule. cbn [Ref.r_action Ref.r_target Ref.r_id].
  edestruct (pattern_rule "GroundPlane") as [k1 ->];
    [eapply pattern_misses; [eassumption|reflexivity] ..|].
  edestruct (pattern_rule "DomeLight") as [k2 ->];
    [eapply pattern_misses; [eassumption|reflexivity] ..|].
  edestruct (pattern_rule "DomeLight") as [k3 ->];
    [eapply pattern_misses; [eassumption|reflexivity] ..|].
  eexists. split; [reflexivity|].
  repeat (apply update_targets_Forall; [intros; apply instance_of_set_attr; assumption|]).
  exact HI.
Qed.

Lemma handle_selects h e0 e :
  same_prim e0 e -> Ref.e_origin e0 = Ref.Created h ->
  forall h', Ref.selects (Ref.ByHandle h') e = N.eqb h' h.
Proof. intros [_ Ho] H0 h'. unfold Ref.selects. rewrite Ho, H0. reflexivity. Qed.

Lemma pose_stage frame (S : list Ref.entity) c t p I :
  Forall from_stage S ->
  same_prim camera0 c -> same_prim tray0 t -> same_prim plane0 p ->
  Forall (instance_of [cubes_h; cylinders_h]) I ->
  Ref.execute_frame retry_bound entropy frame pose_rules (S ++ c :: t :: p :: I)
  = S ++ posed frame camera_position camera_rotation c
      :: posed frame random_position random_rotation t
      :: posed frame random_position random_rotation p :: I.
Proof.
  intros HS Hc Ht Hp HI.
  assert (HSh : forall h, Forall (fun e => Ref.selects (Ref.ByHandle h) e = false) S).
  { intros h. eapply List.Forall_impl; [|exact HS]. intros e. apply stage_not_handle. }
  assert (HIh : forall h, Forall (fun e => Ref.selects (Ref.ByHandle h) e = false) I).
  { intros h. eapply List.Forall_impl; [|exact HI]. intros e. apply instance_not_handle. }
  pose proof (handle_selects cam_h _ _ Hc eq_refl) as Ec.
  pose proof (handle_selects tray_h _ _ Ht eq_refl) as Et.
  pose proof (handle_selects plane_h _ _ Hp eq_refl) as Ep.
  unfold Ref.execute_frame, pose_rules. cbn [fold_left].
  unfold Ref.apply_rule. cbn [Ref.r_action Ref.r_target Ref.r_id].
  rewrite (update_targets_skip (Ref.ByHandle cam_h)) by apply HSh.
  cbn [Ref.update_targets]. rewrite Ec, Et, Ep. cbn [N.eqb Pos.eqb cam_h tray_h plane_h].
  rewrite (update_targets_none (Ref.ByHandle 1)) by apply HIh.
  rewrite (update_targets_skip (Ref.ByHandle tray_h)) by apply HSh.
  cbn [Ref.update_targets].
  rewrite (handle_selects cam_h camera0) by (try exact Hc; reflexivity).
  rewrite Et, Ep. cbn [N.eqb Pos.eqb cam_h tray_h plane_h].
  rewrite (update_targets_none (Ref.ByHandle 2)) by apply HIh.
  rewrite (update_targets_skip (Ref.ByHandle plane_h)) by apply HSh.
  cbn [Ref.update_targets].
  rewrite (handle_selects cam_h camera0) by (try exact Hc; reflexivity).
  rewrite (handle_selects tray_h tray0) by (try exact Ht; reflexivity).
  rewrite Ep. cbn [N.eqb Pos.eqb cam_h tray_h plane_h].
  rewrite (update_targets_none (Ref.ByHandle 3)) by apply HIh.
  reflexivity.
Qed.

End Frame.

(** ** The scene frame after frame *)

Section Scenes.
Variable retry_bound : nat.
Variable entropy : nat -> N -> nat -> nat -> Q.

Abbreviation nodes := [cubes_h; cylinders_h].

Lemma same_prim_set_attr e0 name v e :
  same_prim e0 e -> same_prim e0 (Ref.set_attr name v e).
Proof. intros H; exact H. Qed.

Lemma same_prim_posed e0 frame dp dr e :
  same_prim e0 e -> same_prim e0 (posed entropy frame dp dr e).
Proof. intros H; exact H. Qed.

Lemma stage_after_from_stage frame S :
  Forall from_stage S -> Forall from_stage (stage_after retry_bound entropy frame S).
Proof.
  intros HS. unfold stage_after, Ref.execute_frame, env_rules. cbn [fold_left].
  unfold Ref.apply_rule. cbn [Ref.r_action Ref.r_target Ref.r_id].
  repeat (apply update_targets_Forall; [intros j e He; exact He|]).
  exact HS.
Qed.

Lemma instances_at_instance_of frame node label dsize dr ds id dc c sx sy ns :
  In node ns ->
  Forall (instance_of ns)
         (instances_at entropy frame node label dsize dr ds id dc c sx sy).
Proof.
  intros Hin. unfold instances_at. apply List.Forall_forall.
  intros e [k [<- _]]%in_map_iff. exact Hin.
Qed.

Lemma instances_at_selected frame node label dsize dr ds id dc c sx sy n :
  Forall (fun e => Ref.selects (Ref.Instances n) e = N.eqb n node)
         (instances_at entropy frame node label dsize dr ds id dc c sx sy).
Proof.
  unfold instances_at. apply List.Forall_forall.
  intros e [k [<- _]]%in_map_iff. reflexivity.
Qed.

Lemma filter_both_nodes (I : list Ref.entity) :
  Forall (instance_of nodes) I ->
  List.filter (fun e => negb (Ref.selects (Ref.Instances cylinders_h) e))
    (List.filter (fun e => negb (Ref.selects (Ref.Instances cubes_h) e)) I) = [].
Proof.
  induction 1 as [|e I He _ IH]; [reflexivity|].
  assert (Hn : Ref.selects (Ref.Instances cubes_h) e = false ->
               Ref.selects (Ref.Instances cylinders_h) e = true).
  { unfold instance_of in He. unfold Ref.selects.
    destruct (Ref.e_origin e) as [| |n k]; try contradiction.
    destruct He as [<-|[<-|[]]]; [discriminate|reflexivity]. }
  cbn [List.filter].
  destruct (Ref.selects (Ref.Instances cubes_h) e); cbn [negb List.filter]; [exact IH|].
  rewrite Hn by reflexivity. exact IH.
Qed.

Lemma posed_position frame dp dr e :
  Ref.get_attr "position" (posed entropy frame dp dr e)
  = Some (Ref.draw entropy frame dp 0).
Proof.
  unfold posed. rewrite get_set_attr_ne by discriminate. apply get_set_attr_eq.
Qed.

Lemma posed_rotation frame dp dr e :
  Ref.get_attr "rotation" (posed entropy frame dp dr e)
  = Some (Ref.draw entropy frame dr 0).
Proof. unfold posed. apply get_set_attr_eq. Qed.

Lemma posed_other frame dp dr e name :
  name <> "position" -> name <> "rotation" ->
  Ref.get_attr name (posed entropy frame dp dr e) = Ref.get_attr name e.
Proof.
  intros H1 H2. unfold posed. rewrite !get_set_attr_ne by congruence. reflexivity.
Qed.

(** The rules of main on a scene of stage prims, camera, tray, plane and
    the instances of the frame before. *)
Lemma frame_result frame (S : list Ref.entity) c t p I :
  Forall from_stage S ->
  same_prim camera0 c -> same_prim tray0 t -> same_prim plane0 p ->
  Forall (instance_of nodes) I ->
  Ref.get_attr "scale" p = Some plane_scale ->
  Ref.execute_frame retry_bound entropy frame main_registry (S ++ c :: t :: p :: I)
  = stage_after retry_bound entropy frame S
    ++ posed entropy frame camera_position camera_rotation c
    :: posed entropy frame random_position random_rotation t
    :: posed entropy frame random_position random_rotation p
    :: cubes_at entropy frame ++ cylinders_at entropy frame.
Proof.
  intros HS Hc Ht Hp HI Hscale.
  rewrite main_registry_groups, !execute_frame_app.
  destruct (env_stage retry_bound entropy frame S c t p I Hc Ht Hp HI)
    as (I' & -> & HI').
  pose proof (stage_after_from_stage frame S HS) as HS'.
  rewrite pose_stage by assumption.
  assert (Hpos : Ref.tuple3 (Ref.get_attr "position"
                    (posed entropy frame random_position random_rotation p))
                 = Some (plane_center entropy frame))
    by (rewrite posed_position; reflexivity).
  assert (Hsc : Ref.tuple3 (Ref.get_attr "scale"
                    (posed entropy frame random_position random_rotation p))
                 = Some (0.35, 0.5, 1)%Q)
    by (rewrite posed_other, Hscale by discriminate; reflexivity).
  unfold cube_rules.
  rewrite (block_result retry_bound entropy frame cubes_h)
    with (cpos := plane_center entropy frame) (sx := 0.35%Q) (sy := 0.5%Q) (sz := 1%Q);
    [|exact HS'|exact (proj2 Hc)|exact (proj2 Ht)|exact (proj2 Hp)|exact Hpos|exact Hsc].
  unfold cylinder_rules.
  rewrite (block_result retry_bound entropy frame cylinders_h)
    with (cpos := plane_center entropy frame) (sx := 0.35%Q) (sy := 0.5%Q) (sz := 1%Q);
    [|exact HS'|exact (proj2 Hc)|exact (proj2 Ht)|exact (proj2 Hp)|exact Hpos|exact Hsc].
  rewrite List.filter_app, filter_both_nodes by exact HI'.
  rewrite filter_all; [reflexivity|].
  eapply List.Forall_impl; [|apply (instances_at_selected _ _ _ _ _ _ _ _ _ _ _ cylinders_h)].
  intros e ->. reflexivity.
Qed.

End Scenes.

(** ** What a record of the dataset shows *)

(** The prim with handle [h], and the instances of node [node], in a scene. *)
Definition prim_of (h : N) (sc : list Ref.entity) : option Ref.entity :=
  List.find (Ref.selects (Ref.ByHandle h)) sc.

Definition instances_of (node : N) (sc : list Ref.entity) : list Ref.entity :=
  List.filter (Ref.selects (Ref.Instances node)) sc.

Definition pose_attr (name : string) : bool :=
  String.eqb name "position" || String.eqb name "rotation".

Section Views.
Variable retry_bound : nat.
Variable entropy : nat -> N -> nat -> nat -> Q.

Abbreviation draw := (Ref.draw entropy).

(** Scenes of the run: stage prims, then camera, tray and plane, then
    instances of the two nodes. *)
Definition scene_inv (sc : list Ref.entity) : Prop :=
  exists S c t p I,
    sc = S ++ c :: t :: p :: I
    /\ Forall from_stage S
    /\ same_prim camera0 c /\ same_prim tray0 t /\ same_prim plane0 p
    /\ Forall (instance_of [cubes_h; cylinders_h]) I
    /\ Ref.get_attr "scale" p = Some plane_scale
    /\ (forall name, pose_attr name = false ->
                     Ref.get_attr name c = Ref.get_attr name camera0).

(** The scene at the end of frame [i], as a record of that frame shows it. *)
Definition frame_view (i : nat) (sc : list Ref.entity) : Prop :=
  exists c t p,
    prim_of cam_h sc = Some c
    /\ prim_of tray_h sc = Some t
    /\ prim_of plane_h sc = Some p
    /\ Ref.get_attr "position" c = Some (draw i camera_position 0)
    /\ Ref.get_attr "rotation" c = Some (draw i camera_rotation 0)
    /\ (forall name, pose_attr name = false ->
                     Ref.get_attr name c = Ref.get_attr name camera0)
    /\ Ref.get_attr "position" t = Some (draw i random_position 0)
    /\ Ref.get_attr "rotation" t = Some (draw i random_rotation 0)
    /\ Ref.get_attr "position" p = Some (draw i random_position 0)
    /\ Ref.get_attr "rotation" p = Some (draw i random_rotation 0)
    /\ Ref.get_attr "scale" p = Some plane_scale
    /\ instances_of cubes_h sc = cubes_at entropy i
    /\ instances_of cylinders_h sc = cylinders_at entropy i.

Lemma pose_attr_false name :
  pose_attr name = false -> name <> "position" /\ name <> "rotation".
Proof.
  unfold pose_attr. intros [H1 H2]%orb_false_elim.
  split; intros ->; discriminate.
Qed.

Lemma cubes_selected i n :
  Forall (fun e => Ref.selects (Ref.Instances n) e = N.eqb n cubes_h)
         (cubes_at entropy i).
Proof. unfold cubes_at. apply instances_at_selected. Qed.

Lemma cylinders_selected i n :
  Forall (fun e => Ref.selects (Ref.Instances n) e = N.eqb n cylinders_h)
         (cylinders_at entropy i).
Proof. unfold cylinders_at. apply instances_at_selected. Qed.

Lemma frame_instances i :
  Forall (instance_of [cubes_h; cylinders_h])
         (cubes_at entropy i ++ cylinders_at entropy i).
Proof.
  apply Forall_app. unfold cubes_at, cylinders_at.
  split; apply instances_at_instance_of; simpl; auto.
Qed.

Lemma scene0_inv stage_prims : scene_inv (scene0 stage_prims).
Proof.
  exists (map (fun p => Ref.Entity p Ref.FromStage [] []) stage_prims),
         camera0, tray0, plane0, [].
  repeat split; try reflexivity; try constructor.
  apply List.Forall_forall. intros e [p [<- _]]%in_map_iff. reflexivity.
Qed.

Lemma frame_keeps_inv i sc :
  scene_inv sc ->
  scene_inv (Ref.execute_frame retry_bound entropy i main_registry sc).
Proof.
  intros (S & c & t & p & I & -> & HS & Hc & Ht & Hp & HI & Hsc & Hcam).
  rewrite frame_result by assumption.
  do 5 eexists. split; [reflexivity|].
  split; [apply stage_after_from_stage; exact HS|].
  do 3 (split; [apply same_prim_posed; assumption|]).
  split; [apply frame_instances|].
  split.
  { rewrite posed_other by discriminate. exact Hsc. }
  intros name Hn. destruct (pose_attr_false name Hn).
  rewrite posed_other by assumption. apply Hcam, Hn.
Qed.

Lemma scene_after_inv stage_prims k :
  scene_inv (scene_after retry_bound entropy main_registry (scene0 stage_prims) k).
Proof.
  induction k as [|k IH]; simpl; [apply scene0_inv|apply frame_keeps_inv, IH].
Qed.

Lemma frame_shows i sc :
  scene_inv sc ->
  frame_view i (Ref.execute_frame retry_bound entropy i main_registry sc).
Proof.
  intros (S & c & t & p & I & -> & HS & Hc & Ht & Hp & HI & Hsc & Hcam).
  rewrite frame_result by assumption.
  pose proof (stage_after_from_stage retry_bound entropy i S HS) as HS'.
  set (S' := stage_after retry_bound entropy i S) in *.
  assert (HSh : forall h, Forall (fun e => Ref.selects (Ref.ByHandle h) e = false) S').
  { intros h. eapply List.Forall_impl; [|exact HS']. intros e. apply stage_not_handle. }
  assert (HSn : forall n, Forall (fun e => Ref.selects (Ref.Instances n) e = false) S').
  { intros n. eapply List.Forall_impl; [|exact HS']. intros e. apply stage_not_instance. }
  set (c' := posed entropy i camera_position camera_rotation c).
  set (t' := posed entropy i random_position random_rotation t).
  set (p' := posed entropy i random_position random_rotation p).
  assert (Ec : forall h, Ref.selects (Ref.ByHandle h) c' = N.eqb h cam_h)
    by (apply (handle_selects cam_h camera0); [exact Hc|reflexivity]).
  assert (Et : forall h, Ref.selects (Ref.ByHandle h) t' = N.eqb h tray_h)
    by (apply (handle_selects tray_h tray0); [exact Ht|reflexivity]).
  assert (Ep : forall h, Ref.selects (Ref.ByHandle h) p' = N.eqb h plane_h)
    by (apply (handle_selects plane_h plane0); [exact Hp|reflexivity]).
  assert (Nc : forall n, Ref.selects (Ref.Instances n) c' = false)
    by (intros n; unfold Ref.selects; change (Ref.e_origin c') with (Ref.e_origin c);
        rewrite (proj2 Hc); reflexivity).
  assert (Nt : forall n, Ref.selects (Ref.Instances n) t' = false)
    by (intros n; unfold Ref.selects; change (Ref.e_origin t') with (Ref.e_origin t);
        rewrite (proj2 Ht); reflexivity).
  assert (Np : forall n, Ref.selects (Ref.Instances n) p' = false)
    by (intros n; unfold Ref.selects; change (Ref.e_origin p') with (Ref.e_origin p);
        rewrite (proj2 Hp); reflexivity).
  exists c', t', p'.
  split; [unfold prim_of; rewrite find_skip by apply HSh; cbn [List.find];
          rewrite ?Ec, ?Et, ?Ep; reflexivity|].
  split; [unfold prim_of; rewrite find_skip by apply HSh; cbn [List.find];
          rewrite ?Ec, ?Et, ?Ep; reflexivity|].
  split; [unfold prim_of; rewrite find_skip by apply HSh; cbn [List.find];
          rewrite ?Ec, ?Et, ?Ep; reflexivity|].
  split; [apply posed_position|]. split; [apply posed_rotation|].
  split.
  { intros name Hn. destruct (pose_attr_false name Hn).
    unfold c'. rewrite posed_other by assumption. apply Hcam, Hn. }
  split; [apply posed_position|]. split; [apply posed_rotation|].
  split; [apply posed_position|]. split; [apply posed_rotation|].
  split; [unfold p'; rewrite posed_other by discriminate; exact Hsc|].
  unfold instances_of.
  split.
  - rewrite List.filter_app, filter_none by apply HSn.
    cbn [List.filter app]. rewrite Nc, Nt, Np.
    rewrite List.filter_app, filter_all, filter_none, app_nil_r; [reflexivity| |].
    + eapply List.Forall_impl; [|apply cylinders_selected]. intros e ->. reflexivity.
    + eapply List.Forall_impl; [|apply cubes_selected]. intros e ->. reflexivity.
  - rewrite List.filter_app, filter_none by apply HSn.
    cbn [List.filter app]. rewrite Nc, Nt, Np.
    rewrite List.filter_app, filter_none, filter_all; [reflexivity| |].
    + eapply List.Forall_impl; [|apply cylinders_selected]. intros e ->. reflexivity.
    + eapply List.Forall_impl; [|apply cubes_selected]. intros e ->. reflexivity.
Qed.

Lemma scene_after_shows stage_prims i :
  frame_view i (scene_after retry_bound entropy main_registry (scene0 stage_prims)
                            (S i)).
Proof. simpl. apply frame_shows, scene_after_inv. Qed.

End Views.

(** * Further properties of the script, for every backend *)

(** ** Faults in code without handlers *)

(** A backend that answers [None] to every call. *)
Definition silent : api_call -> unit -> reply * unit :=
  fun _ s => (Ret VNone, s).

(** The drain barrier fails. *)
Definition drain_fails (c : api_call) : option fault :=
  match c with
  | BackendDispatch_wait_until_done => Some (Exc "writer backend lost")
  | _ => None
  end.

Section FailFast.
Context {St : Type} (respond : api_call -> St -> reply * St).
Implicit Types (w : @world St) (t : list event) (c : api_call).

(** [quiet P m]: the events of [m] are calls satisfying [P] that returned,
    but for the last one when [m] raises: the call that raised the fault. *)
Definition quiet {A} (P : event -> bool) (m : @M St A) : Prop :=
  forall w, exists t,
    forallb (fun e => is_ret e && P e) t = true
    /\ match fst (m w) with
       | Raised f => exists c, P (c, Raise f) = true
                               /\ trace (snd (m w)) = trace w ++ t ++ [(c, Raise f)]
       | _ => trace (snd (m w)) = trace w ++ t
       end.

(** [raises_quiet P m]: when [m] raises, the fault is the answer to its last
    call, and the calls before returned and satisfy [P]. *)
Definition raises_quiet {A} (P : event -> bool) (m : @M St A) : Prop :=
  forall w f w', m w = (Raised f, w') ->
    exists t c, trace w' = trace w ++ t ++ [(c, Raise f)]
                /\ forallb (fun e => is_ret e && P e) t = true.

Lemma quiet_ret {A} P (a : A) : quiet P (ret (St:=St) a).
Proof. intros w. exists []. simpl. rewrite app_nil_r. auto. Qed.

Lemma quiet_call P c : (forall r, P (c, r) = true) -> quiet P (call respond c).
Proof.
  intros HP w. rewrite call_eq. cbn [fst snd trace].
  destruct (respond c (backend w)) as [[v|f] s]; cbn [fst outcome_of_reply].
  - exists [(c, Ret v)]. simpl. rewrite HP. auto.
  - exists []. split; [reflexivity|]. exists c. auto.
Qed.

Lemma quiet_bind {A B} P (m : @M St A) (k : A -> @M St B) :
  quiet P m -> (forall a, quiet P (k a)) -> quiet P (bind m k).
Proof.
  intros Hm Hk w. unfold bind. destruct (Hm w) as (t1 & F1 & E1).
  destruct (m w) as [[a|f|] w1]; cbn [fst snd] in *.
  - destruct (Hk a w1) as (t2 & F2 & E2). exists (t1 ++ t2).
    rewrite forallb_app, F1, F2. split; [reflexivity|].
    destruct (fst (k a w1)).
    + rewrite E2, E1, <- app_assoc. reflexivity.
    + destruct E2 as (c & Pc & E2). exists c. split; [exact Pc|].
      rewrite E2, E1, <- !app_assoc. reflexivity.
    + rewrite E2, E1, <- app_assoc. reflexivity.
  - exists t1. auto.
  - exists t1. auto.
Qed.

Lemma quiet_while P fuel (cond : @M St bool) (body : @M St unit) :
  quiet P cond -> quiet P body -> quiet P (while fuel cond body).
Proof.
  intros Hc Hb. induction fuel as [|fuel IH]; simpl.
  - intros w. exists []. simpl. rewrite app_nil_r. auto.
  - apply quiet_bind; [exact Hc|]. intros [|]; [|apply quiet_ret].
    apply quiet_bind; [exact Hb|]. intros _. exact IH.
Qed.

Lemma quiet_raises {A} P (m : @M St A) : quiet P m -> raises_quiet P m.
Proof.
  intros Hm w f w' E. destruct (Hm w) as (t & F & H). rewrite E in H.
  cbn [fst snd] in H. destruct H as (c & _ & H). exists t, c. auto.
Qed.

Lemma raises_quiet_bind {A B} P (m : @M St A) (k : A -> @M St B) :
  quiet P m -> (forall a, raises_quiet P (k a)) -> raises_quiet P (bind m k).
Proof.
  intros Hm Hk w f w' E. unfold bind in E. destruct (Hm w) as (t1 & F1 & E1).
  destruct (m w) as [[a|g|] w1]; cbn [fst snd] in *.
  - destruct (Hk a w1 f w' E) as (t2 & c & E2 & F2). exists (t1 ++ t2), c.
    rewrite forallb_app, F1, F2, E2, E1, <- !app_assoc. auto.
  - inversion E; subst. destruct E1 as (c & _ & E1). exists t1, c. auto.
  - discriminate.
Qed.

(** The last call of a block may be any call. *)
Lemma raises_quiet_call P c :
  raises_quiet P (bind (call respond c) (fun _ => ret tt)).
Proof.
  intros w f w' E. unfold bind in E. rewrite call_eq in E.
  destruct (respond c (backend w)) as [[v|g] s]; cbn in E; inversion E; subst.
  exists [], c. auto.
Qed.

Lemma run_orchestrator_raises fuel :
  raises_quiet (fun e => negb (is_stop e)) (run_orchestrator respond fuel).
Proof.
  unfold run_orchestrator.
  apply raises_quiet_bind; [apply quiet_call; reflexivity|]. intros _.
  apply raises_quiet_bind.
  { apply quiet_while; repeat first
      [apply quiet_ret | apply quiet_call; reflexivity | apply quiet_bind; [|intros] ]. }
  intros _. apply raises_quiet_bind.
  { apply quiet_while; repeat first
      [apply quiet_ret | apply quiet_call; reflexivity | apply quiet_bind; [|intros] ]. }
  intros _. apply raises_quiet_bind; [apply quiet_call; reflexivity|]. intros _.
  apply raises_quiet_call.
Qed.

End FailFast.

(** ** Poll loops on a signal that does not change *)

Section Stuck.
Context {St : Type} (respond : api_call -> St -> reply * St).
Implicit Types (w : @world St) (t : list event) (c : api_call).

(** The call [c] always returns. *)
Definition returns (c : api_call) : Prop :=
  forall s, exists v s', respond c s = (Ret v, s').

(** The started signal is always answered, with the truth value [b]. *)
Definition signal_stays (b : bool) : Prop :=
  forall s, exists v s',
    respond orchestrator_get_is_started s = (Ret v, s') /\ truthy v = b.

(** [fuel] rounds of poll and tick. *)
Definition rounds (fuel : nat) (t : list event) : Prop :=
  length (List.filter is_poll t) = fuel
  /\ length (List.filter is_update t) = fuel
  /\ forallb (fun e => is_ret e && (is_poll e || is_update e)) t = true.

Lemma while_stuck (test : bool -> bool) b fuel :
  signal_stays b -> returns app_update -> test b = true ->
  forall w, exists w' t,
    while fuel (bind (call respond orchestrator_get_is_started)
                     (fun v => ret (test (truthy v))))
               (bind (call respond app_update) (fun _ => ret tt)) w
    = (Diverged, w')
    /\ trace w' = trace w ++ t /\ rounds fuel t.
Proof.
  intros Hs Hu Hb. induction fuel as [|fuel IH]; intros w; simpl.
  - exists w, []. rewrite app_nil_r. repeat split; reflexivity.
  - unfold bind at 1 2. rewrite call_eq.
    destruct (Hs (backend w)) as (v & s1 & -> & Hv). cbn. rewrite Hv, Hb.
    unfold bind at 1 2. rewrite call_eq. cbn [backend trace].
    destruct (Hu s1) as (u & s2 & ->). cbn.
    destruct (IH (World s2 ((trace w ++ [(orchestrator_get_is_started, Ret v)])
                            ++ [(app_update, Ret u)])))
      as (w' & t & -> & E & R1 & R2 & R3).
    exists w', ((orchestrator_get_is_started, Ret v) :: (app_update, Ret u) :: t).
    split; [reflexivity|]. split.
    + rewrite E. cbn [trace]. rewrite <- !app_assoc. reflexivity.
    + unfold rounds. cbn. rewrite R1, R2, R3. auto.
Qed.

Lemma while_passes (test : bool -> bool) b fuel :
  signal_stays b -> test b = false ->
  forall w, exists w' v,
    while (S fuel) (bind (call respond orchestrator_get_is_started)
                         (fun v => ret (test (truthy v))))
               (bind (call respond app_update) (fun _ => ret tt)) w
    = (Normal tt, w')
    /\ trace w' = trace w ++ [(orchestrator_get_is_started, Ret v)].
Proof.
  intros Hs Hb w. simpl. unfold bind at 1 2. rewrite call_eq.
  destruct (Hs (backend w)) as (v & s1 & -> & Hv). cbn. rewrite Hv, Hb.
  eexists. exists v. split; reflexivity.
Qed.

End Stuck.

(** ** Scopes opened by [with] *)

Definition is_scope_call (c : api_call) : bool :=
  match c with
  | ctx_enter _ | ctx_exit _ _ => true
  | _ => false
  end.

(** [scoped d t]: in [t] every scope that was entered is left again, by the
    same object, scopes nest, and never more than [d] of them are open. *)
Inductive scoped : nat -> list event -> Prop :=
| scoped_nil d : scoped d []
| scoped_call d c r t :
    is_scope_call c = false -> scoped d t -> scoped d ((c, r) :: t)
| scoped_refused d h f t :
    scoped d t -> scoped d ((ctx_enter h, Raise f) :: t)
| scoped_with d h v body e r t :
    scoped d body -> scoped (S d) t ->
    scoped (S d) ((ctx_enter h, Ret v) :: body ++ (ctx_exit h e, r) :: t).

Lemma scoped_mono d t : scoped d t -> forall d', (d <= d')%nat -> scoped d' t.
Proof.
  induction 1 as [d|d c r t Hc _ IH|d h f t _ IH|d h v body e r t _ IHb _ IHt];
    intros d' Hd.
  - constructor.
  - apply scoped_call; auto.
  - apply scoped_refused; auto.
  - destruct d' as [|d']; [lia|]. apply scoped_with; [apply IHb; lia|apply IHt; lia].
Qed.

Lemma scoped_app d t1 : scoped d t1 -> forall t2, scoped d t2 -> scoped d (t1 ++ t2).
Proof.
  induction 1 as [d|d c r t Hc _ IH|d h f t _ IH|d h v body e r t Hb _ _ IHt];
    intros t2 H2; simpl.
  - exact H2.
  - apply scoped_call; auto.
  - apply scoped_refused; auto.
  - rewrite <- app_assoc. simpl. apply scoped_with; auto.
Qed.

Section Scopes.
Context {St : Type} (respond : api_call -> St -> reply * St).
Implicit Types (w : @world St) (t : list event) (c : api_call).

(** [nests d m]: what [m] adds to the trace is [scoped d], however [m] ends. *)
Definition nests {A} (d : nat) (m : @M St A) : Prop :=
  forall w, exists t, trace (snd (m w)) = trace w ++ t /\ scoped d t.

(** [finite m]: [m] is never cut off. *)
Definition finite {A} (m : @M St A) : Prop :=
  forall w, fst (m w) <> Diverged.

Lemma finite_ret {A} (a : A) : finite (ret (St:=St) a).
Proof. intros w. discriminate. Qed.

Lemma finite_call c : finite (call respond c).
Proof. intros w. rewrite call_eq. simpl. destruct (fst _); discriminate. Qed.

Lemma finite_bind {A B} (m : @M St A) (k : A -> @M St B) :
  finite m -> (forall a, finite (k a)) -> finite (bind m k).
Proof.
  intros Hm Hk w. unfold bind. specialize (Hm w).
  destruct (m w) as [[a|f|] w1]; simpl in *; [apply Hk|discriminate|congruence].
Qed.

Lemma finite_raise {A} (f : fault) : finite (raise (St:=St) (A:=A) f).
Proof. intros w. discriminate. Qed.

Lemma finite_method obj name c : finite (method respond obj name c).
Proof. destruct obj; simpl; [apply finite_raise ..|apply finite_call]. Qed.

Lemma finite_with_object ctx (body : @M St unit) :
  finite body -> finite (with_object respond ctx body).
Proof.
  intros Hb w. unfold with_object, bind. rewrite call_eq.
  destruct (fst (respond (ctx_enter ctx) (backend w))); cbn; [|discriminate].
  match goal with
  | |- context [body ?w1] =>
    specialize (Hb w1); destruct (body w1) as [[[]|f|] w2]
  end; cbn in *; try congruence.
  - rewrite call_eq. destruct (fst (respond _ _)); cbn; discriminate.
  - rewrite call_eq. destruct (fst (respond _ _)) as [u|g]; cbn; [|discriminate].
    destruct (truthy u); discriminate.
Qed.

Lemma finite_with ctx (body : @M St unit) :
  finite body -> finite (with_ respond ctx body).
Proof.
  intros Hb. destruct ctx; simpl;
    [apply finite_raise ..|apply finite_with_object, Hb].
Qed.

Lemma nests_ret {A} d (a : A) : nests d (ret (St:=St) a).
Proof. intros w. exists []. simpl. rewrite app_nil_r. split; [reflexivity|constructor]. Qed.

Lemma nests_call d c : is_scope_call c = false -> nests d (call respond c).
Proof.
  intros Hc w. rewrite call_eq. eexists. split; [reflexivity|].
  constructor; [exact Hc|constructor].
Qed.

Lemma nests_bind {A B} d (m : @M St A) (k : A -> @M St B) :
  nests d m -> (forall a, nests d (k a)) -> nests d (bind m k).
Proof.
  intros Hm Hk w. unfold bind. destruct (Hm w) as (t1 & E1 & S1).
  destruct (m w) as [[a|f|] w1]; cbn [fst snd] in *.
  - destruct (Hk a w1) as (t2 & E2 & S2). exists (t1 ++ t2).
    rewrite E2, E1, <- app_assoc. split; [reflexivity|apply scoped_app; assumption].
  - exists t1. auto.
  - exists t1. auto.
Qed.

Lemma nests_if {A} d (b : bool) (m1 m2 : @M St A) :
  nests d m1 -> nests d m2 -> nests d (if b then m1 else m2).
Proof. destruct b; auto. Qed.

Lemma nests_for_in {A} d (l : list A) (body : A -> @M St unit) :
  (forall i, nests d (body i)) -> nests d (for_in l body).
Proof.
  intros Hb. induction l as [|i l IH]; simpl; [apply nests_ret|].
  apply nests_bind; [apply Hb|intros _; exact IH].
Qed.

Lemma nests_while d fuel (cond : @M St bool) (body : @M St unit) :
  nests d cond -> nests d body -> nests d (while fuel cond body).
Proof.
  intros Hc Hb. induction fuel as [|fuel IH]; simpl.
  - intros w. exists []. simpl. rewrite app_nil_r. split; [reflexivity|constructor].
  - apply nests_bind; [exact Hc|]. intros [|]; [|apply nests_ret].
    apply nests_bind; [exact Hb|intros _; exact IH].
Qed.

Lemma nests_mono {A} d d' (m : @M St A) : (d <= d')%nat -> nests d m -> nests d' m.
Proof.
  intros Hd Hm w. destruct (Hm w) as (t & E & S). exists t.
  split; [exact E|eapply scoped_mono; eassumption].
Qed.

Lemma nests_raise {A} d (f : fault) : nests d (raise (St:=St) (A:=A) f).
Proof. intros w. exists []. simpl. rewrite app_nil_r. split; [reflexivity|constructor]. Qed.

Lemma nests_method d obj name c :
  is_scope_call c = false -> nests d (method respond obj name c).
Proof.
  intros Hc. destruct obj; simpl; [apply nests_raise ..|apply nests_call, Hc].
Qed.

(** A [with] block adds one level, and leaves its scope on every path. *)
Lemma nests_with_object d ctx (body : @M St unit) :
  finite body -> nests d body -> nests (S d) (with_object respond ctx body).
Proof.
  intros Hf Hb w. unfold with_object, bind. rewrite call_eq.
  destruct (respond (ctx_enter ctx) (backend w)) as [[v|f] s1]; cbn.
  - match goal with |- context [body ?w1] =>
      specialize (Hf w1); destruct (Hb w1) as (tb & Eb & Sb);
      destruct (body w1) as [[[]|f|] w2]
    end; cbn [fst snd trace] in *; try congruence.
    + rewrite call_eq. cbn [fst snd trace].
      exists ((ctx_enter ctx, Ret v)
              :: tb ++ [(ctx_exit ctx None,
                         fst (respond (ctx_exit ctx None) (backend w2)))]).
      split; [|apply scoped_with; [exact Sb|constructor]].
      destruct (fst (respond (ctx_exit ctx None) (backend w2))); cbn;
        rewrite Eb, <- !app_assoc; reflexivity.
    + rewrite call_eq. cbn [fst snd trace].
      exists ((ctx_enter ctx, Ret v)
              :: tb ++ [(ctx_exit ctx (Some f),
                         fst (respond (ctx_exit ctx (Some f)) (backend w2)))]).
      split; [|apply scoped_with; [exact Sb|constructor]].
      destruct (fst (respond (ctx_exit ctx (Some f)) (backend w2))) as [u|g];
        cbn; [destruct (truthy u)|]; cbn;
        rewrite Eb, <- !app_assoc; reflexivity.
  - eexists. split; [reflexivity|]. apply scoped_refused. constructor.
Qed.

Lemma nests_with d ctx (body : @M St unit) :
  finite body -> nests d body -> nests (S d) (with_ respond ctx body).
Proof.
  intros Hf Hb. destruct ctx; simpl;
    [apply nests_raise ..|apply nests_with_object; assumption].
Qed.

Lemma nests_try d (body : @M St unit) handler (final : @M St unit) :
  nests d body -> (forall f, nests d (handler f)) -> nests d final ->
  nests d (try_except_finally body handler final).
Proof.
  intros Hb Hh Hf w. unfold try_except_finally.
  destruct (Hb w) as (tb & Eb & Sb).
  destruct (body w) as [[[]|f|] w1]; cbn [fst snd] in *.
  - destruct (Hf w1) as (tf & Ef & Sf). exists (tb ++ tf).
    rewrite Ef, Eb, <- app_assoc. split; [reflexivity|apply scoped_app; assumption].
  - destruct (is_Exception f).
    + destruct (Hh f w1) as (th & Eh & Sh).
      destruct (handler f w1) as [[[]|g|] w2]; cbn [fst snd] in *.
      * destruct (Hf w2) as (tf & Ef & Sf). exists (tb ++ th ++ tf).
        rewrite Ef, Eh, Eb, <- !app_assoc.
        split; [reflexivity|repeat apply scoped_app; assumption].
      * destruct (Hf w2) as (tf & Ef & Sf). exists (tb ++ th ++ tf).
        split; [|repeat apply scoped_app; assumption].
        destruct (final w2) as [[[]|h|] w3]; cbn [fst snd] in *;
          rewrite Ef, Eh, Eb, <- !app_assoc; reflexivity.
      * exists (tb ++ th). rewrite Eh, Eb, <- app_assoc.
        split; [reflexivity|apply scoped_app; assumption].
    + destruct (Hf w1) as (tf & Ef & Sf). exists (tb ++ tf).
      split; [|apply scoped_app; assumption].
      destruct (final w1) as [[[]|h|] w3]; cbn [fst snd] in *;
        rewrite Ef, Eb, <- !app_assoc; reflexivity.
  - exists tb. auto.
Qed.

End Scopes.

Ltac finite_tac :=
  cbv zeta;
  repeat first
    [ apply finite_ret
    | apply finite_call
    | apply finite_method
    | apply finite_with
    | apply finite_bind; [|intros] ].

Ltac nests_tac :=
  cbv zeta;
  repeat first
    [ apply nests_ret
    | apply nests_call; reflexivity
    | apply nests_method; reflexivity
    | apply nests_with; [finite_tac|]
    | apply nests_try; [ | intros | ]
    | apply nests_for_in; intros
    | apply nests_while
    | apply nests_if
    | apply nests_bind; [|intros] ].

Section ScopesOfMain.
Context {St : Type} (respond : api_call -> St -> reply * St).
Variable args : cli_args.
Variable script_dir : string.

Lemma randomization_graph_nests cam tray plane :
  nests 1 (randomization_graph respond cam tray plane).
Proof. unfold randomization_graph. nests_tac. Qed.

Lemma randomization_graph_finite cam tray plane :
  finite (randomization_graph respond cam tray plane).
Proof. unfold randomization_graph. finite_tac. Qed.

Lemma main_nests fuel : nests 2 (main respond args script_dir fuel).
Proof.
  unfold main, for_range, run_orchestrator.
  repeat first
    [ apply nests_ret
    | apply nests_call; reflexivity
    | apply nests_method; reflexivity
    | apply nests_with;
      [apply randomization_graph_finite|apply randomization_graph_nests]
    | apply nests_for_in; intros
    | apply nests_while
    | apply nests_if
    | apply nests_bind; [|intros] ].
Qed.

Lemma script_nests fuel : nests 2 (script respond args script_dir fuel).
Proof.
  unfold script, main_block.
  apply nests_bind; [apply nests_call; reflexivity|intros _].
  apply nests_bind; [apply nests_call; reflexivity|intros _].
  apply nests_try; [apply main_nests|intros f; nests_tac|nests_tac].
Qed.

End ScopesOfMain.

(** ** The calls of [main] up to the run request *)

(** The answers to the calls of [main], those of the warm-up loop and of the
    frame-trigger block apart. *)
Record answers := Answers {
  a_loading : pyval; a_opened : pyval; a_stage : pyval;
  a_cam : pyval; a_tray : pyval; a_plane : pyval;
  a_trigger : pyval; a_entered : pyval; a_left : pyval;
  a_writer : pyval; a_output : pyval; a_initialized : pyval;
  a_product : pyval; a_attached : pyval; a_run : pyval
}.

(** The calls of the warm-up loop. *)
Definition warmup_calls (l : list nat) : list api_call :=
  flat_map (fun i =>
    (if (i mod 10 =? 0)%nat
     then [print ["App update " +:+ pretty i +:+ ".."]]
     else [])
    ++ [app_update]) l.

(** The events of [main] from its first call to the run request, in source
    order, when every call returns: [tw] are the events of the warm-up loop,
    [r] gives the answers inside the frame-trigger block, [rest] is what
    follows the run request. *)
Definition main_events (args : cli_args) (script_dir : string) (a : answers)
    (tw : list event) (r : nat -> pyval) (rest : list event) : list event :=
  (print ["Loading Stage " +:+ ENV_URL script_dir], Ret (a_loading a))
  :: (open_stage (ENV_URL script_dir), Ret (a_opened a))
  :: (get_current_stage, Ret (a_stage a))
  :: tw
  ++ (create_camera 1.93 0.8 3.896 (0.1, 1000000)%Q, Ret (a_cam a))
  :: (create_from_usd (TRAY_URL script_dir), Ret (a_tray a))
  :: (create_plane (0.35, 0.5, 1)%Q false (0.6, 0, 1.12)%Q, Ret (a_plane a))
  :: (trigger_on_frame (num_frames args), Ret (a_trigger a))
  :: (ctx_enter (a_trigger a), Ret (a_entered a))
  :: registration_events (a_cam a) (a_tray a) (a_plane a) r
  ++ (ctx_exit (a_trigger a) None, Ret (a_left a))
  :: (WriterRegistry_get "KittiWriter", Ret (a_writer a))
  :: (print ["Outputting data to "; data_dir args], Ret (a_output a))
  :: (writer_initialize (a_writer a) (data_dir args) true, Ret (a_initialized a))
  :: (create_render_product (a_cam a) (width args, height args), Ret (a_product a))
  :: (writer_attach (a_writer a) (a_product a), Ret (a_attached a))
  :: (orchestrator_run, Ret (a_run a))
  :: rest.

(** Polls, ticks, the drain barrier and the stop command. *)
Definition is_orchestration (e : event) : bool :=
  match fst e with
  | orchestrator_get_is_started | app_update
  | BackendDispatch_wait_until_done | orchestrator_stop => true
  | _ => false
  end.

Section Cut.
Context {St : Type} (respond : api_call -> St -> reply * St).
Implicit Types (w : @world St) (t : list event) (c : api_call).



Lemma faultless_run_impl {A} (m : @M St A) w
    (Q1 Q : outcome A -> list event -> Prop) :
  faultless_run m w Q1 -> (forall o t, Q1 o t -> Q o t) -> faultless_run m w Q.
Proof. intros (t & E & H) HQ. exists t. split; [exact E|]. intros F. apply HQ, H, F. Qed.

Lemma warmup_trace (l : list nat) w :
  faultless_run
    (for_in l (fun i =>
       bind (if (i mod 10 =? 0)%nat
             then bind (call respond (print ["App update " +:+ pretty i +:+ ".."]))
                       (fun _ => ret tt)
             else ret tt)
            (fun _ => bind (call respond app_update) (fun _ => ret tt)))) w
    (fun o t => o = Normal tt /\ map fst t = warmup_calls l).
Proof.
  revert w. induction l as [|i l IH]; intros w; cbn [for_in warmup_calls flat_map].
  - apply faultless_run_ret. auto.
  - apply faultless_run_assoc. destruct (i mod 10 =? 0)%nat.
    + apply faultless_run_assoc. apply faultless_run_call. intros v s _.
      apply faultless_run_ret_bind. apply faultless_run_assoc.
      apply faultless_run_call. intros u s' _. apply faultless_run_ret_bind.
      eapply faultless_run_impl; [apply IH|]. cbv beta.
      intros o t [-> Ht]. split; [reflexivity|]. cbn. rewrite Ht. reflexivity.
    + apply faultless_run_ret_bind. apply faultless_run_assoc.
      apply faultless_run_call. intros u s' _. apply faultless_run_ret_bind.
      eapply faultless_run_impl; [apply IH|]. cbv beta.
      intros o t [-> Ht]. split; [reflexivity|]. cbn. rewrite Ht. reflexivity.
Qed.

End Cut.

(** ** Runs in which nothing goes wrong *)

(** No scope is left with a fault. *)
Definition exit_clean (e : event) : bool :=
  match fst e with
  | ctx_exit _ (Some _) => false
  | _ => true
  end.

(** Every call returned, and no scope was left with a fault: whatever the
    interpreter raised by itself inside a [with] block shows in the second
    part. *)
Definition clean (t : list event) : bool :=
  forallb (fun e => is_ret e && exit_clean e) t.

Definition raised {A} (o : outcome A) : bool :=
  match o with Raised _ => true | _ => false end.

Section Clean.
Context {St : Type} (respond : api_call -> St -> reply * St).
Implicit Types (w : @world St) (t : list event) (c : api_call).

(** [clean_run m w Q]: every run of [m] from [w] that is clean and does not
    raise satisfies [Q]. *)
Definition clean_run {A} (m : @M St A) w
    (Q : outcome A -> list event -> Prop) : Prop :=
  exists t, trace (snd (m w)) = trace w ++ t
            /\ (clean t = true -> raised (fst (m w)) = false -> Q (fst (m w)) t).

Lemma clean_faultless t : clean t = true -> faultless t = true.
Proof.
  unfold clean, faultless. induction t as [|e t IH]; simpl; [reflexivity|].
  intros [[-> _]%andb_prop Ht]%andb_prop. auto.
Qed.

Lemma clean_app t1 t2 : clean (t1 ++ t2) = clean t1 && clean t2.
Proof. apply forallb_app. Qed.

Lemma clean_run_of_faultless {A} (m : @M St A) w Q :
  faultless_run m w Q -> clean_run m w Q.
Proof.
  intros (t & E & H). exists t. split; [exact E|].
  intros C _. apply H, clean_faultless, C.
Qed.

Lemma clean_run_ret {A} (a : A) w (Q : outcome A -> list event -> Prop) :
  Q (Normal a) [] -> clean_run (ret a) w Q.
Proof. intros H. exists []. simpl. rewrite app_nil_r. auto. Qed.

Lemma clean_run_call {A} c (k : pyval -> @M St A) w Q :
  (forall v s, respond c (backend w) = (Ret v, s) ->
     clean_run (k v) (World s (trace w ++ [(c, Ret v)]))
               (fun o t => Q o ((c, Ret v) :: t))) ->
  clean_run (bind (call respond c) k) w Q.
Proof.
  intros H. unfold clean_run. rewrite bind_call_eq.
  destruct (respond c (backend w)) as [[v|f] s] eqn:Er; cbn [fst snd].
  - destruct (H v s eq_refl) as (t & Et & Ht). exists ((c, Ret v) :: t).
    rewrite Et. cbn [trace]. rewrite <- app_assoc. split; [reflexivity|].
    unfold clean in *. cbn [forallb]. intros [_ C]%andb_prop. auto.
  - eexists; split; [reflexivity|]. discriminate.
Qed.

(** A method of a returned object: on [None] the run raises. *)
Lemma clean_run_method {A} obj name c (k : pyval -> @M St A) w Q :
  (forall v s, respond c (backend w) = (Ret v, s) ->
     clean_run (k v) (World s (trace w ++ [(c, Ret v)]))
               (fun o t => Q o ((c, Ret v) :: t))) ->
  clean_run (bind (method respond obj name c) k) w Q.
Proof.
  intros H. destruct obj; cbn [method]; [| |apply clean_run_call, H];
    exists []; cbn; rewrite app_nil_r; split; [reflexivity|discriminate
                                              |reflexivity|discriminate].
Qed.

Lemma clean_run_assoc {A B C} (m : @M St A) (k : A -> @M St B) (h : B -> @M St C)
    w Q :
  clean_run (bind m (fun a => bind (k a) h)) w Q ->
  clean_run (bind (bind m k) h) w Q.
Proof. unfold clean_run, bind. destruct (m w) as [[a|f|] w1]; auto. Qed.

Lemma clean_run_ret_bind {A B} (a : A) (k : A -> @M St B) w Q :
  clean_run (k a) w Q -> clean_run (bind (ret a) k) w Q.
Proof. auto. Qed.

Lemma clean_run_last {A} (m : @M St A) w Q :
  clean_run (bind m (fun a => ret a)) w Q -> clean_run m w Q.
Proof. unfold clean_run, bind. destruct (m w) as [[a|f|] w1]; auto. Qed.

Lemma clean_run_impl {A} (m : @M St A) w
    (Q1 Q : outcome A -> list event -> Prop) :
  clean_run m w Q1 -> (forall o t, Q1 o t -> Q o t) -> clean_run m w Q.
Proof.
  intros (t & E & H) HQ. exists t. split; [exact E|]. intros C R. apply HQ, H; auto.
Qed.

Lemma clean_run_emits {A} P (m : @M St A) w (Q : outcome A -> list event -> Prop) :
  emits P m ->
  (forall o t, forallb P t = true -> Q o t) ->
  clean_run m w Q.
Proof.
  intros Hm HQ. destruct (Hm w) as (t & E & F). exists t. split; [exact E|].
  intros _ _. apply HQ, F.
Qed.

Lemma clean_run_trace {A} (m : @M St A) w (Q : outcome A -> list event -> Prop) t :
  clean_run m w Q ->
  trace (snd (m w)) = trace w ++ t -> clean t = true ->
  raised (fst (m w)) = false -> Q (fst (m w)) t.
Proof.
  intros (t' & E & H) Et C R. rewrite E in Et. apply app_inv_head in Et. subst t'.
  exact (H C R).
Qed.

(** Running [m] and then [k]. *)
Lemma clean_run_bind {A B} (m : @M St A) (k : A -> @M St B) w
    (Q1 : outcome A -> list event -> Prop) (Q : outcome B -> list event -> Prop) :
  clean_run m w Q1 ->
  (forall o t1, Q1 o t1 -> is_normal o = true) ->
  (forall a, emits (fun _ => true) (k a)) ->
  (forall a t1 w1, Q1 (Normal a) t1 -> trace w1 = trace w ++ t1 ->
     clean_run (k a) w1 (fun o t => Q o (t1 ++ t))) ->
  clean_run (bind m k) w Q.
Proof.
  intros (t1 & E1 & H1) Hn Hk Hq. unfold clean_run, bind.
  destruct (m w) as [[a|f|] w1]; cbn [fst snd] in *.
  - destruct (Hk a w1) as (t2 & E2 & _). exists (t1 ++ t2).
    rewrite E2, E1, <- app_assoc. split; [reflexivity|].
    rewrite clean_app. intros [C1 C2]%andb_prop R.
    destruct (Hq a t1 w1 (H1 C1 eq_refl) E1) as (t2' & E2' & H2).
    rewrite E2 in E2'. apply app_inv_head in E2'. subst t2'. apply H2; assumption.
  - exists t1. split; [exact E1|]. discriminate.
  - exists t1. split; [exact E1|]. intros C _. discriminate (Hn _ _ (H1 C eq_refl)).
Qed.

(** In such a run, [with ctx: body] is [__enter__], the body, and
    [__exit__] without an exception; [ctx] is then a library object. *)
Lemma clean_run_with {A} ctx (body : @M St unit) (k : unit -> @M St A) w Q :
  emits (fun _ => true) (k tt) ->
  clean_run
    (bind (call respond (ctx_enter ctx)) (fun _ =>
     bind body (fun _ =>
     bind (call respond (ctx_exit ctx None)) (fun _ => k tt)))) w Q ->
  clean_run (bind (with_ respond ctx body) k) w Q.
Proof.
  intros Hk. destruct ctx as [|b|h]; cbn [with_].
  1, 2: intros _; exists []; cbn; rewrite app_nil_r; split;
        [reflexivity|discriminate].
  unfold clean_run, with_object, bind. rewrite call_eq.
  destruct (respond (ctx_enter (VObj h)) (backend w)) as [[v|f] s];
    cbn [fst snd outcome_of_reply]; [|auto].
  match goal with |- context [body ?w1] => destruct (body w1) as [[[]|f|] w2] end;
    cbn [fst snd]; [| |auto].
  - rewrite call_eq.
    destruct (respond (ctx_exit (VObj h) None) (backend w2)) as [[v'|f'] s'];
      cbn [fst snd outcome_of_reply ret]; auto.
  - intros (t' & E' & _). rewrite call_eq.
    destruct (respond (ctx_exit (VObj h) (Some f)) (backend w2)) as [[v'|f'] s'];
      cbn [fst snd outcome_of_reply]; [destruct (truthy v')|]; cbn [fst snd trace].
    + match goal with |- context [k tt ?w3] => destruct (Hk w3) as (tk & Ek & _) end.
      exists (t' ++ (ctx_exit (VObj h) (Some f), Ret v') :: tk).
      split; [rewrite Ek; cbn [trace]; rewrite E', <- !app_assoc; reflexivity|].
      rewrite clean_app. cbn. rewrite andb_false_r. discriminate.
    + exists (t' ++ [(ctx_exit (VObj h) (Some f), Ret v')]).
      split; [rewrite E', <- !app_assoc; reflexivity|]. intros _. discriminate.
    + exists (t' ++ [(ctx_exit (VObj h) (Some f), Raise f')]).
      split; [rewrite E', <- !app_assoc; reflexivity|].
      rewrite clean_app. cbn. rewrite andb_false_r. discriminate.
Qed.

End Clean.

Ltac clean_step :=
  lazymatch goal with
  | |- clean_run (bind (with_ _ _ _) _) _ _ =>
    apply clean_run_with; [emits_tac | ]
  | |- clean_run (bind (call _ _) _) _ _ =>
    apply clean_run_call; intros ? ? _
  | |- clean_run (bind (method _ _ _ _) _) _ _ =>
    apply clean_run_method; intros ? ? _
  | |- clean_run (bind (bind _ _) _) _ _ => apply clean_run_assoc
  | |- clean_run (bind (ret _) _) _ _ => apply clean_run_ret_bind
  | |- clean_run (ret _) _ _ => apply clean_run_ret
  end;
  cbv beta; cbn [trace backend].

Section MainTrace.
Context {St : Type} (respond : api_call -> St -> reply * St).
Variable args : cli_args.
Variable script_dir : string.
Implicit Types (w : @world St) (t : list event) (c : api_call).

(** The events of the frame-trigger block when nothing goes wrong. *)
Lemma registration_trace cam tray plane w :
  clean_run (randomization_graph respond cam tray plane) w
    (fun o t => o = Normal tt
                /\ exists r, t = registration_events cam tray plane r).
Proof.
  unfold randomization_graph. apply clean_run_last.
  repeat clean_step.
  split; [reflexivity|].
  match goal with
  | |- exists r, ?L = _ =>
    exists (fun i => nth i (map (fun e => match snd e with
                                          | Ret v => v
                                          | Raise _ => VNone
                                          end) L) VNone)
  end.
  reflexivity.
Qed.

(** The events of a run of [main] in which nothing goes wrong. *)
Lemma main_setup_trace fuel w :
  clean_run (main respond args script_dir fuel) w
    (fun _ t => exists a tw r rest,
       t = main_events args script_dir a tw r rest
       /\ map fst tw = warmup_calls (seq 0 100)
       /\ forallb is_orchestration rest = true).
Proof.
  unfold main, for_range. cbv zeta.
  do 3 clean_step.
  eapply clean_run_bind;
    [apply clean_run_of_faultless, warmup_trace | intros o t1 [-> _]; reflexivity
    | intros; emits_tac | ].
  intros [] tw w1 [_ Htw] _. cbv beta.
  do 4 clean_step.
  apply clean_run_with; [emits_tac|].
  clean_step.
  eapply clean_run_bind;
    [apply registration_trace | intros o t1 [-> _]; reflexivity
    | intros; emits_tac | ].
  intros [] treg w2 [_ [r ->]] _. cbv beta.
  do 6 clean_step.
  unfold run_orchestrator.
  apply clean_run_assoc. clean_step.
  eapply (clean_run_emits is_orchestration).
  - emits_tac.
  - intros o rest Hrest.
    eexists (Answers _ _ _ _ _ _ _ _ _ _ _ _ _ _ _), tw, r, rest.
    unfold main_events. cbn [a_loading a_opened a_stage a_cam a_tray a_plane
      a_trigger a_entered a_left a_writer a_output a_initialized a_product
      a_attached a_run].
    split; [reflexivity|]. split; [exact Htw|exact Hrest].
Qed.


End MainTrace.

(** ** Reading the trace of [main] *)

(** The calls that build the pipeline around the frame-trigger block. *)
Definition wiring (c : api_call) : bool :=
  match c with
  | open_stage _ | create_camera _ _ _ _ | create_from_usd _ | create_plane _ _ _
  | trigger_on_frame _ | WriterRegistry_get _ | writer_initialize _ _ _
  | create_render_product _ _ | writer_attach _ _ | orchestrator_run => true
  | _ => false
  end.


Lemma filter_calls (P : api_call -> bool) (t : list event) :
  map fst (@List.filter event (fun e : api_call * reply => P (fst e)) t)
  = List.filter P (map fst t).
Proof.
  induction t as [|e t IH]; simpl; [reflexivity|].
  destruct (P (fst e)); simpl; rewrite IH; reflexivity.
Qed.


Lemma filter_calls_none (P : api_call -> bool) (t : list event) :
  List.filter P (map fst t) = [] ->
  @List.filter event (fun e : api_call * reply => P (fst e)) t = [].
Proof.
  intros H. rewrite <- filter_calls in H.
  apply List.map_eq_nil in H. exact H.
Qed.

Lemma filter_off (P Q : api_call * reply -> bool) (t : list event) :
  (forall e, Q e = true -> P e = false) ->
  forallb Q t = true -> @List.filter event P t = [].
Proof.
  intros HPQ. induction t as [|e t IH]; simpl; [reflexivity|].
  intros [He Ht]%andb_prop. rewrite (HPQ e He). auto.
Qed.

Lemma orchestration_not_wiring e :
  is_orchestration e = true -> wiring (fst e) = false.
Proof. destruct e as [[] r]; cbn; intros H; first [reflexivity|discriminate H]. Qed.


(** * Further theorems *)





(** What the command line decides: in a run of [main] in which nothing
    goes wrong (every call returns, no scope is left with a fault, and [main]
    does not raise), the stage, the camera, the tray, the plane, the frame trigger,
    the writer and the render product are each made exactly once, in this
    order; the trigger gets [--num_frames], the writer [--data_dir] (with
    the semantic type omitted), the render product is taken from the camera
    that was created, at [--width] by [--height], and it is this product
    that is attached to the writer that was initialised, before the one run
    request. *)
Theorem main_wires_arguments St (respond : api_call -> St -> reply * St)
    args script_dir fuel (w : world) t :
  trace (snd (main respond args script_dir fuel w)) = trace w ++ t ->
  clean t = true ->
  raised (fst (main respond args script_dir fuel w)) = false ->
  exists stage cam tray plane trigger writer done product attached started,
    List.filter (fun e => wiring (fst e)) t
    = [ (open_stage (ENV_URL script_dir), Ret stage);
        (create_camera 1.93 0.8 3.896 (0.1, 1000000)%Q, Ret cam);
        (create_from_usd (TRAY_URL script_dir), Ret tray);
        (create_plane (0.35, 0.5, 1)%Q false (0.6, 0, 1.12)%Q, Ret plane);
        (trigger_on_frame (num_frames args), Ret trigger);
        (WriterRegistry_get "KittiWriter", Ret writer);
        (writer_initialize writer (data_dir args) true, Ret done);
        (create_render_product cam (width args, height args), Ret product);
        (writer_attach writer product, Ret attached);
        (orchestrator_run, Ret started) ].
Proof.
  intros E C R.
  destruct (clean_run_trace _ _ _ _
              (main_setup_trace respond args script_dir fuel w) E C R)
    as (a & tw & r & rest & -> & Htw & Hrest).
  exists (a_opened a), (a_cam a), (a_tray a), (a_plane a), (a_trigger a),
         (a_writer a), (a_initialized a), (a_product a), (a_attached a), (a_run a).
  unfold main_events. cbn [List.filter fst wiring].
  rewrite List.filter_app.
  rewrite (filter_calls_none wiring tw) by (rewrite Htw; vm_compute; reflexivity).
  cbn [app List.filter fst wiring].
  rewrite List.filter_app. cbn [registration_events List.filter fst wiring app].
  rewrite (filter_off (fun e : api_call * reply => wiring (fst e)) is_orchestration
             rest orchestration_not_wiring Hrest).
  reflexivity.
Qed.

Lemma main_wires_arguments_witness :
  exists stage cam tray plane trigger writer done product attached started,
    List.filter (fun e => wiring (fst e))
      (trace (snd (main example_backend example_args "/home/u" 5 (World booted []))))
    = [ (open_stage (ENV_URL "/home/u"), Ret stage);
        (create_camera 1.93 0.8 3.896 (0.1, 1000000)%Q, Ret cam);
        (create_from_usd (TRAY_URL "/home/u"), Ret tray);
        (create_plane (0.35, 0.5, 1)%Q false (0.6, 0, 1.12)%Q, Ret plane);
        (trigger_on_frame (num_frames example_args), Ret trigger);
        (WriterRegistry_get "KittiWriter", Ret writer);
        (writer_initialize writer (data_dir example_args) true, Ret done);
        (create_render_product cam (width example_args, height example_args),
         Ret product);
        (writer_attach writer product, Ret attached);
        (orchestrator_run, Ret started) ].
Proof.
  apply (main_wires_arguments _ example_backend example_args "/home/u" 5%nat
           (World booted [])).
  - vm_compute. reflexivity.
  - vm_compute. reflexivity.
  - vm_compute. reflexivity.
Defined.

(** Instantiation and scatter placement. *)
Definition populates (c : api_call) : bool :=
  match c with
  | randomizer_instantiate _ _ _ | randomizer_scatter_2d _ _ => true
  | _ => false
  end.

Lemma orchestration_not_populates e :
  is_orchestration e = true -> populates (fst e) = false.
Proof. destruct e as [[] r]; cbn; intros H; first [reflexivity|discriminate H]. Qed.

Lemma registration_sizes c t p r :
  exists l1 l2 l3,
    registration_events c t p r
    = l1 ++ (distribution_uniform (Scalar 0) (Scalar 5), Ret (r 25%nat))
         :: l2 ++ (distribution_uniform (Scalar 0) (Scalar 5), Ret (r 35%nat))
         :: l3.
Proof.
  exists (firstn 25 (registration_events c t p r)),
         (firstn 9 (skipn 26 (registration_events c t p r))),
         (skipn 36 (registration_events c t p r)).
  reflexivity.
Qed.

Lemma populates_registration c t p r :
  List.filter (fun e => populates (fst e)) (registration_events c t p r)
  = [ (randomizer_instantiate [nth 0 CUBES ""] (r 25%nat) [("class", "cube")],
       Ret (r 26%nat));
      (randomizer_scatter_2d p false, Ret (r 31%nat));
      (randomizer_instantiate [nth 0 CYLINDERS ""] (r 35%nat) [("class", "cylinder")],
       Ret (r 36%nat));
      (randomizer_scatter_2d p false, Ret (r 41%nat)) ].
Proof. reflexivity. Qed.

(** A part of the frame-trigger block inside the events of [main]. *)
Lemma main_events_part args script_dir a tw r rest n m :
  exists t1 t2,
    main_events args script_dir a tw r rest
    = t1 ++ firstn m (skipn n (registration_events (a_cam a) (a_tray a) (a_plane a) r))
         ++ t2
    /\ In (create_camera 1.93 0.8 3.896 (0.1, 1000000)%Q, Ret (a_cam a)) t1
    /\ In (create_from_usd (TRAY_URL script_dir), Ret (a_tray a)) t1
    /\ In (create_plane (0.35, 0.5, 1)%Q false (0.6, 0, 1.12)%Q, Ret (a_plane a)) t1.
Proof.
  set (R := registration_events (a_cam a) (a_tray a) (a_plane a) r).
  exists (((print ["Loading Stage " +:+ ENV_URL script_dir], Ret (a_loading a))
           :: (open_stage (ENV_URL script_dir), Ret (a_opened a))
           :: (get_current_stage, Ret (a_stage a)) :: tw)
          ++ [(create_camera 1.93 0.8 3.896 (0.1, 1000000)%Q, Ret (a_cam a));
              (create_from_usd (TRAY_URL script_dir), Ret (a_tray a));
              (create_plane (0.35, 0.5, 1)%Q false (0.6, 0, 1.12)%Q, Ret (a_plane a));
              (trigger_on_frame (num_frames args), Ret (a_trigger a));
              (ctx_enter (a_trigger a), Ret (a_entered a))]
          ++ firstn n R).
  exists (skipn m (skipn n R)
          ++ (ctx_exit (a_trigger a) None, Ret (a_left a))
          :: (WriterRegistry_get "KittiWriter", Ret (a_writer a))
          :: (print ["Outputting data to "; data_dir args], Ret (a_output a))
          :: (writer_initialize (a_writer a) (data_dir args) true,
              Ret (a_initialized a))
          :: (create_render_product (a_cam a) (width args, height args),
              Ret (a_product a))
          :: (writer_attach (a_writer a) (a_product a), Ret (a_attached a))
          :: (orchestrator_run, Ret (a_run a))
          :: rest).
  split; [|repeat split; apply in_or_app; right; apply in_or_app; left;
           simpl; auto].
  unfold main_events. fold R.
  rewrite <- (firstn_skipn n R) at 1. rewrite <- (firstn_skipn m (skipn n R)) at 1.
  rewrite <- !app_assoc. cbn [app]. reflexivity.
Qed.

(** The tray and the plane are posed from the same two distribution
    objects: in a run of [main] in which nothing goes wrong (every call
    returns, no scope is left with a fault, [main] does not raise), one position
    distribution and one rotation distribution are created, and the objects
    they are answered with are both passed to the pose rule registered in the
    scope of the tray and then to the pose rule registered in the scope of
    the plane; tray and plane are the objects answered by
    [create.from_usd] and [create.plane]. *)
Theorem tray_and_plane_share_distributions St
    (respond : api_call -> St -> reply * St) args script_dir fuel (w : world) t :
  trace (snd (main respond args script_dir fuel w)) = trace w ++ t ->
  clean t = true ->
  raised (fst (main respond args script_dir fuel w)) = false ->
  exists t1 t2 tray plane p q u1 u2 u3 u4 u5 u6,
    t = t1
        ++ [ (distribution_uniform (Tuple [0.57; -0.03; 1.095]%Q)
                                   (Tuple [0.63; 0.03; 1.095]%Q), Ret p);
             (distribution_uniform (Tuple [0; 0; -2]%Q) (Tuple [0; 0; 2]%Q), Ret q);
             (ctx_enter tray, Ret u1);
             (modify_pose (Some p) (Some q) None, Ret u2);
             (ctx_exit tray None, Ret u3);
             (ctx_enter plane, Ret u4);
             (modify_pose (Some p) (Some q) None, Ret u5);
             (ctx_exit plane None, Ret u6) ]
        ++ t2
    /\ In (create_from_usd (TRAY_URL script_dir), Ret tray) t1
    /\ In (create_plane (0.35, 0.5, 1)%Q false (0.6, 0, 1.12)%Q, Ret plane) t1.
Proof.
  intros E C R.
  destruct (clean_run_trace _ _ _ _
              (main_setup_trace respond args script_dir fuel w) E C R)
    as (a & tw & r & rest & -> & _ & _).
  destruct (main_events_part args script_dir a tw r rest 17 8)
    as (t1 & t2 & -> & _ & Ht & Hp).
  exists t1, t2, (a_tray a), (a_plane a). do 8 eexists.
  split; [reflexivity|]. split; assumption.
Qed.

Lemma tray_and_plane_share_distributions_witness :
  exists t1 t2 tray plane p q u1 u2 u3 u4 u5 u6,
    trace (snd (main example_backend example_args "/home/u" 5 (World booted [])))
    = t1
        ++ [ (distribution_uniform (Tuple [0.57; -0.03; 1.095]%Q)
                                   (Tuple [0.63; 0.03; 1.095]%Q), Ret p);
             (distribution_uniform (Tuple [0; 0; -2]%Q) (Tuple [0; 0; 2]%Q), Ret q);
             (ctx_enter tray, Ret u1);
             (modify_pose (Some p) (Some q) None, Ret u2);
             (ctx_exit tray None, Ret u3);
             (ctx_enter plane, Ret u4);
             (modify_pose (Some p) (Some q) None, Ret u5);
             (ctx_exit plane None, Ret u6) ]
        ++ t2
    /\ In (create_from_usd (TRAY_URL "/home/u"), Ret tray) t1
    /\ In (create_plane (0.35, 0.5, 1)%Q false (0.6, 0, 1.12)%Q, Ret plane) t1.
Proof.
  apply (tray_and_plane_share_distributions _ example_backend example_args
           "/home/u" 5%nat (World booted [])).
  - vm_compute. reflexivity.
  - vm_compute. reflexivity.
  - vm_compute. reflexivity.
Defined.


(** The scopes that are open, innermost first, after one more event. *)
Definition scope_step (open : list pyval) (e : event) : list pyval :=
  match e with
  | (ctx_enter h, Ret _) => h :: open
  | (ctx_exit _ _, _) => tl open
  | _ => open
  end.

Definition scope_stack (open : list pyval) (t : list event) : list pyval :=
  fold_left scope_step t open.



Lemma scope_stack_app open t1 t2 :
  scope_stack open (t1 ++ t2) = scope_stack (scope_stack open t1) t2.
Proof. apply fold_left_app. Qed.














(** Cubes, then cylinders: in a run of [main] in which nothing goes wrong
    (every call returns, no scope is left with a fault, [main] does not
    raise) there are exactly two instantiation nodes, the first for the cube asset
    with the label class/cube, the second for the cylinder asset with the
    label class/cylinder, each with a size distribution of its own over 0 to
    5, and each followed by one scatter placement, on the plane that was
    created and without collision checking. *)
Theorem objects_scatter_on_the_plane St
    (respond : api_call -> St -> reply * St) args script_dir fuel (w : world) t :
  trace (snd (main respond args script_dir fuel w)) = trace w ++ t ->
  clean t = true ->
  raised (fst (main respond args script_dir fuel w)) = false ->
  exists plane size1 size2 cubes cylinders u1 u2,
    List.filter (fun e => populates (fst e)) t
    = [ (randomizer_instantiate [nth 0 CUBES ""] size1 [("class", "cube")],
         Ret cubes);
        (randomizer_scatter_2d plane false, Ret u1);
        (randomizer_instantiate [nth 0 CYLINDERS ""] size2 [("class", "cylinder")],
         Ret cylinders);
        (randomizer_scatter_2d plane false, Ret u2) ]
    /\ In (create_plane (0.35, 0.5, 1)%Q false (0.6, 0, 1.12)%Q, Ret plane) t
    /\ exists t1 t2 t3,
         t = t1 ++ (distribution_uniform (Scalar 0) (Scalar 5), Ret size1)
                :: t2 ++ (distribution_uniform (Scalar 0) (Scalar 5), Ret size2)
                :: t3.
Proof.
  intros E C R.
  destruct (clean_run_trace _ _ _ _
              (main_setup_trace respond args script_dir fuel w) E C R)
    as (a & tw & r & rest & -> & Htw & Hrest).
  exists (a_plane a), (r 25%nat), (r 35%nat), (r 26%nat), (r 36%nat),
         (r 31%nat), (r 41%nat).
  split; [|split].
  - unfold main_events.
    change (?e1 :: ?e2 :: ?e3 :: tw ++ ?c1 :: ?c2 :: ?c3 :: ?c4 :: ?c5 :: ?R ++ ?post)
      with ([e1; e2; e3] ++ tw ++ [c1; c2; c3; c4; c5] ++ R ++ post).
    rewrite !List.filter_app, populates_registration.
    rewrite (filter_calls_none populates tw) by (rewrite Htw; vm_compute; reflexivity).
    cbn [List.filter fst populates app].
    rewrite (filter_off (fun e : api_call * reply => populates (fst e))
               is_orchestration rest orchestration_not_populates Hrest).
    reflexivity.
  - destruct (main_events_part args script_dir a tw r rest 0 0)
      as (t1 & t2 & -> & _ & _ & Hp).
    apply in_or_app. left. exact Hp.
  - unfold main_events.
    destruct (registration_sizes (a_cam a) (a_tray a) (a_plane a) r)
      as (l1 & l2 & l3 & ->).
    eexists (_ :: _ :: _ :: tw ++ _ :: _ :: _ :: _ :: _ :: l1), l2, (l3 ++ _).
    rewrite <- !app_assoc. cbn [app]. rewrite <- !app_assoc. cbn [app].
    reflexivity.
Qed.

Lemma objects_scatter_on_the_plane_witness :
  exists plane size1 size2 cubes cylinders u1 u2,
    List.filter (fun e => populates (fst e))
      (trace (snd (main example_backend example_args "/home/u" 5 (World booted []))))
    = [ (randomizer_instantiate [nth 0 CUBES ""] size1 [("class", "cube")],
         Ret cubes);
        (randomizer_scatter_2d plane false, Ret u1);
        (randomizer_instantiate [nth 0 CYLINDERS ""] size2 [("class", "cylinder")],
         Ret cylinders);
        (randomizer_scatter_2d plane false, Ret u2) ]
    /\ In (create_plane (0.35, 0.5, 1)%Q false (0.6, 0, 1.12)%Q, Ret plane)
          (trace (snd (main example_backend example_args "/home/u" 5
                            (World booted []))))
    /\ exists t1 t2 t3,
         trace (snd (main example_backend example_args "/home/u" 5 (World booted [])))
         = t1 ++ (distribution_uniform (Scalar 0) (Scalar 5), Ret size1)
              :: t2 ++ (distribution_uniform (Scalar 0) (Scalar 5), Ret size2)
              :: t3.
Proof.
  apply (objects_scatter_on_the_plane _ example_backend example_args
           "/home/u" 5%nat (World booted [])).
  - vm_compute. reflexivity.
  - vm_compute. reflexivity.
  - vm_compute. reflexivity.
Defined.

Lemma rounds_before_stopped t :
  forallb (fun e => is_ret e && (is_poll e || is_update e)) t = true ->
  forallb before_stopped t = true.
Proof.
  induction t as [|[c r] t IH]; simpl; [reflexivity|].
  intros [[_ H]%andb_prop Ht]%andb_prop. rewrite (IH Ht), andb_true_r.
  destruct c; simpl in H; try discriminate H; reflexivity.
Qed.

(** Every scope is left again.  However the script ends (it returns, a call
    raises anywhere, a poll loop is cut off), each [with] scope that was
    entered has been left by the same object, scopes are nested, and at most
    two are open at a time: the frame trigger and one target inside it. *)
Theorem scopes_always_closed St (respond : api_call -> St -> reply * St)
    args script_dir fuel (w : world) :
  exists t,
    trace (snd (script respond args script_dir fuel w)) = trace w ++ t
    /\ scoped 2 t.
Proof. apply script_nests. Qed.

(** The poll loops have no timeout.  On a backend whose started signal
    never changes (always false, or always true), [run_orchestrator] does not
    return: whatever number of rounds it is given, it uses them all, one tick
    per round, and it reaches neither the drain barrier nor the stop
    command. *)
Theorem run_orchestrator_has_no_timeout St
    (respond : api_call -> St -> reply * St) (b : bool) fuel (w : world) :
  returns respond orchestrator_run ->
  returns respond app_update ->
  signal_stays respond b ->
  exists w' r0 t,
    run_orchestrator respond fuel w = (Diverged, w')
    /\ trace w' = trace w ++ (orchestrator_run, Ret r0) :: t
    /\ length (List.filter is_update t) = fuel
    /\ forallb before_stopped t = true.
Proof.
  intros Hrun Hupd Hsig. unfold run_orchestrator.
  unfold bind at 1. rewrite call_eq.
  destruct (Hrun (backend w)) as (r0 & s0 & ->). cbn [fst snd outcome_of_reply].
  set (w0 := World s0 (trace w ++ [(orchestrator_run, Ret r0)])).
  destruct b.
  - (* started at once, and for ever *)
    destruct fuel as [|fuel].
    + exists w0, r0, []. repeat split; reflexivity.
    + destruct (while_passes respond negb true fuel Hsig eq_refl w0)
        as (w1 & v & E1 & T1).
      unfold bind at 1. rewrite E1.
      destruct (while_stuck respond (fun x => x) true (S fuel) Hsig Hupd eq_refl w1)
        as (w2 & t & E2 & T2 & R1 & R2 & R3).
      unfold bind at 1. rewrite E2.
      exists w2, r0, ((orchestrator_get_is_started, Ret v) :: t).
      split; [reflexivity|]. split.
      * rewrite T2, T1. unfold w0. cbn [trace]. rewrite <- !app_assoc. reflexivity.
      * cbn. split; [exact R2|]. apply rounds_before_stopped, R3.
  - (* never started *)
    destruct (while_stuck respond negb false fuel Hsig Hupd eq_refl w0)
      as (w1 & t & E1 & T1 & R1 & R2 & R3).
    unfold bind at 1. rewrite E1.
    exists w1, r0, t. split; [reflexivity|]. split.
    + rewrite T1. unfold w0. cbn [trace]. rewrite <- !app_assoc. reflexivity.
    + split; [exact R2|]. apply rounds_before_stopped, R3.
Qed.

(** Three rounds on the backend that answers [None] to everything. *)
Lemma run_orchestrator_has_no_timeout_witness :
  exists w' r0 t,
    run_orchestrator silent 3 (World tt []) = (Diverged, w')
    /\ trace w' = [] ++ (orchestrator_run, Ret r0) :: t
    /\ length (List.filter is_update t) = 3%nat
    /\ forallb before_stopped t = true.
Proof.
  apply (run_orchestrator_has_no_timeout unit silent false 3%nat (World tt [])).
  - intros s. exists VNone, s. reflexivity.
  - intros s. exists VNone, s. reflexivity.
  - intros s. exists VNone, s. split; reflexivity.
Defined.

(** A fault ends [run_orchestrator] at once, and nothing is cleaned up.
    When [run_orchestrator] raises, the fault is the answer to the last call
    it made, every call before returned, and the stop command is not among
    them: after a failing tick, poll or drain barrier the orchestrator is
    left as it was, not stopped. *)
Theorem run_orchestrator_fault_skips_stop St
    (respond : api_call -> St -> reply * St) fuel (w w' : world) f :
  run_orchestrator respond fuel w = (Raised f, w') ->
  exists t c,
    trace w' = trace w ++ t ++ [(c, Raise f)]
    /\ faultless t = true
    /\ forallb (fun e => negb (is_stop e)) t = true.
Proof.
  intros H. destruct (run_orchestrator_raises respond fuel w f w' H)
    as (t & c & E & F).
  exists t, c. split; [exact E|].
  unfold faultless. clear -F. induction t as [|e t IH]; simpl in *; [auto|].
  apply andb_prop in F as [[F1 F2]%andb_prop Ft].
  destruct (IH Ft) as [-> ->]. rewrite F1, F2. auto.
Qed.

(** The drain barrier fails on the reference backend. *)
Lemma run_orchestrator_fault_skips_stop_witness :
  exists t c,
    trace (snd (run_orchestrator (failing drain_fails example_backend) 5
                                 (World booted [])))
    = [] ++ t ++ [(c, Raise (Exc "writer backend lost"))]
    /\ faultless t = true
    /\ forallb (fun e => negb (is_stop e)) t = true.
Proof.
  apply (run_orchestrator_fault_skips_stop _ (failing drain_fails example_backend)
           5%nat (World booted [])
           (snd (run_orchestrator (failing drain_fails example_backend) 5
                                  (World booted [])))
           (Exc "writer backend lost")).
  vm_compute. reflexivity.
Defined.

(** What the [__main__] block adds after [main].  After a return of
    [main], and after a fault that is not of class [Exception], the block
    only closes the application: such a fault is neither logged nor traced.
    After a fault of class [Exception] it logs "Exception: " followed by the
    text of the fault, prints the traceback and closes; when the logging call
    raises, the traceback is skipped and the application is closed all the
    same.  When [main] is cut off in a poll loop, the block does nothing. *)
Theorem main_block_logs_exceptions_only St
    (respond : api_call -> St -> reply * St) args script_dir fuel (w : world) :
  exists tail,
    trace (snd (main_block respond args script_dir fuel w))
    = trace (snd (main respond args script_dir fuel w)) ++ tail
    /\ match fst (main respond args script_dir fuel w) with
       | Normal _ => exists c, tail = [(app_close, c)]
       | Raised f =>
         if is_Exception f
         then (exists v c1 c2,
                 tail = [(carb_log_error ("Exception: " +:+ str_of_fault f), Ret v);
                         (traceback_print_exc, c1); (app_close, c2)])
              \/ (exists g c,
                    tail = [(carb_log_error ("Exception: " +:+ str_of_fault f),
                             Raise g);
                            (app_close, c)])
         else exists c, tail = [(app_close, c)]
       | Diverged => tail = []
       end.
Proof.
  assert (Hclose : forall w1 : @world St,
            trace (snd (bind (call respond app_close) (fun _ => ret tt) w1))
            = trace w1 ++ [(app_close, fst (respond app_close (backend w1)))]).
  { intros w1. rewrite bind_call_eq.
    destruct (respond app_close (backend w1)) as [[v|g] s]; reflexivity. }
  unfold main_block, try_except_finally.
  destruct (main respond args script_dir fuel w) as [[[]|f|] w1]; cbn [fst snd].
  - eexists. split; [apply Hclose|eauto].
  - destruct (is_Exception f).
    + rewrite bind_call_eq.
      destruct (respond (carb_log_error ("Exception: " +:+ str_of_fault f))
                        (backend w1)) as [[v|g] s1]; cbn [fst snd].
      * rewrite bind_call_eq. cbn [backend trace].
        destruct (respond traceback_print_exc s1) as [[v'|g] s2];
          cbn [fst snd ret].
        -- eexists. split; [rewrite Hclose; cbn [trace backend];
                            rewrite <- !app_assoc; reflexivity|].
           left. eauto.
        -- eexists. split; [|left; eauto].
           match goal with
           | |- context [bind (call respond app_close) ?k ?w2] =>
             specialize (Hclose w2);
             destruct (bind (call respond app_close) k w2) as [[[]|h|] w3]
           end; cbn [fst snd trace backend] in *;
             rewrite Hclose, <- !app_assoc; reflexivity.
      * eexists. split; [|right; eauto].
        match goal with
        | |- context [bind (call respond app_close) ?k ?w2] =>
          specialize (Hclose w2);
          destruct (bind (call respond app_close) k w2) as [[[]|h|] w3]
        end; cbn [fst snd trace backend] in *;
          rewrite Hclose, <- !app_assoc; reflexivity.
    + eexists. split; [|eauto].
      specialize (Hclose w1).
      destruct (bind (call respond app_close) (fun _ => ret tt) w1)
        as [[[]|h|] w3]; cbn [fst snd] in *; exact Hclose.
  - exists []. rewrite app_nil_r. auto.
Qed.


(** Drain before stop, in every run.  However [run_orchestrator] ends (it
    returns, a call raises, a poll loop is cut off), the drain barrier is
    called at most once, and only right after a poll answered "not started";
    the stop command is called at most once, and only right after the drain
    barrier returned; nothing is called after the stop command. *)
Theorem stop_only_after_drain St (respond : api_call -> St -> reply * St)
    fuel (w : world) :
  exists t rest,
    trace (snd (run_orchestrator respond fuel w)) = trace w ++ t ++ rest
    /\ forallb before_stopped t = true
    /\ (rest = []
        \/ exists t0 v,
             t = t0 ++ [(orchestrator_get_is_started, Ret v)]
             /\ truthy v = false
             /\ ((exists f, rest = [(BackendDispatch_wait_until_done, Raise f)])
                 \/ (exists r c, rest = [(BackendDispatch_wait_until_done, Ret r);
                                         (orchestrator_stop, c)]))).
Proof.
  unfold run_orchestrator. rewrite bind_call_eq.
  destruct (respond orchestrator_run (backend w)) as [[r0|f] s0]; cbn [fst snd].
  2: { exists [(orchestrator_run, Raise f)], []. rewrite app_nil_r. auto. }
  set (w0 := World s0 (trace w ++ [(orchestrator_run, Ret r0)])).
  set (loop1 := while fuel (bind (call respond orchestrator_get_is_started)
                                 (fun v => ret (negb (truthy v))))
                           (bind (call respond app_update) (fun _ => ret tt))).
  set (loop2 := while fuel (bind (call respond orchestrator_get_is_started)
                                 (fun v => ret (truthy v)))
                           (bind (call respond app_update) (fun _ => ret tt))).
  assert (H1 : emits before_stopped loop1) by (unfold loop1; emits_tac).
  assert (H2 : emits before_stopped loop2) by (unfold loop2; emits_tac).
  destruct (H1 w0) as (t1 & E1 & F1).
  unfold bind at 1.
  destruct (loop1 w0) as [[[]|f|] w1] eqn:L1; cbn [fst snd] in *;
    try (exists ((orchestrator_run, Ret r0) :: t1), [];
         rewrite app_nil_r, E1; unfold w0; cbn [trace]; rewrite <- app_assoc;
         cbn; rewrite F1; auto).
  destruct (H2 w1) as (t2 & E2 & F2).
  unfold bind at 1.
  destruct (loop2 w1) as [[[]|f|] w2] eqn:L2; cbn [fst snd] in *;
    try (exists ((orchestrator_run, Ret r0) :: t1 ++ t2), [];
         rewrite app_nil_r, E2, E1; unfold w0; cbn [trace]; rewrite <- !app_assoc;
         cbn; rewrite forallb_app, F1, F2; auto).
  apply while_running in L2 as (t2' & E2' & P2).
  rewrite E2 in E2'. apply app_inv_head in E2'. subst t2'.
  destruct (running_phase_last _ P2) as (t0 & v & -> & Hv & F0).
  rewrite bind_call_eq.
  destruct (respond BackendDispatch_wait_until_done (backend w2)) as [[r|f] s3];
    cbn [fst snd].
  - rewrite bind_call_eq. cbn [backend trace].
    exists ((orchestrator_run, Ret r0)
            :: t1 ++ t0 ++ [(orchestrator_get_is_started, Ret v)]),
           [(BackendDispatch_wait_until_done, Ret r);
            (orchestrator_stop, fst (respond orchestrator_stop s3))].
    split; [|split].
    + destruct (respond orchestrator_stop s3) as [[u|g] s4]; cbn [fst snd trace ret];
        rewrite E2, E1; unfold w0; cbn [trace]; rewrite <- !app_assoc; cbn [app];
        rewrite <- ?app_assoc; reflexivity.
    + cbn. rewrite forallb_app, F1. exact F2.
    + right. exists ((orchestrator_run, Ret r0) :: t1 ++ t0), v.
      split; [cbn; rewrite <- app_assoc; reflexivity|]. split; [exact Hv|].
      right. eauto.
  - exists ((orchestrator_run, Ret r0)
            :: t1 ++ t0 ++ [(orchestrator_get_is_started, Ret v)]),
           [(BackendDispatch_wait_until_done, Raise f)].
    split; [|split].
    + cbn [trace]. rewrite E2, E1. unfold w0. cbn [trace].
      rewrite <- !app_assoc. cbn [app]. rewrite <- ?app_assoc. reflexivity.
    + cbn. rewrite forallb_app, F1. exact F2.
    + right. exists ((orchestrator_run, Ret r0) :: t1 ++ t0), v.
      split; [cbn; rewrite <- app_assoc; reflexivity|]. split; [exact Hv|].
      left. eauto.
Qed.
